(** * Route manifest generator and index file renamer

    A shallow embedding of the two maintenance scripts
    [tmp/generate_manual_routes.py] and [tmp/rename_indexes.py], and the
    properties of the route derivation, of the sorted manifest and of the
    in-place renaming that their specification states.

    Text is modelled as [string] (a sequence of bytes).  Python compares,
    slices and searches [str] values by code point; every character the
    scripts look for (["/"], ["$"], [".tsx"], the import reference) is ASCII,
    and on UTF-8 encoded text the byte-wise lexicographic order is the
    code-point order, so the byte view and the code-point view agree on every
    operation used here.

    The encoding of text files is taken to be UTF-8, as it is where the
    scripts are run.  A file name comes from the file system as bytes; bytes
    that are no UTF-8 stay in the [str] as escapes, which no text file takes:
    so a text can be written exactly when its bytes are well-formed UTF-8, and
    a file can be read as text exactly when its bytes are.  Standard output is
    taken to accept every line. *)

From stdpp Require Import base list sorting strings pretty.
From Stdlib Require Import Ascii Lia.

(** ** Python string operations *)

Module Py.

(** [s.startswith(p)] *)
Definition startswith (s p : string) : bool := String.prefix p s.

(** [s.endswith(suf)]: some tail of [s] is [suf]. *)
Fixpoint endswith (s suf : string) : bool :=
  if String.eqb s suf then true
  else match s with
       | EmptyString => false
       | String _ s' => endswith s' suf
       end.

(** [sub in s] *)
Fixpoint contains (s sub : string) : bool :=
  if String.prefix sub s then true
  else match s with
       | EmptyString => false
       | String _ s' => contains s' sub
       end.

(** [s[i:]] for [i >= 0] *)
Fixpoint slice_from (i : nat) (s : string) : string :=
  match i, s with
  | S i', String _ s' => slice_from i' s'
  | _, _ => s
  end.

(** [s[:-k]] for [k > 0]; a string shorter than [k] gives [""]. *)
Definition slice_to_neg (k : nat) (s : string) : string :=
  String.substring 0 (String.length s - k) s.

(** [s.split(sep)] for a separator of one character. *)
Fixpoint split (s : string) (sep : ascii) : list string :=
  match s with
  | EmptyString => [EmptyString]
  | String c s' =>
      if Ascii.eqb c sep then EmptyString :: split s' sep
      else match split s' sep with
           | piece :: rest => String c piece :: rest
           | [] => [String c EmptyString]
           end
  end.

(** [sep.join(l)] *)
Definition join (sep : string) (l : list string) : string :=
  String.concat sep l.

(** [s.replace(old, new)]: every occurrence of [old], scanning from the
    left and never overlapping.  [skip] counts the characters of a matched
    occurrence that are still to be passed over. *)
Fixpoint replace_from (old new : string) (skip : nat) (s : string) : string :=
  match s with
  | EmptyString => if String.eqb old "" then new else ""
  | String c s' =>
      match skip with
      | S k => replace_from old new k s'
      | O =>
          if String.prefix old s then
            match old with
            | EmptyString => new +:+ String c (replace_from old new 0 s')
            | String _ old' =>
                new +:+ replace_from old new (String.length old') s'
            end
          else String c (replace_from old new 0 s')
      end
  end.

Definition replace (s old new : string) : string :=
  replace_from old new 0 s.

(** *** Text files

    The decoder of UTF-8, as an automaton over the bytes: [U0] stands between
    two characters, [U1], [U2] and [U3] wait for that many continuation
    bytes, and the other states come behind a lead byte that narrows the
    range of the byte after it (no overlong form, no surrogate, nothing above
    U+10FFFF). *)
Inductive utf8_state : Type :=
| U0 | U1 | U2 | U3 | UE0 | UED | UF0 | UF4.

Definition between (lo hi n : N) : bool := (lo <=? n)%N && (n <=? hi)%N.

Definition utf8_step (q : utf8_state) (b : ascii) : option utf8_state :=
  let n := N_of_ascii b in
  match q with
  | U0 =>
      if (n <? 128)%N then Some U0
      else if between 194 223 n then Some U1
      else if (n =? 224)%N then Some UE0
      else if between 225 236 n || between 238 239 n then Some U2
      else if (n =? 237)%N then Some UED
      else if (n =? 240)%N then Some UF0
      else if between 241 243 n then Some U3
      else if (n =? 244)%N then Some UF4
      else None
  | U1 => if between 128 191 n then Some U0 else None
  | U2 => if between 128 191 n then Some U1 else None
  | U3 => if between 128 191 n then Some U2 else None
  | UE0 => if between 160 191 n then Some U1 else None
  | UED => if between 128 159 n then Some U1 else None
  | UF0 => if between 144 191 n then Some U2 else None
  | UF4 => if between 128 143 n then Some U2 else None
  end.

Fixpoint utf8_run (q : utf8_state) (s : string) : option utf8_state :=
  match s with
  | EmptyString => Some q
  | String b s' =>
      match utf8_step q b with
      | Some q' => utf8_run q' s'
      | None => None
      end
  end.

(** The bytes [s] are well-formed UTF-8: [s.decode("utf-8")] returns, and a
    text with these bytes can be encoded. *)
Definition utf8_valid (s : string) : bool :=
  match utf8_run U0 s with
  | Some U0 => true
  | _ => false
  end.

(** What reading in text mode makes of the line ends: a carriage return
    with the line feed behind it, or alone, is read as one line feed. *)
Fixpoint universal_newlines (s : string) : string :=
  match s with
  | EmptyString => EmptyString
  | String c s' =>
      if Ascii.eqb c "013" then
        String "010"
          match s' with
          | String c' s'' =>
              if Ascii.eqb c' "010" then universal_newlines s''
              else universal_newlines s'
          | EmptyString => EmptyString
          end
      else String c (universal_newlines s')
  end.

End Py.

(** ** [os.path] on POSIX *)

Module posixpath.

(** [os.path.join(a, p)] *)
Definition join (a p : string) : string :=
  if Py.startswith p "/" then p
  else if String.eqb a "" || Py.endswith a "/" then a +:+ p
  else a +:+ "/" +:+ p.

(** One round of the component loop of [normpath]; [absolute] is
    [initial_slashes]. *)
Definition norm_step (absolute : bool) (new_comps : list string)
    (comp : string) : list string :=
  if String.eqb comp "" || String.eqb comp "." then new_comps
  else if negb (String.eqb comp "..")
          || (negb absolute && bool_decide (new_comps = []))
          || bool_decide (last new_comps = Some "..")
  then new_comps ++ [comp]
  else removelast new_comps.

(** [os.path.normpath(path)].  A path that starts with exactly two slashes
    keeps both. *)
Definition normpath (path : string) : string :=
  if String.eqb path "" then "."
  else
    let initial_slashes :=
      if Py.startswith path "/" then
        if Py.startswith path "//" && negb (Py.startswith path "///")
        then 2 else 1
      else 0 in
    let comps :=
      fold_left (norm_step (negb (Nat.eqb initial_slashes 0)))
                (Py.split path "/") [] in
    let path' := Py.join "/" comps in
    let path' :=
      match initial_slashes with
      | 0 => path'
      | 1 => "/" +:+ path'
      | _ => "//" +:+ path'
      end in
    if String.eqb path' "" then "." else path'.

(** [os.path.abspath(path)]; [cwd] is what [os.getcwd()] returns. *)
Definition abspath (cwd path : string) : string :=
  normpath (join cwd path).

(** [os.path.commonprefix] of two component lists. *)
Fixpoint commonprefix (l1 l2 : list string) : list string :=
  match l1, l2 with
  | x :: l1', y :: l2' =>
      if String.eqb x y then x :: commonprefix l1' l2' else []
  | _, _ => []
  end.

(** [os.path.relpath(path, start)] for a non-empty [path]. *)
Definition relpath (cwd path start : string) : string :=
  let nonempty x := negb (String.eqb x "") in
  let start_list := filter nonempty (Py.split (abspath cwd start) "/") in
  let path_list := filter nonempty (Py.split (abspath cwd path) "/") in
  let i := length (commonprefix start_list path_list) in
  let rel_list :=
    replicate (length start_list - i) ".." ++ drop i path_list in
  match rel_list with
  | [] => "."
  | _ => Py.join "/" rel_list
  end.

End posixpath.

(** ** Exceptions and the script monad *)

Inductive exn : Type :=
| IndexError
| FileNotFoundError
| IsADirectoryError
| NotADirectoryError
| ShutilError
| OSError
| UnicodeDecodeError
| UnicodeEncodeError.

Inductive result (A : Type) : Type :=
| Ok (a : A)
| Raise (e : exn).
Arguments Ok {A} a.
Arguments Raise {A} e.

#[export] Instance result_ret : MRet result := @Ok.
#[export] Instance result_bind : MBind result := λ A B f r,
  match r with
  | Ok a => f a
  | Raise e => Raise e
  end.

(** A script over a world [W]: it returns or raises, and leaves a world. *)
Definition Prog (W A : Type) : Type := W → result A * W.

#[export] Instance Prog_ret {W} : MRet (Prog W) := λ A a w, (Ok a, w).
#[export] Instance Prog_bind {W} : MBind (Prog W) := λ A B f m w,
  match m w with
  | (Ok a, w') => f a w'
  | (Raise e, w') => (Raise e, w')
  end.

Definition lift {W A} (r : result A) : Prog W A := λ w, (r, w).
Definition raise {W A} (e : exn) : Prog W A := λ w, (Raise e, w).
Definition get {W} : Prog W W := λ w, (Ok w, w).
Definition modify {W} (f : W → W) : Prog W unit := λ w, (Ok (), f w).

(** [for x in l: body(x)] *)
Fixpoint for_each {W A} (l : list A) (body : A → Prog W unit) : Prog W unit :=
  match l with
  | [] => mret ()
  | x :: l' => body x ;; for_each l' body
  end.

(** ** The file tree and [os.walk] *)

(** A directory lists its entries in the order [os.scandir] reports them. *)
#[local] Set Warnings "-register-all".
Inductive node : Type :=
| File (content : string)
| Dir (entries : list (string * node)).

Definition is_dir (n : node) : bool :=
  match n with Dir _ => true | File _ => false end.

Definition dirnames (es : list (string * node)) : list string :=
  (filter (λ e, is_dir e.2) es).*1.
Definition filenames (es : list (string * node)) : list string :=
  (filter (λ e, negb (is_dir e.2)) es).*1.

(** The triples [(root, dirs, files)] of a top-down [os.walk(top)], in the
    order they are yielded.  [P] is the type of paths and [join] is
    [os.path.join].  Only directories yield anything: on a plain file the
    listing fails, and [os.walk] swallows that error. *)
Section os_walk.
Context {P : Type} (join : P → string → P).

Fixpoint walk (top : P) (n : node) : list (P * list string * list string) :=
  match n with
  | File _ => []
  | Dir es =>
      (top, dirnames es, filenames es) ::
      (fix walk_sub (l : list (string * node)) :=
         match l with
         | [] => []
         | (name, child) :: l' => walk (join top name) child ++ walk_sub l'
         end) es
  end.
End os_walk.

(** An iteration over [os.walk]: it yields triples until it is exhausted, or
    until an exception escapes from it. *)
Inductive walk_iter (P : Type) : Type :=
| WStop
| WYield (item : P * list string * list string) (rest : walk_iter P)
| WRaise (e : exn).
Arguments WStop {P}.
Arguments WYield {P} item rest.
Arguments WRaise {P} e.

Fixpoint iter_of_list {P} (l : list (P * list string * list string)) : walk_iter P :=
  match l with
  | [] => WStop
  | item :: l' => WYield item (iter_of_list l')
  end.

(** [for root, dirs, files in it: body(root, dirs, files)] *)
Fixpoint for_walk {W P} (it : walk_iter P)
    (body : P → list string → list string → Prog W unit) : Prog W unit :=
  match it with
  | WStop => mret ()
  | WYield (root, dirs, files) rest => body root dirs files ;; for_walk rest body
  | WRaise e => raise e
  end.

(** ** [generate_manual_routes.py] *)

Module Generator.

Definition dq : string := String "034"%char EmptyString.
Definition nl : string := String "010"%char EmptyString.

Definition base_dir : string := "app/routes".
Definition output_file : string := "app/routes.ts".

(** The world of the script: the list [routes], the content of
    [output_file] ([None] while the file does not exist) and what was
    printed. *)
Record world : Type := World {
  routes : list string;
  out : option string;
  stdout : list string
}.

(** [l[-1]] *)
Definition last_item (l : list string) : result string :=
  match last l with
  | Some x => Ok x
  | None => Raise IndexError
  end.

(** The segments of [path_rel] after the file name is dropped or loses its
    extension. *)
Definition route_segments (path_rel : string) : result (list string) :=
  let segments :=
    if Py.contains path_rel "/" then Py.split path_rel "/"
    else [path_rel] in
  filename ← last_item segments;
  if String.eqb filename "_index.tsx" || String.eqb filename "index.tsx"
     || String.eqb filename "route.tsx"
  then mret (removelast segments)
  else if Py.endswith filename ".tsx"
  then mret (<[pred (length segments) := Py.slice_to_neg 4 filename]> segments)
  else mret segments.

(** The loop that fills [url_segments]. *)
Definition url_segments (segments : list string) : list string :=
  fold_left (λ url_segments seg,
               if Py.startswith seg "$"
               then url_segments ++ [":" +:+ Py.slice_from 1 seg]
               else url_segments ++ [seg])
            segments [].

Definition index_line (rel_path : string) : string :=
  "    index(" +:+ dq +:+ rel_path +:+ dq +:+ "),".
Definition route_form (url_path rel_path : string) : string :=
  "    route(" +:+ dq +:+ url_path +:+ dq +:+ ", " +:+ dq +:+ rel_path
    +:+ dq +:+ "),".

(** [url_path] of the file [file] found in directory [root]. *)
Definition url_path_of (cwd root file : string) : result string :=
  let full_path := posixpath.join root file in
  let path_rel := posixpath.relpath cwd full_path base_dir in
  segments ← route_segments path_rel;
  mret (Py.join "/" (url_segments segments)).

(** The body of the inner loop, for one [file] of the directory [root]. *)
Definition visit (cwd root file : string) : Prog world unit :=
  if negb (Py.endswith file ".tsx") then mret ()
  else
    let full_path := posixpath.join root file in
    let rel_path := posixpath.relpath cwd full_path "app" in
    url_path ← lift (url_path_of cwd root file);
    if String.eqb url_path ""
    then modify (λ w, World (routes w ++ [index_line rel_path]) (out w) (stdout w))
    else modify (λ w, World (routes w ++ [route_form url_path rel_path])
                            (out w) (stdout w)).

Definition header : string :=
  "import { type RouteConfig, index, route } from " +:+ dq
    +:+ "@react-router/dev/routes" +:+ dq +:+ ";" +:+ nl +:+ nl
    +:+ "export default [" +:+ nl.
Definition footer : string := nl +:+ "] satisfies RouteConfig;" +:+ nl.

Definition content_of (routes : list string) : string :=
  header +:+ Py.join nl routes +:+ footer.

(** The two nested loops, over the iteration [it] of [os.walk(base_dir)]. *)
Definition loops (cwd : string) (it : walk_iter string) : Prog world unit :=
  for_walk it (λ root dirs files, for_each files (visit cwd root)).

(** [with open(output_file, "w") as f: f.write(content)].  Whether the file
    can be opened for writing is up to its surroundings: [open_err] is the
    exception that [open] raises ([FileNotFoundError] where the directory
    [app] is missing, [IsADirectoryError] where the name is that of a
    directory, and so on), or [None] where it opens the file.  A failing
    [open] leaves the file alone.  Once opened the file is empty; the text
    is encoded as a whole before any of it reaches the file, so a text that
    cannot be encoded leaves the file empty. *)
Definition write_output (open_err : option exn) (content : string)
    : Prog world unit :=
  match open_err with
  | Some e => raise e
  | None =>
      modify (λ w, World (routes w) (Some "") (stdout w)) ;;
      if Py.utf8_valid content
      then modify (λ w, World (routes w) (Some content) (stdout w))
      else raise UnicodeEncodeError
  end.

(** The whole script. *)
Definition script (open_err : option exn) (cwd : string)
    (it : walk_iter string) : Prog world unit :=
  loops cwd it ;;
  modify (λ w, World (merge_sort String.le (routes w)) (out w) (stdout w)) ;;
  w ← get;
  let content := content_of (routes w) in
  write_output open_err content ;;
  modify (λ w, World (routes w) (out w)
                 (stdout w ++ ["Generated " +:+ output_file +:+ " with "
                               +:+ pretty (length (routes w)) +:+ " routes."])).

(** A run in the directory [cwd], where [base_dir] holds the tree [t] and
    [output_file] holds [prior]. *)
Definition initial (prior : option string) : world := World [] prior [].
Definition main (open_err : option exn) (cwd : string) (t : node)
    (prior : option string) : result unit * world :=
  script open_err cwd (iter_of_list (walk posixpath.join base_dir t))
         (initial prior).

End Generator.

(** ** Paths into the tree, and the file operations of the renamer *)

(** The renamer only builds paths with [os.path.join(root, file)] and
    [os.path.dirname(src)] and hands them to the file system, so a path is
    kept as the list of names that lead from [base_dir] to the entry. *)
Definition path : Type := list string.

(** [os.path.join(p, x)] on such a path. *)
Definition snoc (p : path) (x : string) : path := p ++ [x].

Module Fs.

Fixpoint assoc (x : string) (es : list (string * node)) : option node :=
  match es with
  | [] => None
  | (y, n) :: es' => if String.eqb y x then Some n else assoc x es'
  end.

Fixpoint lookup (t : node) (p : path) : option node :=
  match p with
  | [] => Some t
  | x :: p' =>
      match t with
      | Dir es => n ← assoc x es; lookup n p'
      | File _ => None
      end
  end.

(** Rewrite the listing of the directory at [p]. *)
Fixpoint alter_dir (f : list (string * node) → list (string * node))
    (p : path) (t : node) {struct p} : node :=
  match t with
  | File c => File c
  | Dir es =>
      match p with
      | [] => Dir (f es)
      | x :: p' =>
          Dir (map (λ e, if String.eqb e.1 x
                         then (e.1, alter_dir f p' e.2) else e) es)
      end
  end.

Definition unlink (x : string) (es : list (string * node))
    : list (string * node) :=
  filter (λ e, e.1 ≠ x) es.

Definition link (x : string) (n : node) (es : list (string * node))
    : list (string * node) :=
  match assoc x es with
  | Some _ => map (λ e, if String.eqb e.1 x then (x, n) else e) es
  | None => es ++ [(x, n)]
  end.

Definition dirname (p : path) : path := removelast p.

(** Take the entry at [p] out of the tree / put [n] at [p]. *)
Definition remove (p : path) (t : node) : node :=
  match last p with
  | Some x => alter_dir (unlink x) (dirname p) t
  | None => t
  end.
Definition put (p : path) (n : node) (t : node) : node :=
  match last p with
  | Some x => alter_dir (link x n) (dirname p) t
  | None => t
  end.

Definition exists_ (t : node) (p : path) : bool :=
  bool_decide (is_Some (lookup t p)).
Definition isdir (t : node) (p : path) : bool :=
  match lookup t p with Some (Dir _) => true | _ => false end.

End Fs.

(** Every name of the tree is one a directory entry can have. *)
Definition valid_name (x : string) : bool :=
  negb (String.eqb x "") && negb (String.eqb x ".")
  && negb (String.eqb x "..") && negb (Py.contains x "/").

Fixpoint names_valid (t : node) : bool :=
  match t with
  | File _ => true
  | Dir es =>
      (fix all (l : list (string * node)) : bool :=
         match l with
         | [] => true
         | (x, n) :: l' => valid_name x && names_valid n && all l'
         end) es
  end.

(** No directory lists a name twice. *)
Fixpoint names_unique (t : node) : bool :=
  match t with
  | File _ => true
  | Dir es =>
      bool_decide (NoDup es.*1)
      && (fix all (l : list (string * node)) : bool :=
            match l with
            | [] => true
            | (_, n) :: l' => names_unique n && all l'
            end) es
  end.

(** ** [rename_indexes.py] *)

Module Renamer.

Definition base_dir : string :=
  "/Users/jaakkorajala/Projects/hippos_kotisivut/hippos-portal/app/routes".

Definition old_ref : string :=
  Eval cbv in "from " +:+ Generator.dq +:+ "./+types/_index" +:+ Generator.dq.
Definition new_ref : string :=
  Eval cbv in "from " +:+ Generator.dq +:+ "./+types/index" +:+ Generator.dq.

(** What a run does to the outside, in order. *)
Inductive event : Type :=
| Renamed (src dst : path)
| Read (p : path)
| Written (p : path) (content : string)
| Printed (line : string).

Record world : Type := World {
  fs : node;
  trace : list event
}.

Definition emit (e : event) : Prog world unit :=
  modify (λ w, World (fs w) (trace w ++ [e])).

(** [print(line)]; standard output takes every line. *)
Definition print (line : string) : Prog world unit := emit (Printed line).

(** The path as the script prints it. *)
Definition path_str (p : path) : string := fold_left posixpath.join p base_dir.

(** [os.rename(src, dst)] *)
Definition os_rename (src dst : path) : Prog world unit := λ w,
  match Fs.lookup (fs w) src with
  | None => (Raise FileNotFoundError, w)
  | Some n =>
      if bool_decide (src = dst) then (Ok (), w)
      else
        match Fs.lookup (fs w) (Fs.dirname dst), last dst with
        | Some (Dir _), Some _ =>
            match n, Fs.lookup (fs w) dst with
            | File _, Some (Dir _) => (Raise IsADirectoryError, w)
            | Dir _, Some (File _) => (Raise NotADirectoryError, w)
            | Dir _, Some (Dir (_ :: _)) => (Raise OSError, w)
            | _, _ =>
                if bool_decide (src `prefix_of` dst) then (Raise OSError, w)
                else (Ok (), World (Fs.put dst n (Fs.remove src (fs w)))
                                   (trace w ++ [Renamed src dst]))
            end
        | Some (File _), Some _ => (Raise NotADirectoryError, w)
        | _, _ => (Raise FileNotFoundError, w)
        end
  end.

(** [shutil.move(src, dst)].  Its fallback that copies when the rename
    crosses devices is left out: the tree is one device, and where the
    rename fails here the copy fails likewise. *)
Definition shutil_move (src dst : path) : Prog world unit :=
  w ← get;
  if Fs.isdir (fs w) dst then
    if bool_decide (src = dst) then os_rename src dst
    else
      match last src with
      | Some name =>
          let real_dst := dst ++ [name] in
          if Fs.exists_ (fs w) real_dst then raise ShutilError
          else os_rename src real_dst
      | None => raise OSError
      end
  else os_rename src dst.

(** [with open(p, 'r') as f: content = f.read()].  A file holds bytes.
    Reading in text mode decodes them, which fails on bytes that are no
    text, and gives every line end as a line feed. *)
Definition read_text (p : path) : Prog world string := λ w,
  match Fs.lookup (fs w) p with
  | Some (File c) =>
      let w' := World (fs w) (trace w ++ [Read p]) in
      if Py.utf8_valid c then (Ok (Py.universal_newlines c), w')
      else (Raise UnicodeDecodeError, w')
  | Some (Dir _) => (Raise IsADirectoryError, w)
  | None => (Raise FileNotFoundError, w)
  end.

(** [with open(p, 'w') as f: f.write(content)].  Opening empties the file;
    a text that cannot be encoded leaves it empty.  A line feed is written
    as it is. *)
Definition write_text (p : path) (content : string) : Prog world unit := λ w,
  match Fs.lookup (fs w) p with
  | Some (Dir _) => (Raise IsADirectoryError, w)
  | _ =>
      match Fs.lookup (fs w) (Fs.dirname p), last p with
      | Some (Dir _), Some _ =>
          if Py.utf8_valid content
          then (Ok (), World (Fs.put p (File content) (fs w))
                             (trace w ++ [Written p content]))
          else (Raise UnicodeEncodeError,
                World (Fs.put p (File "") (fs w))
                      (trace w ++ [Written p ""]))
      | Some (File _), Some _ => (Raise NotADirectoryError, w)
      | _, _ => (Raise FileNotFoundError, w)
      end
  end.

Definition find_files (t : node) : list path :=
  fold_left
    (λ matches '(root, dirs, files),
       fold_left
         (λ matches file,
            if String.eqb file "_index.tsx" then matches ++ [snoc root file]
            else matches)
         files matches)
    (walk snoc [] t) [].

(** The body of the loop over the matches. *)
Definition process (src : path) : Prog world unit :=
  let dst := Fs.dirname src ++ ["index.tsx"] in
  print ("Renaming " +:+ path_str src +:+ " -> " +:+ path_str dst) ;;
  shutil_move src dst ;;
  content ← read_text dst;
  let new_content := Py.replace content old_ref new_ref in
  if bool_decide (content ≠ new_content)
  then write_text dst new_content ;; print "Updated imports."
  else mret ().

Definition script : Prog world unit :=
  w ← get;
  let files := find_files (fs w) in
  print ("Found " +:+ pretty (length files) +:+ " _index.tsx files.") ;;
  for_each files process.

(** A run over the tree [t] that [base_dir] holds. *)
Definition main (t : node) : result unit * world := script (World t []).

End Renamer.

(** ** Notions used to state the properties *)

Definition valid (x : string) : Prop := valid_name x.

(** [x] holds no [sep]. *)
Definition sep_free (sep : ascii) (x : string) : Prop :=
  Py.contains x (String sep "") = false.

(** The absolute, normalised path with the components [cs]: the form of what
    [os.getcwd()] returns. *)
Definition root_path (cs : list string) : string := "/" +:+ Py.join "/" cs.

(** The plain files below [t], each once, as the names of the directories
    that lead to it and its own name. *)
Fixpoint files_under (t : node) : list (path * string) :=
  match t with
  | File _ => []
  | Dir es =>
      (fix under (l : list (string * node)) : list (path * string) :=
         match l with
         | [] => []
         | (x, n) :: l' =>
             match n with
             | File _ => [([], x)]
             | Dir _ => (λ df, (x :: df.1, df.2)) <$> files_under n
             end ++ under l'
         end) es
  end.

(** The files in the order a walk meets them: [root] is the list of names
    that leads to the directory. *)
Definition items_files {P} (items : list (P * list string * list string))
    : list (P * string) :=
  item ← items; (λ file, (item.1.1, file)) <$> item.2.
Definition walk_files (top : path) (t : node) : list (path * string) :=
  items_files (walk snoc top t).

(** The route derivation in the words of the specification, on the names
    [dirs] of the directories below the root and the name [file]. *)
Module Spec.

Definition index_like (file : string) : bool :=
  bool_decide (file ∈ ["_index.tsx"; "index.tsx"; "route.tsx"]).

Definition qualifies (file : string) : bool := Py.endswith file ".tsx".

(** Step 3: an index-like name is dropped, any other loses its extension. *)
Definition segments (dirs : path) (file : string) : list string :=
  if index_like file then dirs
  else dirs ++ [Py.slice_to_neg 4 file].

(** Step 4: a leading sigil becomes a colon. *)
Definition param (seg : string) : string :=
  match seg with
  | String "$" rest => String ":" rest
  | _ => seg
  end.

(** Step 5 *)
Definition url_path (dirs : path) (file : string) : string :=
  Py.join "/" (param <$> segments dirs file).

(** The path relative to the parent of the root directory. *)
Definition import_path (dirs : path) (file : string) : string :=
  Py.join "/" ("routes" :: dirs ++ [file]).

(** Step 6 *)
Definition line (dirs : path) (file : string) : string :=
  if bool_decide (url_path dirs file = "")
  then Generator.index_line (import_path dirs file)
  else Generator.route_form (url_path dirs file) (import_path dirs file).

End Spec.

(** The lines of the qualifying files among [fs], in the order of [fs]. *)
Definition lines_of (fs : list (path * string)) : list string :=
  (λ df, Spec.line df.1 df.2) <$> filter (λ df, Spec.qualifies df.2) fs.

(** The world after the lines [ls] were appended to [routes]. *)
Definition add_routes (ls : list string) (w : Generator.world) : Generator.world :=
  Generator.World (Generator.routes w ++ ls) (Generator.out w)
                  (Generator.stdout w).

(** The string [os.walk] yields for the directory reached by [dirs]. *)
Definition root_str (dirs : path) : string :=
  Py.join "/" ("app" :: "routes" :: dirs).

(** A triple of the walk, with its directory as the string [os.walk] yields. *)
Definition to_str (item : path * list string * list string)
    : string * list string * list string :=
  (root_str item.1.1, item.1.2, item.2).

(** The line the generator prints for [n] routes. *)
Definition generated_line (n : nat) : string :=
  "Generated " +:+ Generator.output_file +:+ " with " +:+ pretty n
    +:+ " routes.".

(** How a run of the generator ends once its loops have left [w]: where the
    file cannot be opened it is left alone; where the text cannot be encoded
    the file is left empty; else the file holds the text, and the line is
    printed. *)
Definition finish (open_err : option exn) (w : Generator.world)
    : result unit * Generator.world :=
  let sorted := merge_sort String.le (Generator.routes w) in
  let content := Generator.content_of sorted in
  match open_err with
  | Some e =>
      (Raise e, Generator.World sorted (Generator.out w) (Generator.stdout w))
  | None =>
      if Py.utf8_valid content
      then (Ok (), Generator.World sorted (Some content)
                     (Generator.stdout w ++ [generated_line (length sorted)]))
      else (Raise UnicodeEncodeError,
            Generator.World sorted (Some "") (Generator.stdout w))
  end.

(** The iteration [it] ends in an exception. *)
Fixpoint walk_fails {P} (it : walk_iter P) : bool :=
  match it with
  | WStop => false
  | WYield _ rest => walk_fails rest
  | WRaise _ => true
  end.

(** Where the renamer moves the match [src]. *)
Definition dst_of (src : path) : path := Fs.dirname src ++ ["index.tsx"].

(** The line the renamer prints before it moves [src]. *)
Definition renaming_line (src : path) : Renamer.event :=
  Renamer.Printed ("Renaming " +:+ Renamer.path_str src +:+ " -> "
                   +:+ Renamer.path_str (dst_of src)).

(** A listing with distinct names, above trees with distinct names. *)
Definition unique_entries (es : list (string * node)) : Prop :=
  NoDup es.*1 ∧ Forall (λ e, names_unique e.2) es.

(** The paths an event is about. *)
Definition event_paths (e : Renamer.event) : list path :=
  match e with
  | Renamer.Renamed src dst => [src; dst]
  | Renamer.Read p => [p]
  | Renamer.Written p _ => [p]
  | Renamer.Printed _ => []
  end.

(** What the tree holds at [p]: nothing, a directory, or a file with its
    content. *)
Definition stat (t : node) (p : path) : option (option string) :=
  match Fs.lookup t p with
  | None => None
  | Some (Dir _) => Some None
  | Some (File c) => Some (Some c)
  end.

(** [src] is a plain file, and nothing stands in the way of renaming it to
    [dst]. *)
Definition can_rename_file (t : node) (src dst : path) : Prop :=
  (∃ c, stat t src = Some (Some c))
  ∧ dst ≠ [] ∧ stat t (Fs.dirname dst) = Some None
  ∧ stat t dst ≠ Some None ∧ ¬ src `prefix_of` dst.

(** Recursion over a tree and the listings inside it. *)
Fixpoint node_rect' (P : node → Type) (Q : list (string * node) → Type)
    (HFile : ∀ c, P (File c)) (HDir : ∀ es, Q es → P (Dir es))
    (Hnil : Q []) (Hcons : ∀ x n es, P n → Q es → Q ((x, n) :: es))
    (t : node) : P t :=
  match t with
  | File c => HFile c
  | Dir es =>
      HDir es ((fix go (l : list (string * node)) : Q l :=
                  match l with
                  | [] => Hnil
                  | (x, n) :: l' =>
                      Hcons x n l' (node_rect' P Q HFile HDir Hnil Hcons n) (go l')
                  end) es)
  end.

(** Settle a decidable closed proposition by evaluation. *)
Ltac by_decide :=
  lazymatch goal with
  | |- ?P => apply (bool_decide_unpack P); vm_compute; exact I
  end.

#[local] Instance valid_dec x : Decision (valid x).
Proof. unfold valid. apply _. Defined.

(** The file names an iteration of the walk yields, in order. *)
Fixpoint iter_files {P} (it : walk_iter P) : list string :=
  match it with
  | WStop => []
  | WYield item rest => item.2 ++ iter_files rest
  | WRaise _ => []
  end.

(** The first line of the manifest. *)
Definition import_line : string :=
  "import { type RouteConfig, index, route } from " +:+ Generator.dq
    +:+ "@react-router/dev/routes" +:+ Generator.dq +:+ ";".

(** What a file that held [c] holds after a round that succeeded: where
    the old import reference occurs, the text that was read with the new
    reference in its place; else what it held. *)
Definition updated (c : string) : string :=
  if Py.contains c Renamer.old_ref
  then Py.replace (Py.universal_newlines c) Renamer.old_ref Renamer.new_ref
  else c.

(** What a round that succeeds does to the outside, for the match [src]
    with the content [c]. *)
Definition round_events (src : path) (c : string) : list Renamer.event :=
  [renaming_line src; Renamer.Renamed src (dst_of src);
   Renamer.Read (dst_of src)]
  ++ (if Py.contains c Renamer.old_ref
      then [Renamer.Written (dst_of src) (updated c);
            Renamer.Printed "Updated imports."]
      else []).

(** The events of the round for [m], a plain file of the tree [t]. *)
Definition match_events (t : node) (m : path) : list Renamer.event :=
  match Fs.lookup t m with
  | Some (File c) => round_events m c
  | _ => []
  end.

(** ** Sample inputs *)

(** A page with the old import reference, and the same page after the
    renamer. *)
Definition sample_page : string :=
  "import type { Route } " +:+ Renamer.old_ref +:+ ";".
Definition sample_page_updated : string :=
  "import type { Route } " +:+ Renamer.new_ref +:+ ";".

(** The page as an editor that ends lines with a carriage return and a line
    feed stores it, and what the renamer leaves of it. *)
Definition sample_page_crlf : string :=
  "// home" +:+ String "013" (String "010" "") +:+ sample_page.
Definition sample_page_crlf_updated : string :=
  "// home" +:+ String "010" "" +:+ sample_page_updated.
Definition sample_crlf : node := Dir [("_index.tsx", File sample_page_crlf)].

(** A page that is no text. *)
Definition sample_binary : node :=
  Dir [("_index.tsx", File (String "255" (String "254" "")))].

Definition sample_routes : node :=
  Dir [("_index.tsx", File sample_page);
       ("about.tsx", File "about");
       ("events", Dir [("_index.tsx", File "events");
                       ("$id.tsx", File "event")])].

(** A directory where the destination of the rename is taken. *)
Definition sample_clash : node :=
  Dir [("_index.tsx", File "new page"); ("index.tsx", File "old page")].


Definition sample_cwd : list string := ["home"; "dev"; "portal"].

(** A page whose name holds a byte that is no UTF-8. *)
Definition sample_bad_name : node :=
  Dir [(String "255" ".tsx", File "page")].

Definition sample_tree : node :=
  Dir [("_index.tsx", File "home");
       ("events", Dir [("$id.tsx", File "event");
                       ("index.tsx", File "events");
                       ("notes.md", File "notes")]);
       ("about.tsx", File "about")].

(** The same files as [sample_tree], listed in another order. *)
Definition sample_tree_reordered : node :=
  Dir [("about.tsx", File "about");
       ("events", Dir [("notes.md", File "notes");
                       ("index.tsx", File "events");
                       ("$id.tsx", File "event")]);
       ("_index.tsx", File "home")].

(** An iteration of the walk that an exception cuts short. *)
Definition sample_failing_walk : walk_iter string :=
  WYield ("app/routes", ["events"], ["_index.tsx"; "about.tsx"]) (WRaise OSError).

(** * Properties *)

(** ** Strings *)

Section strings.
Implicit Types (s t u x : string) (c sep : ascii) (l : list string).

Lemma str_app_nil_l s : "" +:+ s = s.
Proof. reflexivity. Qed.

Lemma str_app_cons c s t : String c s +:+ t = String c (s +:+ t).
Proof. reflexivity. Qed.

Lemma str_app_nil_r s : s +:+ "" = s.
Proof. induction s as [|c s IH]; [done|]. by rewrite str_app_cons, IH. Qed.

Lemma str_app_assoc s t u : (s +:+ t) +:+ u = s +:+ (t +:+ u).
Proof. induction s as [|c s IH]; [done|]. by rewrite !str_app_cons, IH. Qed.

Lemma str_length_app s t :
  String.length (s +:+ t) = String.length s + String.length t.
Proof. induction s as [|c s IH]; [done|]. rewrite str_app_cons. simpl. lia. Qed.

Lemma str_eqb_decide s t : String.eqb s t = bool_decide (s = t).
Proof.
  destruct (String.eqb_spec s t); symmetry;
    [by apply bool_decide_eq_true|by apply bool_decide_eq_false].
Qed.

Lemma prefix_cons c c' s t :
  String.prefix (String c s) (String c' t)
  = if ascii_dec c c' then String.prefix s t else false.
Proof. reflexivity. Qed.

Lemma prefix_app s t : String.prefix s (s +:+ t) = true.
Proof.
  induction s as [|c s IH]; [by destruct t|].
  rewrite str_app_cons. simpl. by destruct (ascii_dec c c).
Qed.

Lemma prefix_inv s t : String.prefix s t = true → ∃ u, t = s +:+ u.
Proof.
  revert t. induction s as [|c s IH]; intros t H; [by exists t|].
  destruct t as [|c' t]; [done|]. simpl in H.
  destruct (ascii_dec c c') as [->|]; [|done].
  destruct (IH _ H) as [u ->]. by exists u.
Qed.

(** *** [endswith] and the slice that drops a suffix *)

Lemma endswith_unfold s suf :
  Py.endswith s suf =
    if String.eqb s suf then true
    else match s with
         | EmptyString => false
         | String _ s' => Py.endswith s' suf
         end.
Proof. by destruct s. Qed.

Lemma endswith_app s suf : Py.endswith (s +:+ suf) suf = true.
Proof.
  induction s as [|c s IH].
  - rewrite str_app_nil_l, endswith_unfold. by rewrite String.eqb_refl.
  - rewrite str_app_cons, endswith_unfold, IH. by destruct (String.eqb _ _).
Qed.

Lemma endswith_inv s suf : Py.endswith s suf = true → ∃ u, s = u +:+ suf.
Proof.
  induction s as [|c s IH]; rewrite endswith_unfold.
  - destruct (String.eqb_spec "" suf) as [<-|]; [by exists ""|done].
  - destruct (String.eqb_spec (String c s) suf) as [<-|]; [by exists ""|].
    intros [u ->]%IH. by exists (String c u).
Qed.

Lemma substring_app s t : String.substring 0 (String.length s) (s +:+ t) = s.
Proof.
  induction s as [|c s IH]; [by destruct t|].
  rewrite str_app_cons. simpl. by rewrite IH.
Qed.

Lemma slice_to_neg_app s suf :
  Py.slice_to_neg (String.length suf) (s +:+ suf) = s.
Proof.
  unfold Py.slice_to_neg. rewrite str_length_app.
  replace (String.length s + String.length suf - String.length suf)
    with (String.length s) by lia.
  apply substring_app.
Qed.

(** *** [split] and [join] *)

Lemma sep_free_cons sep c x :
  sep_free sep (String c x) ↔ c ≠ sep ∧ sep_free sep x.
Proof.
  unfold sep_free. simpl. destruct (ascii_dec sep c) as [->|Hne].
  - destruct x; split; (done || by intros [??]).
  - split; [intros; split; [congruence|done]|by intros [??]].
Qed.

Lemma split_not_nil s sep : Py.split s sep ≠ [].
Proof.
  destruct s as [|c s]; simpl; [done|].
  destruct (Ascii.eqb c sep); [done|]. by destruct (Py.split s sep).
Qed.

Lemma split_sep_free sep x : sep_free sep x → Py.split x sep = [x].
Proof.
  induction x as [|c x IH]; [done|].
  intros [Hc Hx]%sep_free_cons. simpl.
  destruct (Ascii.eqb_spec c sep); [done|]. by rewrite IH.
Qed.

Lemma split_app_sep sep s t :
  Py.split (s +:+ String sep t) sep = Py.split s sep ++ Py.split t sep.
Proof.
  induction s as [|c s IH].
  - rewrite str_app_nil_l. simpl. by rewrite Ascii.eqb_refl.
  - rewrite str_app_cons. simpl. rewrite IH.
    destruct (Ascii.eqb c sep); [done|].
    pose proof (split_not_nil s sep). by destruct (Py.split s sep).
Qed.

Lemma join_cons_cons (j : string) x y l :
  Py.join j (x :: y :: l) = x +:+ j +:+ Py.join j (y :: l).
Proof. reflexivity. Qed.

Lemma join_snoc (j : string) l x :
  l ≠ [] → Py.join j (l ++ [x]) = Py.join j l +:+ j +:+ x.
Proof.
  induction l as [|y [|z l] IH]; intros ?; [done|done|].
  change ((y :: z :: l) ++ [x]) with (y :: z :: (l ++ [x])).
  rewrite !join_cons_cons. change (z :: l ++ [x]) with ((z :: l) ++ [x]).
  rewrite IH by done. by rewrite !str_app_assoc.
Qed.

Lemma split_join sep l :
  l ≠ [] → Forall (sep_free sep) l →
  Py.split (Py.join (String sep "") l) sep = l.
Proof.
  induction l as [|x [|y l] IH]; intros Hne Hl; [done|..].
  - apply split_sep_free. by inversion Hl.
  - rewrite join_cons_cons. change (String sep "" +:+ ?t) with (String sep t).
    rewrite split_app_sep. inversion_clear Hl.
    rewrite IH by done. by rewrite split_sep_free.
Qed.
End strings.

(** ** Paths *)

Section paths.
Implicit Types (s t x : string) (l cs ps : list string).

Lemma valid_name_spec x :
  valid x → x ≠ "" ∧ x ≠ "." ∧ x ≠ ".." ∧ sep_free "/" x.
Proof.
  unfold valid, valid_name, sep_free. rewrite !andb_True, !negb_True.
  intros [[[H1 H2] H3] H4]. repeat split.
  - intros ->. by apply H1.
  - intros ->. by apply H2.
  - intros ->. by apply H3.
  - by destruct (Py.contains x "/").
Qed.

Lemma Forall_valid_sep_free l : Forall valid l → Forall (sep_free "/") l.
Proof. intros H. eapply Forall_impl; [done|]. intros x Hx. by apply valid_name_spec. Qed.

Lemma startswith_sep_free x : sep_free "/" x → Py.startswith x "/" = false.
Proof.
  destruct x as [|c x]; [done|]. intros [Hc _]%sep_free_cons.
  unfold Py.startswith. rewrite prefix_cons.
  destruct (ascii_dec "/" c); [congruence|done].
Qed.

Lemma startswith_app x t :
  x ≠ "" → Py.startswith (x +:+ t) "/" = Py.startswith x "/".
Proof.
  destruct x as [|c x]; [done|]. intros _.
  unfold Py.startswith. rewrite str_app_cons, !prefix_cons.
  destruct (ascii_dec "/" c); [|done]. by destruct x, t.
Qed.

Lemma endswith_sep_free x : sep_free "/" x → Py.endswith x "/" = false.
Proof.
  induction x as [|c x IH]; [done|]. intros [Hc Hx]%sep_free_cons.
  rewrite endswith_unfold, IH by done.
  destruct (String.eqb_spec (String c x) "/"); [congruence|done].
Qed.

Lemma endswith_app_ne s x :
  x ≠ "" → Py.endswith (s +:+ x) "/" = Py.endswith x "/".
Proof.
  intros Hx. induction s as [|c s IH]; [done|].
  rewrite str_app_cons, endswith_unfold, IH.
  destruct (String.eqb_spec (String c (s +:+ x)) "/") as [Heq|]; [|done].
  injection Heq as _ Heq. destruct s; [done|by rewrite str_app_cons in Heq].
Qed.

Lemma join_app (j : string) l1 l2 :
  l1 ≠ [] → l2 ≠ [] →
  Py.join j (l1 ++ l2) = Py.join j l1 +:+ j +:+ Py.join j l2.
Proof.
  intros H1 H2. induction l1 as [|x [|y l1] IH]; [done|..].
  - destruct l2; [done|]. done.
  - change ((x :: y :: l1) ++ l2) with (x :: y :: l1 ++ l2).
    rewrite !join_cons_cons. change (y :: l1 ++ l2) with ((y :: l1) ++ l2).
    rewrite IH by done. by rewrite !str_app_assoc.
Qed.

Lemma join_valid_ne ps : ps ≠ [] → Forall valid ps → Py.join "/" ps ≠ "".
Proof.
  destruct ps as [|x [|y ps]]; intros ? Hps; [done|..];
    inversion_clear Hps as [|?? Hx _];
    apply valid_name_spec in Hx as (Hx & _); [done|].
  rewrite join_cons_cons. by destruct x.
Qed.

Lemma join_valid_startswith ps :
  Forall valid ps → Py.startswith (Py.join "/" ps) "/" = false.
Proof.
  destruct ps as [|x [|y ps]]; intros Hps; [done|..];
    inversion_clear Hps as [|?? Hx _];
    apply valid_name_spec in Hx as (Hx & _ & _ & Hfree).
  - by apply startswith_sep_free.
  - rewrite join_cons_cons, startswith_app by done.
    by apply startswith_sep_free.
Qed.

Lemma join_valid_endswith ps :
  Forall valid ps → Py.endswith (Py.join "/" ps) "/" = false.
Proof.
  destruct ps as [|x ps _] using rev_ind; [done|].
  intros [Hps Hx]%Forall_app. rewrite Forall_singleton in Hx.
  apply valid_name_spec in Hx as (Hx & _ & _ & Hfree).
  destruct ps as [|y ps].
  - by apply endswith_sep_free.
  - rewrite join_snoc, <-str_app_assoc, endswith_app_ne by done.
    by apply endswith_sep_free.
Qed.

(** [os.path.join] below a path of valid names adds one component. *)
Lemma path_join_snoc ps x :
  ps ≠ [] → Forall valid ps → valid x →
  posixpath.join (Py.join "/" ps) x = Py.join "/" (ps ++ [x]).
Proof.
  intros Hne Hps Hx. unfold posixpath.join.
  apply valid_name_spec in Hx as (_ & _ & _ & Hfree).
  rewrite startswith_sep_free, join_valid_endswith by done.
  destruct (String.eqb_spec (Py.join "/" ps) "") as [Heq|_].
  - by apply join_valid_ne in Heq.
  - simpl. by rewrite join_snoc.
Qed.

(** *** [normpath], [abspath] and [relpath] on clean paths *)

Lemma norm_step_valid abs acc x :
  valid x → posixpath.norm_step abs acc x = acc ++ [x].
Proof.
  intros (H1 & H2 & H3 & _)%valid_name_spec. unfold posixpath.norm_step.
  apply String.eqb_neq in H1, H2, H3. by rewrite H1, H2, H3.
Qed.

Lemma norm_fold_valid abs acc l :
  Forall valid l → fold_left (posixpath.norm_step abs) l acc = acc ++ l.
Proof.
  intros Hl. revert acc. induction Hl as [|x l Hx _ IH]; intros acc; simpl.
  - by rewrite app_nil_r.
  - by rewrite norm_step_valid, IH, <-app_assoc.
Qed.

Lemma split_root_path l :
  Forall valid l →
  Py.split (root_path l) "/" = "" :: (if l is [] then [""] else l).
Proof.
  intros Hl. unfold root_path.
  change ("/" +:+ ?t) with ("" +:+ String "/" t).
  rewrite split_app_sep. simpl. f_equal. destruct l as [|x l]; [done|].
  apply (split_join "/"); [done|by apply Forall_valid_sep_free].
Qed.

Lemma normpath_root_path l :
  Forall valid l → posixpath.normpath (root_path l) = root_path l.
Proof.
  intros Hl. unfold posixpath.normpath.
  rewrite split_root_path by done.
  assert (Py.startswith (root_path l) "//" = false) as ->.
  { unfold root_path, Py.startswith.
    change ("/" +:+ ?t) with (String "/" t). rewrite prefix_cons.
    destruct (ascii_dec "/" "/"); [|done].
    apply (join_valid_startswith l Hl). }
  change (String.eqb (root_path l) "") with false.
  assert (Py.startswith (root_path l) "/" = true) as ->.
  { unfold root_path, Py.startswith.
    change ("/" +:+ ?t) with (String "/" t). rewrite prefix_cons.
    destruct (ascii_dec "/" "/"); [|done]. by destruct (Py.join "/" l). }
  simpl. change (posixpath.norm_step true [] "") with (@nil string).
  assert (fold_left (posixpath.norm_step true) (if l is [] then [""] else l) [] = l)
    as ->; [|done].
  destruct l as [|x l]; [done|]. by rewrite norm_fold_valid.
Qed.

Lemma join_root_path cs ps :
  Forall valid cs → Forall valid ps → ps ≠ [] →
  posixpath.join (root_path cs) (Py.join "/" ps) = root_path (cs ++ ps).
Proof.
  intros Hcs Hps Hne. unfold posixpath.join.
  rewrite join_valid_startswith by done.
  change (String.eqb (root_path cs) "") with false. rewrite orb_false_l.
  destruct cs as [|c cs]; [done|].
  unfold root_path at 1.
  rewrite endswith_app_ne by by apply join_valid_ne.
  rewrite join_valid_endswith by done.
  unfold root_path. by rewrite join_app, !str_app_assoc.
Qed.

Lemma abspath_clean cs ps :
  Forall valid cs → Forall valid ps → ps ≠ [] →
  posixpath.abspath (root_path cs) (Py.join "/" ps) = root_path (cs ++ ps).
Proof.
  intros. unfold posixpath.abspath.
  rewrite join_root_path, normpath_root_path; [done| |done..].
  by apply Forall_app.
Qed.

Lemma components_root_path l :
  Forall valid l →
  filter (λ x, negb (String.eqb x "")) (Py.split (root_path l) "/") = l.
Proof.
  intros Hl. rewrite split_root_path by done.
  rewrite filter_cons_False by (simpl; tauto).
  destruct l as [|x l]; [done|].
  induction Hl as [|y l' Hy _ IH]; [done|].
  apply valid_name_spec in Hy as (Hy%String.eqb_neq & _).
  rewrite filter_cons_True by (by rewrite Hy). by rewrite IH.
Qed.

Lemma commonprefix_app l1 l2 : posixpath.commonprefix l1 (l1 ++ l2) = l1.
Proof.
  induction l1 as [|x l1 IH]; [by destruct l2|].
  simpl. by rewrite String.eqb_refl, IH.
Qed.

(** The path of an entry below [start], relative to [start], is the names
    that lead from [start] to it. *)
Lemma relpath_below cs ss segs :
  Forall valid cs → Forall valid ss → Forall valid segs →
  ss ≠ [] → segs ≠ [] →
  posixpath.relpath (root_path cs) (Py.join "/" (ss ++ segs)) (Py.join "/" ss)
  = Py.join "/" segs.
Proof.
  intros Hcs Hss Hsegs Hne1 Hne2. unfold posixpath.relpath.
  rewrite !abspath_clean; [|done|by apply Forall_app|by destruct ss|done..].
  rewrite !components_root_path by (by rewrite ?Forall_app).
  rewrite (assoc_L _ cs ss segs), commonprefix_app, Nat.sub_diag, drop_app_length.
  by destruct segs.
Qed.
End paths.

(** ** Trees and walks *)

Lemma node_ind' (P : node → Prop) :
  (∀ c, P (File c)) →
  (∀ es, Forall (λ e, P e.2) es → P (Dir es)) →
  ∀ t, P t.
Proof.
  intros HFile HDir.
  apply (node_rect' P (Forall (λ e, P e.2))); [done|done|constructor|].
  intros. by constructor.
Qed.

Section walks.
Context {P : Type} (join : P → string → P).

Lemma walk_Dir top es :
  walk join top (Dir es)
  = (top, dirnames es, filenames es)
      :: (es ≫= λ e, walk join (join top e.1) e.2).
Proof.
  simpl. f_equal. induction es as [|[x n] es IH]; [done|].
  by rewrite bind_cons, <-IH.
Qed.
End walks.

Lemma files_under_Dir es :
  files_under (Dir es)
  = es ≫= λ e, match e.2 with
               | File _ => [([], e.1)]
               | Dir _ => (λ df, (e.1 :: df.1, df.2)) <$> files_under e.2
               end.
Proof.
  simpl. induction es as [|[x n] es IH]; [done|]. by rewrite bind_cons, <-IH.
Qed.

Lemma names_valid_Dir es :
  names_valid (Dir es) ↔ Forall (λ e, valid e.1 ∧ names_valid e.2) es.
Proof.
  simpl. induction es as [|[x n] es IH]; [by split; [constructor|]|].
  rewrite Forall_cons, !andb_True, IH. unfold valid. simpl. tauto.
Qed.

Lemma names_unique_Dir es :
  names_unique (Dir es) ↔ NoDup es.*1 ∧ Forall (λ e, names_unique e.2) es.
Proof.
  simpl. rewrite andb_True, bool_decide_spec.
  apply and_iff_compat_l.
  induction es as [|[x n] es IH]; [by split; [constructor|]|].
  rewrite Forall_cons, !andb_True, IH. tauto.
Qed.

Lemma walk_files_Dir top es :
  walk_files top (Dir es)
  = ((λ file, (top, file)) <$> filenames es)
      ++ (es ≫= λ e, walk_files (top ++ [e.1]) e.2).
Proof.
  unfold walk_files, items_files. rewrite walk_Dir, bind_cons. f_equal.
  induction es as [|e es IH]; [done|]. by rewrite !bind_cons, bind_app, IH.
Qed.

Lemma filenames_cons x n es :
  filenames ((x, n) :: es)
  = if is_dir n then filenames es else x :: filenames es.
Proof.
  unfold filenames. destruct n.
  - by rewrite filter_cons_True by done.
  - by rewrite filter_cons_False by (simpl; tauto).
Qed.

(** A walk meets exactly the files below the top directory, each once. *)
Lemma walk_files_under top t :
  walk_files top t ≡ₚ (λ df, (top ++ df.1, df.2)) <$> files_under t.
Proof.
  revert top. induction t as [c|es IH] using node_ind'; intros top; [done|].
  rewrite walk_files_Dir, files_under_Dir.
  induction IH as [|[x n] es Hn _ IHes]; [done|].
  rewrite filenames_cons, !bind_cons, fmap_app. simpl in *.
  destruct n as [c|es']; simpl.
  - rewrite app_nil_r. by rewrite IHes.
  - rewrite <-IHes, Hn, <-list_fmap_compose.
    rewrite (assoc_L (++)), (comm (++) (_ <$> filenames es)), <-(assoc_L (++)).
    f_equiv. apply reflexive_eq, list_fmap_ext. intros _ [d f] _. simpl.
    by rewrite <-(assoc_L (++)).
Qed.

(** ** The script monad *)

Section monad.
Context {W : Type}.

Lemma bind_ok {A B} (m : Prog W A) (f : A → Prog W B) w a w' :
  m w = (Ok a, w') → (m ≫= f) w = f a w'.
Proof. unfold mbind, Prog_bind. by intros ->. Qed.
End monad.

(** ** The route derivation *)

Section derivation.
Implicit Types (dirs : path) (file : string) (cs : list string).

Lemma url_segment_param seg :
  (if Py.startswith seg "$" then ":" +:+ Py.slice_from 1 seg else seg)
  = Spec.param seg.
Proof.
  destruct seg as [|c seg]; [done|].
  unfold Py.startswith. rewrite prefix_cons.
  destruct (ascii_dec "$" c) as [<-|Hc]; [by destruct seg|].
  destruct c as [[] [] [] [] [] [] [] []]; done.
Qed.

Lemma url_segments_fold acc l :
  fold_left (λ url_segments seg,
               if Py.startswith seg "$"
               then url_segments ++ [":" +:+ Py.slice_from 1 seg]
               else url_segments ++ [seg]) l acc
  = acc ++ (Spec.param <$> l).
Proof.
  revert acc. induction l as [|seg l IH]; intros acc; simpl.
  - by rewrite app_nil_r.
  - rewrite <-url_segment_param.
    destruct (Py.startswith seg "$"); by rewrite IH, <-app_assoc.
Qed.

(** The loop over the segments rewrites each one on its own. *)
Lemma url_segments_map l : Generator.url_segments l = Spec.param <$> l.
Proof. apply url_segments_fold. Qed.

Lemma index_like_eqb file :
  String.eqb file "_index.tsx" || String.eqb file "index.tsx"
    || String.eqb file "route.tsx"
  = Spec.index_like file.
Proof.
  unfold Spec.index_like. rewrite !str_eqb_decide.
  destruct (decide (file ∈ ["_index.tsx"; "index.tsx"; "route.tsx"]))
    as [Hin|Hnin].
  - rewrite (bool_decide_eq_true_2 _ Hin).
    rewrite !elem_of_cons, elem_of_nil in Hin.
    by destruct Hin as [->|[->|[->|[]]]].
  - rewrite (bool_decide_eq_false_2 _ Hnin).
    rewrite !not_elem_of_cons in Hnin. destruct Hnin as (?&?&?&_).
    by rewrite !bool_decide_eq_false_2.
Qed.

Lemma route_segments_clean dirs file :
  Forall valid dirs → valid file → Py.endswith file ".tsx" = true →
  Generator.route_segments (Py.join "/" (dirs ++ [file]))
  = Ok (Spec.segments dirs file).
Proof.
  intros Hd Hf He. unfold Generator.route_segments.
  assert (Py.split (Py.join "/" (dirs ++ [file])) "/" = dirs ++ [file])
    as Hsplit.
  { apply (split_join "/"); [by destruct dirs|].
    apply Forall_valid_sep_free. rewrite Forall_app, Forall_singleton. done. }
  assert ((if Py.contains (Py.join "/" (dirs ++ [file])) "/"
           then Py.split (Py.join "/" (dirs ++ [file])) "/"
           else [Py.join "/" (dirs ++ [file])]) = dirs ++ [file]) as ->.
  { destruct (Py.contains _ "/") eqn:Hc; [done|].
    by rewrite <-Hsplit, (split_sep_free "/") by done. }
  unfold Generator.last_item. rewrite last_snoc.
  unfold mbind, result_bind. rewrite index_like_eqb. unfold Spec.segments.
  destruct (Spec.index_like file).
  - by rewrite removelast_last.
  - rewrite He. unfold mret, result_ret. f_equal.
    rewrite length_app, Nat.add_1_r, Nat.pred_succ.
    rewrite insert_app_r_alt, Nat.sub_diag by done. done.
Qed.

Lemma valid_base dirs :
  Forall valid dirs → Forall valid ("app" :: "routes" :: dirs).
Proof. intros. by repeat constructor. Qed.

Lemma full_path_clean dirs file :
  Forall valid dirs → valid file →
  posixpath.join (root_str dirs) file
  = Py.join "/" ("app" :: "routes" :: dirs ++ [file]).
Proof.
  intros. unfold root_str.
  by rewrite path_join_snoc by (done || by apply valid_base).
Qed.

(** [rel_path]: the path of the file relative to [app]. *)
Lemma rel_path_clean cs dirs file :
  Forall valid cs → Forall valid dirs → valid file →
  posixpath.relpath (root_path cs) (posixpath.join (root_str dirs) file) "app"
  = Spec.import_path dirs file.
Proof.
  intros Hcs Hd Hf. rewrite full_path_clean by done.
  apply (relpath_below cs ["app"] ("routes" :: dirs ++ [file])); try done.
  - by repeat constructor.
  - constructor; [done|]. by rewrite Forall_app, Forall_singleton.
Qed.

(** [path_rel]: the path of the file relative to [base_dir]. *)
Lemma path_rel_clean cs dirs file :
  Forall valid cs → Forall valid dirs → valid file →
  posixpath.relpath (root_path cs) (posixpath.join (root_str dirs) file)
                    Generator.base_dir
  = Py.join "/" (dirs ++ [file]).
Proof.
  intros Hcs Hd Hf. rewrite full_path_clean by done.
  apply (relpath_below cs ["app"; "routes"] (dirs ++ [file])); try done.
  - by repeat constructor.
  - by rewrite Forall_app, Forall_singleton.
  - by destruct dirs.
Qed.

Lemma url_path_of_clean cs dirs file :
  Forall valid cs → Forall valid dirs → valid file →
  Py.endswith file ".tsx" = true →
  Generator.url_path_of (root_path cs) (root_str dirs) file
  = Ok (Spec.url_path dirs file).
Proof.
  intros. unfold Generator.url_path_of.
  rewrite path_rel_clean, route_segments_clean by done.
  unfold mbind, result_bind, mret, result_ret.
  by rewrite url_segments_map.
Qed.

Lemma add_routes_nil w : add_routes [] w = w.
Proof. destruct w. unfold add_routes. simpl. by rewrite app_nil_r. Qed.

Lemma add_routes_app l1 l2 w :
  add_routes l2 (add_routes l1 w) = add_routes (l1 ++ l2) w.
Proof. unfold add_routes. simpl. by rewrite app_assoc. Qed.

(** One round of the inner loop appends the line of the file, when the
    file qualifies, and nothing else. *)
Lemma visit_clean cs dirs file w :
  Forall valid cs → Forall valid dirs → valid file →
  Generator.visit (root_path cs) (root_str dirs) file w
  = (Ok (), add_routes (if Spec.qualifies file
                        then [Spec.line dirs file] else []) w).
Proof.
  intros Hcs Hd Hf. unfold Generator.visit, Spec.qualifies.
  destruct (Py.endswith file ".tsx") eqn:He; simpl.
  - rewrite url_path_of_clean, rel_path_clean by done.
    unfold Spec.line. rewrite <-str_eqb_decide.
    unfold mbind, Prog_bind, lift.
    by destruct (String.eqb (Spec.url_path dirs file) "").
  - by rewrite add_routes_nil.
Qed.

Lemma for_each_visit cs dirs files w :
  Forall valid cs → Forall valid dirs → Forall valid files →
  for_each files (Generator.visit (root_path cs) (root_str dirs)) w
  = (Ok (), add_routes (Spec.line dirs <$> filter Spec.qualifies files) w).
Proof.
  intros Hcs Hd Hfs. revert w.
  induction Hfs as [|file files Hf _ IH]; intros w; simpl.
  - by rewrite add_routes_nil.
  - erewrite bind_ok by by apply visit_clean.
    rewrite IH, add_routes_app. do 2 f_equal.
    destruct (Spec.qualifies file) eqn:Hq.
    + by rewrite filter_cons_True by by rewrite Hq.
    + by rewrite filter_cons_False by (rewrite Hq; simpl; tauto).
Qed.
End derivation.

(** ** The walk of the generator *)

Section generator_walk.
Implicit Types (ds : path) (t : node) (cs : list string).

Lemma Forall_valid_snoc ds x : Forall valid ds → valid x → Forall valid (snoc ds x).
Proof. intros. unfold snoc. by rewrite Forall_app, Forall_singleton. Qed.

(** [os.walk] names each directory by the names that lead to it, joined
    below [base_dir]. *)
Lemma walk_string ds t :
  names_valid t → Forall valid ds →
  walk posixpath.join (root_str ds) t = to_str <$> walk snoc ds t.
Proof.
  revert ds. induction t as [c|es IH] using node_ind'; intros ds Ht Hds; [done|].
  rewrite !walk_Dir, fmap_cons. f_equal.
  apply names_valid_Dir in Ht.
  induction IH as [|[x n] es Hn _ IHes]; [done|].
  apply Forall_cons in Ht as [[Hx Hvn] Ht].
  rewrite !bind_cons, fmap_app, <-IHes by done. f_equal. simpl in *.
  rewrite <-Hn; [|done|by apply Forall_valid_snoc].
  f_equal. unfold root_str, snoc.
  by rewrite path_join_snoc by (done || by apply valid_base).
Qed.

Lemma filenames_valid es :
  Forall (λ e, valid e.1 ∧ names_valid e.2) es → Forall valid (filenames es).
Proof.
  induction 1 as [|[x n] es [Hx _] _ IH]; [done|].
  rewrite filenames_cons. destruct (is_dir n); [done|by constructor].
Qed.

Lemma walk_valid ds t :
  names_valid t → Forall valid ds →
  Forall (λ item, Forall valid item.1.1 ∧ Forall valid item.2)
         (walk snoc ds t).
Proof.
  revert ds. induction t as [c|es IH] using node_ind'; intros ds Ht Hds.
  { constructor. }
  rewrite walk_Dir. apply names_valid_Dir in Ht. constructor.
  { split; [done|by apply filenames_valid]. }
  apply Forall_bind.
  induction IH as [|[x n] es Hn _ IHes]; [done|].
  apply Forall_cons in Ht as [[Hx Hvn] Ht]. constructor; [|by apply IHes].
  apply Hn; [done|]. by apply Forall_valid_snoc.
Qed.

Lemma lines_of_app fs1 fs2 : lines_of (fs1 ++ fs2) = lines_of fs1 ++ lines_of fs2.
Proof. unfold lines_of. by rewrite filter_app, fmap_app. Qed.

Lemma lines_of_dir ds files :
  lines_of ((λ file, (ds, file)) <$> files)
  = Spec.line ds <$> filter Spec.qualifies files.
Proof.
  unfold lines_of. induction files as [|f files IH]; [done|].
  rewrite fmap_cons. destruct (Spec.qualifies f) eqn:Hq.
  - rewrite !filter_cons_True by (simpl; by rewrite Hq).
    by rewrite !fmap_cons, IH.
  - by rewrite !filter_cons_False by (simpl; rewrite Hq; simpl; tauto).
Qed.

(** The two nested loops append the lines of the qualifying files, in the
    order the walk meets them, and do not fail. *)
Lemma for_walk_items cs items w :
  Forall valid cs →
  Forall (λ item, Forall valid item.1.1 ∧ Forall valid item.2) items →
  for_walk (iter_of_list (to_str <$> items))
           (λ root dirs files,
              for_each files (Generator.visit (root_path cs) root)) w
  = (Ok (), add_routes (lines_of (items_files items)) w).
Proof.
  intros Hcs Hitems. revert w.
  induction Hitems as [|[[r d] f] items [Hr Hf] _ IH]; intros w.
  - by rewrite add_routes_nil.
  - rewrite fmap_cons. simpl in *.
    erewrite bind_ok by by apply for_each_visit.
    rewrite IH, add_routes_app. do 2 f_equal.
    by rewrite lines_of_app, lines_of_dir.
Qed.

Lemma for_walk_tree cs t w :
  Forall valid cs → names_valid t →
  for_walk (iter_of_list (walk posixpath.join Generator.base_dir t))
           (λ root dirs files,
              for_each files (Generator.visit (root_path cs) root)) w
  = (Ok (), add_routes (lines_of (walk_files [] t)) w).
Proof.
  intros Hcs Ht. change Generator.base_dir with (root_str []).
  rewrite walk_string by done. apply for_walk_items; [done|].
  by apply walk_valid.
Qed.
End generator_walk.

(** ** The generator as a whole *)

Section generator.
Implicit Types (cwd : string) (it : walk_iter string) (w : Generator.world)
  (open_err : option exn).

(** The script is its loops followed by the sort, the write and the line
    printed. *)
Lemma script_unfold open_err cwd it w :
  Generator.script open_err cwd it w
  = match Generator.loops cwd it w with
    | (Ok _, w') => finish open_err w'
    | (Raise e, w') => (Raise e, w')
    end.
Proof.
  unfold Generator.script. unfold mbind at 1. unfold Prog_bind at 1.
  destruct (Generator.loops cwd it w) as [[[]|e] w']; [|done].
  unfold finish, Generator.write_output, mbind, Prog_bind, modify, get, raise.
  cbn [Generator.routes Generator.out Generator.stdout].
  destruct open_err as [e|]; [done|].
  by destruct (Py.utf8_valid _).
Qed.

(** The three ways a run ends behind its loops. *)
Lemma finish_cases open_err w :
  let sorted := merge_sort String.le (Generator.routes w) in
  Generator.routes (finish open_err w).2 = sorted
  ∧ ((finish open_err w).1 = Ok ()
     ↔ open_err = None
       ∧ Py.utf8_valid (Generator.content_of sorted) = true)
  ∧ ((finish open_err w).1 = Ok () →
     Generator.out (finish open_err w).2
     = Some (Generator.content_of sorted)
     ∧ Generator.stdout (finish open_err w).2
       = Generator.stdout w ++ [generated_line (length sorted)])
  ∧ (open_err ≠ None → Generator.out (finish open_err w).2 = Generator.out w)
  ∧ ((finish open_err w).1 ≠ Ok () →
     Generator.stdout (finish open_err w).2 = Generator.stdout w).
Proof.
  unfold finish. cbn zeta. destruct open_err as [e|]; cbn.
  { split_and!; try done. split; [done|by intros [? _]]. }
  destruct (Py.utf8_valid _); cbn; split_and!; try done.
  split; [done|by intros [_ ?]].
Qed.

Lemma visit_out cwd root file w :
  Generator.out (Generator.visit cwd root file w).2 = Generator.out w.
Proof.
  unfold Generator.visit. destruct (negb _); [done|].
  unfold mbind, Prog_bind, lift.
  destruct (Generator.url_path_of cwd root file) as [u|e]; [|done].
  by destruct (String.eqb u "").
Qed.

Lemma for_each_out cwd root files w :
  Generator.out (for_each files (Generator.visit cwd root) w).2
  = Generator.out w.
Proof.
  revert w. induction files as [|f files IH]; intros w; [done|].
  simpl. unfold mbind, Prog_bind.
  pose proof (visit_out cwd root f w) as Hv.
  destruct (Generator.visit cwd root f w) as [[[]|e] w']; simpl in *.
  - by rewrite IH.
  - done.
Qed.

(** The loops never touch the output file. *)
Lemma loops_out cwd it w :
  Generator.out (Generator.loops cwd it w).2 = Generator.out w.
Proof.
  unfold Generator.loops. revert w. induction it as [|[[root dirs] files] rest IH|e]; intros w;
    [done| |done].
  simpl. unfold mbind, Prog_bind.
  pose proof (for_each_out cwd root files w) as Hv.
  destruct (for_each files _ w) as [[[]|e] w']; simpl in *.
  - by rewrite IH.
  - done.
Qed.

(** An iteration that ends in an exception makes the loops raise. *)
Lemma loops_fail cwd it w :
  walk_fails it → ∃ e w', Generator.loops cwd it w = (Raise e, w').
Proof.
  unfold Generator.loops. revert w. induction it as [|[[root dirs] files] rest IH|e]; intros w Hf;
    [done| |by eexists _, _].
  simpl. unfold mbind, Prog_bind.
  destruct (for_each files _ w) as [[[]|e] w']; [by apply IH|by eexists _, _].
Qed.

Lemma main_clean open_err cs t prior :
  Forall valid cs → names_valid t →
  Generator.main open_err (root_path cs) t prior
  = finish open_err (add_routes (lines_of (walk_files [] t))
                                (Generator.initial prior)).
Proof.
  intros. unfold Generator.main. rewrite script_unfold.
  unfold Generator.loops. by rewrite for_walk_tree.
Qed.
End generator.

(** ** Sorting *)

Lemma Sorted_adjacent {A} (R : relation A) (l : list A) i a b :
  Sorted R l → l !! i = Some a → l !! S i = Some b → R a b.
Proof.
  intros Hl. revert i. induction Hl as [|x l _ IH Hhd]; intros i Ha Hb; [done|].
  destruct i as [|i]; simpl in *.
  - simplify_eq. destruct Hhd; by simplify_eq/=.
  - by eapply IH.
Qed.

Lemma merge_sort_permuted (l1 l2 : list string) :
  l1 ≡ₚ l2 → merge_sort String.le l1 = merge_sort String.le l2.
Proof.
  intros Hp. apply (Sorted_unique String.le); try apply Sorted_merge_sort; try apply _.
  by rewrite !merge_sort_Permutation.
Qed.

(** ** The properties of the generator *)

Lemma endswith_stem file suf :
  Py.endswith file suf = true →
  ∃ stem, file = stem +:+ suf
          ∧ Py.slice_to_neg (String.length suf) file = stem.
Proof.
  intros [stem ->]%endswith_inv. exists stem. by rewrite slice_to_neg_app.
Qed.

Lemma param_no_sigil segs :
  Forall (λ seg, Py.startswith seg "$" = false) segs → Spec.param <$> segs = segs.
Proof.
  induction 1 as [|seg segs Hseg _ IH]; [done|].
  rewrite fmap_cons, IH, <-url_segment_param. by rewrite Hseg.
Qed.



(** C2: for a qualifying file with one of the three index-like names, the
    final segment is dropped and the URL path is built from the directory
    segments only, so that below [a/b/] it is [a/b]; for any other qualifying
    file the final segment only loses its extension and stays a segment. *)
Theorem index_like_file_routes_to_directory cs dirs file :
  Forall valid cs → Forall valid dirs → valid file →
  Py.endswith file ".tsx" = true →
  let path_rel :=
    posixpath.relpath (root_path cs) (posixpath.join (root_str dirs) file)
                      Generator.base_dir in
  let url := Generator.url_path_of (root_path cs) (root_str dirs) file in
  (file ∈ ["_index.tsx"; "index.tsx"; "route.tsx"] →
     Generator.route_segments path_rel = Ok dirs
     ∧ url = Ok (Py.join "/" (Generator.url_segments dirs))
     ∧ (Forall (λ d, Py.startswith d "$" = false) dirs →
        url = Ok (Py.join "/" dirs))
     ∧ (dirs = ["a"; "b"] → url = Ok "a/b"))
  ∧ (file ∉ ["_index.tsx"; "index.tsx"; "route.tsx"] →
     ∃ stem, file = stem +:+ ".tsx"
             ∧ Generator.route_segments path_rel = Ok (dirs ++ [stem])
             ∧ url = Ok (Py.join "/" (Generator.url_segments (dirs ++ [stem])))).
Proof.
  intros Hcs Hd Hf He path_rel url. subst path_rel url.
  rewrite path_rel_clean, route_segments_clean, url_path_of_clean by done.
  unfold Spec.url_path, Spec.segments, Spec.index_like. split; intros Hin.
  - rewrite (bool_decide_eq_true_2 _ Hin), url_segments_map.
    split_and!; [done..| |by intros ->].
    intros Hns. by rewrite param_no_sigil.
  - rewrite (bool_decide_eq_false_2 _ Hin).
    destruct (endswith_stem _ _ He) as (stem & Hfile & Hstem).
    change (String.length ".tsx") with 4 in Hstem. rewrite Hstem.
    exists stem. by rewrite url_segments_map.
Qed.

Lemma index_like_file_routes_to_directory_witness :
  Generator.url_path_of (root_path sample_cwd) (root_str ["a"; "b"]) "route.tsx"
  = Ok "a/b"
  ∧ ∃ stem, "list.tsx" = stem +:+ ".tsx"
      ∧ Generator.route_segments
          (posixpath.relpath (root_path sample_cwd)
             (posixpath.join (root_str ["a"; "b"]) "list.tsx")
             Generator.base_dir)
        = Ok (["a"; "b"] ++ [stem])
      ∧ Generator.url_path_of (root_path sample_cwd) (root_str ["a"; "b"])
                              "list.tsx"
        = Ok (Py.join "/" (Generator.url_segments (["a"; "b"] ++ [stem]))).
Proof.
  split.
  - destruct (index_like_file_routes_to_directory sample_cwd ["a"; "b"] "route.tsx")
      as [H _]; [by_decide..|reflexivity|].
    destruct H as (_ & _ & _ & H); [by_decide|]. by apply H.
  - destruct (index_like_file_routes_to_directory sample_cwd ["a"; "b"] "list.tsx")
      as [_ H]; [by_decide..|reflexivity|].
    apply H. by_decide.
Defined.

(** C3: the loop over the segments rewrites a segment that begins with the
    sigil [$] to the same segment with a colon in place of the sigil, and
    passes every other segment through unchanged; the file [$id.tsx] below
    [a/] gets the URL segment [:id]. *)
Theorem sigil_segment_becomes_parameter cs :
  Forall valid cs →
  (∀ segs, length (Generator.url_segments segs) = length segs)
  ∧ (∀ segs i seg, segs !! i = Some seg →
       (∀ rest, seg = "$" +:+ rest →
          Generator.url_segments segs !! i = Some (":" +:+ rest))
       ∧ (Py.startswith seg "$" = false →
          Generator.url_segments segs !! i = Some seg))
  ∧ Generator.route_segments
      (posixpath.relpath (root_path cs)
         (posixpath.join (root_str ["a"]) "$id.tsx") Generator.base_dir)
    = Ok ["a"; "$id"]
  ∧ Generator.url_segments ["a"; "$id"] = ["a"; ":id"]
  ∧ Generator.url_path_of (root_path cs) (root_str ["a"]) "$id.tsx"
    = Ok "a/:id".
Proof.
  intros Hcs. split_and!.
  - intros segs. by rewrite url_segments_map, length_fmap.
  - intros segs i seg Hi. rewrite url_segments_map, list_lookup_fmap, Hi.
    simpl. split.
    + by intros rest ->.
    + intros Hseg. by rewrite <-url_segment_param, Hseg.
  - rewrite path_rel_clean by (done || by_decide).
    by rewrite route_segments_clean by (done || by_decide).
  - done.
  - by rewrite url_path_of_clean by (done || by_decide).
Qed.

Lemma sigil_segment_becomes_parameter_witness :
  Generator.url_path_of (root_path sample_cwd) (root_str ["a"]) "$id.tsx"
  = Ok "a/:id".
Proof.
  apply (sigil_segment_becomes_parameter sample_cwd). by_decide.
Defined.

(** C4: a qualifying file makes the loop body append exactly one line: the
    [index] form when the derived URL path is empty, as it is for an
    index-like file in the root directory, and the [route(url, importPath)]
    form otherwise; the import path is the path of the file relative to the
    parent of the root directory, with its extension. *)
Theorem one_registration_line_per_file cs dirs file w :
  Forall valid cs → Forall valid dirs → valid file →
  Py.endswith file ".tsx" = true →
  let cwd := root_path cs in
  let root := root_str dirs in
  let rel_path := posixpath.relpath cwd (posixpath.join root file) "app" in
  ∃ url_path,
    Generator.url_path_of cwd root file = Ok url_path
    ∧ rel_path = Py.join "/" ("routes" :: dirs ++ [file])
    ∧ Generator.visit cwd root file w
      = (Ok (),
         add_routes
           [if bool_decide (url_path = "")
            then "    index(" +:+ Generator.dq +:+ rel_path +:+ Generator.dq
                   +:+ "),"
            else "    route(" +:+ Generator.dq +:+ url_path +:+ Generator.dq
                   +:+ ", " +:+ Generator.dq +:+ rel_path +:+ Generator.dq
                   +:+ "),"] w)
    ∧ (dirs = [] → file ∈ ["_index.tsx"; "index.tsx"; "route.tsx"] →
       url_path = "").
Proof.
  intros Hcs Hd Hf He cwd root rel_path. subst cwd root rel_path.
  exists (Spec.url_path dirs file).
  rewrite url_path_of_clean, rel_path_clean, visit_clean by done.
  unfold Spec.qualifies. rewrite He. split_and!; [done..|].
  intros -> Hin. unfold Spec.url_path, Spec.segments, Spec.index_like.
  by rewrite (bool_decide_eq_true_2 _ Hin).
Qed.

Lemma one_registration_line_per_file_witness :
  Generator.routes
    (Generator.visit (root_path sample_cwd) (root_str []) "_index.tsx"
                     (Generator.initial None)).2
  = ["    index(" +:+ Generator.dq +:+ "routes/_index.tsx" +:+ Generator.dq
       +:+ "),"]
  ∧ Generator.routes
      (Generator.visit (root_path sample_cwd) (root_str ["events"]) "$id.tsx"
                       (Generator.initial None)).2
    = ["    route(" +:+ Generator.dq +:+ "events/:id" +:+ Generator.dq +:+ ", "
         +:+ Generator.dq +:+ "routes/events/$id.tsx" +:+ Generator.dq +:+ "),"].
Proof.
  split.
  - destruct (one_registration_line_per_file sample_cwd [] "_index.tsx"
                (Generator.initial None))
      as (url & Hurl & _ & -> & Hroot); [by_decide..|reflexivity|].
    rewrite Hroot by (done || by_decide). reflexivity.
  - destruct (one_registration_line_per_file sample_cwd ["events"] "$id.tsx"
                (Generator.initial None))
      as (url & Hurl & Hrel & -> & _); [by_decide..|reflexivity|].
    vm_compute in Hurl. injection Hurl as <-. vm_compute. reflexivity.
Defined.

(** C5: in the output of a run that succeeds the registration lines are in
    the order of plain string comparison of the whole lines: each line is
    less than or equal to the line after it. *)
Theorem output_lines_sorted open_err cwd it w0 w :
  Generator.script open_err cwd it w0 = (Ok (), w) →
  Generator.out w
  = Some (Generator.header +:+ Py.join Generator.nl (Generator.routes w)
            +:+ Generator.footer)
  ∧ ∀ i a b,
      Generator.routes w !! i = Some a →
      Generator.routes w !! S i = Some b →
      String.leb a b = true.
Proof.
  rewrite script_unfold.
  destruct (Generator.loops cwd it w0) as [[[]|e] w'] eqn:Hloops; [|done].
  intros Hfin.
  destruct (finish_cases open_err w') as (Hroutes & _ & Hout & _).
  rewrite Hfin in Hroutes, Hout. cbn [fst snd] in *.
  destruct (Hout eq_refl) as [Hfile _]. rewrite Hroutes.
  split; [done|]. intros i a b Ha Hb.
  apply Is_true_true.
  apply (Sorted_adjacent String.le
           (merge_sort String.le (Generator.routes w')) i a b); [|done..].
  apply Sorted_merge_sort. apply _.
Qed.

Lemma output_lines_sorted_witness :
  let w := (Generator.main None (root_path sample_cwd) sample_tree None).2 in
  Generator.out w
  = Some (Generator.header +:+ Py.join Generator.nl (Generator.routes w)
            +:+ Generator.footer)
  ∧ ∀ i a b,
      Generator.routes w !! i = Some a →
      Generator.routes w !! S i = Some b →
      String.leb a b = true.
Proof.
  apply (output_lines_sorted None (root_path sample_cwd)
           (iter_of_list (walk posixpath.join Generator.base_dir sample_tree))
           (Generator.initial None)).
  vm_compute. reflexivity.
Defined.

(** C7: a run that fails during the walk, because the walk fails or
    because the loops raise, raises and leaves the output file as it was;
    the file is touched only by a run whose loops have come to their end,
    and a run that succeeds has written it, over whatever it held. *)
Theorem failed_walk_leaves_output_untouched open_err cwd it w0 r w :
  Generator.script open_err cwd it w0 = (r, w) →
  (walk_fails it → (∃ e, r = Raise e) ∧ Generator.out w = Generator.out w0)
  ∧ (∀ e w1, Generator.loops cwd it w0 = (Raise e, w1) →
             r = Raise e ∧ Generator.out w = Generator.out w0)
  ∧ (Generator.out w ≠ Generator.out w0 →
     walk_fails it = false ∧ ∃ w1, Generator.loops cwd it w0 = (Ok (), w1))
  ∧ (r = Ok () →
     walk_fails it = false
     ∧ Generator.out w = Some (Generator.content_of (Generator.routes w))).
Proof.
  rewrite script_unfold.
  pose proof (loops_out cwd it w0) as Hout.
  pose proof (loops_fail cwd it w0) as Hfail.
  destruct (Generator.loops cwd it w0) as [[[]|e] w'] eqn:Hloops;
    cbn [snd] in Hout.
  - intros Hfin.
    assert (walk_fails it = false) as Hwalk.
    { destruct (walk_fails it); [|done].
      by destruct (Hfail I) as (? & ? & ?). }
    split_and!.
    + by rewrite Hwalk.
    + by intros e w1 [=].
    + intros _. split; [done|by eexists].
    + intros ->. split; [done|].
      destruct (finish_cases open_err w') as (Hroutes & _ & Hfile & _).
      rewrite Hfin in Hroutes, Hfile. cbn [fst snd] in *.
      destruct (Hfile eq_refl) as [-> _]. by rewrite Hroutes.
  - intros [= <- <-]. split_and!.
    + intros _. split; [by eexists|done].
    + by intros e' w1 [= <- <-].
    + by intros [].
    + done.
Qed.

Lemma failed_walk_leaves_output_untouched_witness :
  ∃ e w,
    Generator.script None (root_path sample_cwd) sample_failing_walk
                     (Generator.initial (Some "previous manifest"))
    = (Raise e, w)
    ∧ Generator.out w = Some "previous manifest".
Proof.
  destruct (Generator.script None (root_path sample_cwd) sample_failing_walk
              (Generator.initial (Some "previous manifest")))
    as [r w] eqn:Hrun.
  destruct (failed_walk_leaves_output_untouched _ _ _ _ _ _ Hrun)
    as [Hwalk _].
  destruct (Hwalk I) as [[e ->] Hout].
  exists e, w. split; [reflexivity|exact Hout].
Defined.

(** C9: the output does not depend on the order in which the walk meets
    the files: two trees that hold the same qualifying files, listed in any
    order, make the run end in the same way, with the same lines in the same
    order; the file that was opened holds the same text after both runs, and
    where the text can be encoded both runs succeed and have written it. *)
Theorem output_independent_of_walk_order open_err cs t1 t2 prior1 prior2 :
  Forall valid cs → names_valid t1 → names_valid t2 →
  filter (λ df, Spec.qualifies df.2) (files_under t1)
    ≡ₚ filter (λ df, Spec.qualifies df.2) (files_under t2) →
  let run1 := Generator.main open_err (root_path cs) t1 prior1 in
  let run2 := Generator.main open_err (root_path cs) t2 prior2 in
  let content := Generator.content_of (Generator.routes run1.2) in
  run1.1 = run2.1
  ∧ Generator.routes run1.2 = Generator.routes run2.2
  ∧ Generator.stdout run1.2 = Generator.stdout run2.2
  ∧ (open_err = None → Generator.out run1.2 = Generator.out run2.2)
  ∧ (open_err = None → Py.utf8_valid content = true →
     run1.1 = Ok () ∧ run2.1 = Ok ()
     ∧ Generator.out run1.2 = Some content
     ∧ Generator.out run2.2 = Some content).
Proof.
  intros Hcs Ht1 Ht2 Hperm. cbn zeta. rewrite !main_clean by done.
  assert (∀ t, walk_files [] t ≡ₚ files_under t) as Hwalk.
  { intros t. rewrite walk_files_under. apply reflexive_eq.
    rewrite <-(list_fmap_id (files_under t)) at 2.
    apply list_fmap_ext. by intros _ [d f] _. }
  assert (merge_sort String.le (lines_of (walk_files [] t1))
          = merge_sort String.le (lines_of (walk_files [] t2))) as Hsort.
  { apply merge_sort_permuted. unfold lines_of. by rewrite !Hwalk, Hperm. }
  unfold finish, add_routes.
  cbn [Generator.routes Generator.out Generator.stdout Generator.initial app].
  rewrite <-Hsort. destruct open_err as [e|]; cbn; [by split_and!|].
  destruct (Py.utf8_valid _) eqn:Hvalid; cbn; split_and!; try done.
  intros _ Hv. congruence.
Qed.

Lemma output_independent_of_walk_order_witness :
  let run1 := Generator.main None (root_path sample_cwd) sample_tree None in
  let run2 :=
    Generator.main None (root_path sample_cwd) sample_tree_reordered
                   (Some "old") in
  run1.1 = Ok () ∧ run2.1 = Ok ()
  ∧ Generator.out run1.2
    = Some (Generator.content_of (Generator.routes run1.2))
  ∧ Generator.out run2.2
    = Some (Generator.content_of (Generator.routes run1.2)).
Proof.
  destruct (output_independent_of_walk_order None sample_cwd sample_tree
              sample_tree_reordered None (Some "old"))
    as (_ & _ & _ & _ & Hok); [by_decide|exact I|exact I|by_decide|].
  apply Hok; [reflexivity|vm_compute; reflexivity].
Defined.

(** ** The file operations *)

Section fs.
Implicit Types (t n : node) (p q d : path) (x y : string)
  (es : list (string * node)).

Lemma lookup_app t p q :
  Fs.lookup t (p ++ q) = Fs.lookup t p ≫= λ n, Fs.lookup n q.
Proof.
  revert t. induction p as [|x p IH]; intros t; [done|].
  simpl. destruct t as [c|es]; [done|].
  destruct (Fs.assoc x es) as [n|]; [apply IH|done].
Qed.

Lemma lookup_File c p : p ≠ [] → Fs.lookup (File c) p = None.
Proof. by destruct p. Qed.

Lemma assoc_map_alter x y (g : node → node) es :
  Fs.assoc y (map (λ e, if String.eqb e.1 x then (e.1, g e.2) else e) es)
  = if String.eqb y x then g <$> Fs.assoc y es else Fs.assoc y es.
Proof.
  induction es as [|[z n] es IH]; simpl; [by destruct (String.eqb y x)|].
  destruct (String.eqb_spec z x) as [->|Hzx]; simpl.
  - destruct (String.eqb_spec x y) as [<-|Hxy].
    + by rewrite String.eqb_refl.
    + rewrite IH. by destruct (String.eqb y x).
  - destruct (String.eqb_spec z y) as [<-|Hzy].
    + by apply String.eqb_neq in Hzx as ->.
    + by rewrite IH.
Qed.

Lemma assoc_unlink x y es :
  Fs.assoc y (Fs.unlink x es) = if String.eqb y x then None else Fs.assoc y es.
Proof.
  unfold Fs.unlink. induction es as [|[z n] es IH]; simpl.
  - by destruct (String.eqb y x).
  - destruct (decide (z = x)) as [->|Hzx].
    + rewrite filter_cons_False by (simpl; tauto). rewrite IH.
      destruct (String.eqb_spec y x) as [->|Hyx]; [done|].
      by apply not_eq_sym, String.eqb_neq in Hyx as ->.
    + rewrite filter_cons_True by done. simpl. rewrite IH.
      destruct (String.eqb_spec z y) as [<-|Hzy]; [|done].
      by apply String.eqb_neq in Hzx as ->.
Qed.

Lemma assoc_app_None y es es' :
  Fs.assoc y es = None → Fs.assoc y (es ++ es') = Fs.assoc y es'.
Proof.
  induction es as [|[z n] es IH]; simpl; [done|].
  by destruct (String.eqb z y).
Qed.

Lemma assoc_app_Some y es es' n :
  Fs.assoc y es = Some n → Fs.assoc y (es ++ es') = Some n.
Proof.
  induction es as [|[z m] es IH]; simpl; [done|].
  by destruct (String.eqb z y).
Qed.

Lemma assoc_link x y n es :
  Fs.assoc y (Fs.link x n es)
  = if String.eqb y x then Some n else Fs.assoc y es.
Proof.
  unfold Fs.link. destruct (Fs.assoc x es) as [m|] eqn:Hx.
  - induction es as [|[z k] es IH]; [done|]. simpl in *.
    destruct (String.eqb_spec z x) as [->|Hzx]; simpl.
    + destruct (String.eqb_spec x y) as [<-|Hxy].
      * by rewrite String.eqb_refl.
      * destruct (String.eqb_spec y x) as [->|_]; [done|].
        clear IH Hx. induction es as [|[z' k'] es IH]; [done|]. simpl.
        destruct (String.eqb_spec z' x) as [->|Hz'x]; simpl.
        -- by apply String.eqb_neq in Hxy as ->.
        -- by rewrite IH.
    + destruct (String.eqb_spec z y) as [<-|Hzy].
      * by apply String.eqb_neq in Hzx as ->.
      * by apply IH.
  - destruct (String.eqb_spec y x) as [->|Hyx].
    + rewrite assoc_app_None by done. simpl. by rewrite String.eqb_refl.
    + destruct (Fs.assoc y es) as [k|] eqn:Hy.
      * by apply assoc_app_Some.
      * rewrite assoc_app_None by done. simpl.
        by apply not_eq_sym, String.eqb_neq in Hyx as ->.
Qed.

(** Below the directory [d], a lookup meets the rewritten listing. *)
Lemma lookup_alter_dir_under f d t x rest :
  Fs.lookup (Fs.alter_dir f d t) (d ++ x :: rest)
  = match Fs.lookup t d with
    | Some (Dir es) => Fs.assoc x (f es) ≫= λ n, Fs.lookup n rest
    | _ => None
    end.
Proof.
  revert t. induction d as [|y d IH]; intros [c|es]; try done.
  simpl. rewrite assoc_map_alter, String.eqb_refl.
  destruct (Fs.assoc y es) as [n|]; [apply IH|done].
Qed.

(** Anywhere else, the same kind of entry is found, and the same file. *)
Lemma stat_alter_dir_off f d t p :
  (∀ x rest, p ≠ d ++ x :: rest) → stat (Fs.alter_dir f d t) p = stat t p.
Proof.
  revert t p. induction d as [|y d IH]; intros t p Hp.
  - destruct p as [|x p]; [by destruct t|]. by destruct (Hp x p).
  - destruct t as [c|es]; [done|]. destruct p as [|x p]; [done|].
    unfold stat. simpl. rewrite assoc_map_alter.
    destruct (String.eqb_spec x y) as [->|Hxy]; [|done].
    destruct (Fs.assoc y es) as [n|]; [|done]. simpl.
    apply (IH n p). intros x rest ->. by apply (Hp x rest).
Qed.

Lemma stat_alter_dir_other f d x t p :
  (∀ es y, y ≠ x → Fs.assoc y (f es) = Fs.assoc y es) →
  ¬ (d ++ [x]) `prefix_of` p →
  stat (Fs.alter_dir f d t) p = stat t p.
Proof.
  intros Hf Hp. destruct (decide (d `prefix_of` p)) as [[k ->]|Hd].
  - destruct k as [|y rest].
    + apply stat_alter_dir_off. intros y rest Heq.
      apply (f_equal length) in Heq. rewrite !length_app in Heq. simpl in Heq. lia.
    + unfold stat. rewrite lookup_alter_dir_under, lookup_app.
      destruct (Fs.lookup t d) as [[c|es]|]; try done. simpl.
      rewrite Hf; [done|]. intros ->. apply Hp. exists rest.
      by rewrite <-app_assoc.
  - apply stat_alter_dir_off. intros y rest ->. apply Hd. by eexists.
Qed.

Lemma remove_snoc d x t :
  Fs.remove (d ++ [x]) t = Fs.alter_dir (Fs.unlink x) d t.
Proof. unfold Fs.remove, Fs.dirname. by rewrite last_snoc, removelast_last. Qed.

Lemma put_snoc d x n t :
  Fs.put (d ++ [x]) n t = Fs.alter_dir (Fs.link x n) d t.
Proof. unfold Fs.put, Fs.dirname. by rewrite last_snoc, removelast_last. Qed.

Lemma path_split p x : last p = Some x → p = Fs.dirname p ++ [x].
Proof.
  intros [d ->]%last_Some. unfold Fs.dirname. by rewrite removelast_last.
Qed.

(** What was taken out is gone, with all that was below it. *)
Lemma lookup_remove_under p rest t :
  p ≠ [] → Fs.lookup (Fs.remove p t) (p ++ rest) = None.
Proof.
  intros Hp. destruct (last p) as [x|] eqn:Hx;
    [|by apply last_None in Hx].
  rewrite (path_split p x Hx) at 1 2. rewrite remove_snoc, <-app_assoc.
  simpl. rewrite lookup_alter_dir_under.
  destruct (Fs.lookup t (Fs.dirname p)) as [[c|es]|]; try done.
  by rewrite assoc_unlink, String.eqb_refl.
Qed.

Lemma stat_remove_off p q t : ¬ p `prefix_of` q → stat (Fs.remove p t) q = stat t q.
Proof.
  intros Hq. destruct (last p) as [x|] eqn:Hx.
  - rewrite (path_split p x Hx) in Hq |- *. rewrite remove_snoc.
    apply (stat_alter_dir_other _ _ x); [|done].
    intros es y Hy. rewrite assoc_unlink.
    by apply String.eqb_neq in Hy as ->.
  - unfold Fs.remove. by rewrite Hx.
Qed.

(** What was put is found, with all that is below it. *)
Lemma lookup_put_under p n rest t :
  p ≠ [] → stat t (Fs.dirname p) = Some None →
  Fs.lookup (Fs.put p n t) (p ++ rest) = Fs.lookup n rest.
Proof.
  intros Hp Hd. destruct (last p) as [x|] eqn:Hx;
    [|by apply last_None in Hx].
  rewrite (path_split p x Hx) at 1 2. rewrite put_snoc, <-app_assoc.
  simpl. rewrite lookup_alter_dir_under. unfold stat in Hd.
  destruct (Fs.lookup t (Fs.dirname p)) as [[c|es]|]; try done.
  by rewrite assoc_link, String.eqb_refl.
Qed.

Lemma stat_put_off p n q t : ¬ p `prefix_of` q → stat (Fs.put p n t) q = stat t q.
Proof.
  intros Hq. destruct (last p) as [x|] eqn:Hx.
  - rewrite (path_split p x Hx) in Hq |- *. rewrite put_snoc.
    apply (stat_alter_dir_other _ _ x); [|done].
    intros es y Hy. rewrite assoc_link.
    by apply String.eqb_neq in Hy as ->.
  - unfold Fs.put. by rewrite Hx.
Qed.

Lemma stat_put_file p c t :
  p ≠ [] → stat t (Fs.dirname p) = Some None →
  stat (Fs.put p (File c) t) p = Some (Some c).
Proof.
  intros Hp Hd. unfold stat.
  rewrite <-(app_nil_r p) at 2. by rewrite lookup_put_under.
Qed.

Lemma stat_under_file t p c rest :
  stat t p = Some (Some c) → rest ≠ [] → stat t (p ++ rest) = None.
Proof.
  unfold stat. rewrite lookup_app.
  destruct (Fs.lookup t p) as [[c'|es]|]; try done.
  intros _ Hrest. simpl. by rewrite lookup_File.
Qed.

Lemma stat_under_missing t p rest : stat t p = None → stat t (p ++ rest) = None.
Proof.
  unfold stat. rewrite lookup_app.
  by destruct (Fs.lookup t p) as [[c'|es]|].
Qed.
End fs.

(** ** [str.replace] *)

Section replace.
Implicit Types (s t old new pre post : string) (c : ascii).

Lemma prefix_app_r old s t :
  String.prefix old s = true → String.prefix old (s +:+ t) = true.
Proof.
  intros [u ->]%prefix_inv. rewrite str_app_assoc. apply prefix_app.
Qed.

Lemma prefix_nil_r old : old ≠ "" → String.prefix old "" = false.
Proof. by destruct old. Qed.

Lemma contains_unfold s old :
  Py.contains s old
  = if String.prefix old s then true
    else match s with
         | EmptyString => false
         | String _ s' => Py.contains s' old
         end.
Proof. by destruct s. Qed.

Lemma replace_from_unfold old new skip c s :
  Py.replace_from old new skip (String c s)
  = match skip with
    | S k => Py.replace_from old new k s
    | O =>
        if String.prefix old (String c s) then
          match old with
          | EmptyString => new +:+ String c (Py.replace_from old new 0 s)
          | String _ old' =>
              new +:+ Py.replace_from old new (String.length old') s
          end
        else String c (Py.replace_from old new 0 s)
    end.
Proof. reflexivity. Qed.

Lemma replace_skip old new u s :
  old ≠ "" →
  Py.replace_from old new (String.length u) (u +:+ s)
  = Py.replace_from old new 0 s.
Proof.
  intros Hold. induction u as [|c u IH]; [done|].
  by rewrite str_app_cons, replace_from_unfold.
Qed.

(** At an occurrence of [old] the result has [new], and the scan goes on
    behind the occurrence. *)
Lemma replace_match old new post :
  old ≠ "" →
  Py.replace (old +:+ post) old new = new +:+ Py.replace post old new.
Proof.
  intros Hold. unfold Py.replace. destruct old as [|a old']; [done|].
  rewrite str_app_cons, replace_from_unfold, <-str_app_cons, prefix_app.
  by rewrite replace_skip.
Qed.

(** Anywhere else the character is kept. *)
Lemma replace_keep old new c s :
  String.prefix old (String c s) = false →
  Py.replace (String c s) old new = String c (Py.replace s old new).
Proof. intros H. unfold Py.replace. by rewrite replace_from_unfold, H. Qed.

Lemma replace_absent old new s :
  Py.contains s old = false → Py.replace s old new = s.
Proof.
  induction s as [|c s IH]; rewrite contains_unfold.
  - destruct old; [done|]. by intros _.
  - destruct (String.prefix old (String c s)) eqn:Hp; [done|].
    intros Hs. by rewrite replace_keep, IH.
Qed.

(** The text is pieces that hold no [old], joined by [old]; the result is
    the same pieces joined by [new]. *)
Lemma replace_pieces old new s :
  old ≠ "" → String.length new < String.length old →
  ∃ pieces,
    pieces ≠ []
    ∧ s = Py.join old pieces
    ∧ Py.replace s old new = Py.join new pieces
    ∧ Forall (λ piece, Py.contains piece old = false) pieces
    ∧ String.length (Py.replace s old new) ≤ String.length s
    ∧ (Py.contains s old = true →
       String.length (Py.replace s old new) < String.length s).
Proof.
  intros Hold Hlen. remember (String.length s) as k eqn:Hk. revert s Hk.
  induction k as [k IH] using lt_wf_ind. intros s ->.
  destruct s as [|c s].
  { exists [""]. rewrite contains_unfold, prefix_nil_r by done.
    destruct old; [done|]. split_and!; try done. by repeat constructor. }
  destruct (String.prefix old (String c s)) eqn:Hp.
  - destruct (prefix_inv _ _ Hp) as [post Hpost]. rewrite Hpost.
    destruct (IH (String.length post)) with (s := post)
      as (ps & Hne & Hjoin & Hrep & Hall & Hle & _); [|done|].
    { rewrite Hpost, str_length_app. destruct old; [done|]. simpl. lia. }
    exists ("" :: ps). rewrite replace_match by done. destruct ps as [|q ps]; [done|].
    rewrite !join_cons_cons, !str_app_nil_l, <-Hjoin, <-Hrep.
    split_and!; try done.
    + constructor; [|done]. rewrite contains_unfold. by rewrite prefix_nil_r.
    + rewrite !str_length_app. lia.
    + intros _. rewrite !str_length_app. lia.
  - destruct (IH (String.length s)) with (s := s)
      as (ps & Hne & Hjoin & Hrep & Hall & Hle & Hlt); [simpl; lia|done|].
    destruct ps as [|q ps]; [done|]. exists (String c q :: ps).
    rewrite replace_keep by done.
    assert (Py.contains (String c q) old = false) as Hq.
    { rewrite contains_unfold. inversion_clear Hall as [|?? Hq' _].
      rewrite Hq'. destruct (String.prefix old (String c q)) eqn:Hpq; [|done].
      rewrite <-Hp, Hjoin. destruct ps as [|q' ps]; [done|].
      rewrite join_cons_cons, <-str_app_cons. by rewrite prefix_app_r. }
    split_and!; try done.
    + rewrite Hjoin at 1. by destruct ps.
    + rewrite Hrep. by destruct ps.
    + inversion_clear Hall. by constructor.
    + simpl. lia.
    + rewrite (contains_unfold (String c s)), Hp. intros Hc.
      specialize (Hlt Hc). simpl. lia.
Qed.
End replace.

(** ** Replacing a reference by one that cannot complete another *)

Section replace_clean.
Variables (a : ascii) (old' new' : string).
Hypothesis Hold : Py.contains old' (String a "") = false.
Hypothesis Hnew : Py.contains new' (String a "") = false.
Hypothesis Hdiff :
  ∀ r, String.prefix (String a old') (String a new' +:+ r) = false.

Lemma contains_head_inv b u :
  Py.contains (String b u) (String a "") = false →
  b ≠ a ∧ Py.contains u (String a "") = false.
Proof.
  rewrite contains_unfold, prefix_cons.
  destruct (ascii_dec a b) as [<-|Hne]; [by destruct u|].
  split; [congruence|done].
Qed.

(** Text without the first character of the reference is copied as it is. *)
Lemma replace_copies_prefix u s :
  Py.contains u (String a "") = false →
  String.prefix u (Py.replace s (String a old') (String a new')) = true →
  String.prefix u s = true.
Proof.
  revert s. induction u as [|b u IH]; intros s Hu Hp; [by destruct s|].
  apply contains_head_inv in Hu as [Hb Hu].
  destruct s as [|c s]; [done|].
  destruct (String.prefix (String a old') (String c s)) eqn:Hm.
  - destruct (prefix_inv _ _ Hm) as [post Hpost].
    rewrite Hpost, replace_match, str_app_cons, prefix_cons in Hp by done.
    by destruct (ascii_dec b a).
  - rewrite replace_keep, prefix_cons in Hp by done. rewrite prefix_cons.
    destruct (ascii_dec b c); [by apply IH|done].
Qed.

Lemma replace_no_old_prefix s :
  String.prefix (String a old')
    (Py.replace s (String a old') (String a new')) = false.
Proof.
  destruct s as [|c s]; [done|].
  destruct (String.prefix (String a old') (String c s)) eqn:Hm.
  - destruct (prefix_inv _ _ Hm) as [post Hpost].
    by rewrite Hpost, replace_match.
  - rewrite replace_keep, prefix_cons by done.
    rewrite prefix_cons in Hm.
    destruct (ascii_dec a c); [|done].
    destruct (String.prefix old' (Py.replace s _ _)) eqn:Hp; [|done].
    apply replace_copies_prefix in Hp; [congruence|done].
Qed.

Lemma contains_app_clean u r :
  Py.contains u (String a "") = false →
  Py.contains r (String a old') = false →
  Py.contains (u +:+ r) (String a old') = false.
Proof.
  intros Hu Hr. induction u as [|b u IH]; [done|].
  apply contains_head_inv in Hu as [Hb Hu].
  rewrite str_app_cons, contains_unfold, prefix_cons.
  destruct (ascii_dec a b); [congruence|by apply IH].
Qed.

Lemma replace_leaves_no_old s :
  Py.contains (Py.replace s (String a old') (String a new')) (String a old')
  = false.
Proof.
  remember (String.length s) as k eqn:Hk. revert s Hk.
  induction k as [k IH] using lt_wf_ind. intros s ->.
  destruct s as [|c s]; [done|].
  destruct (String.prefix (String a old') (String c s)) eqn:Hm.
  - destruct (prefix_inv _ _ Hm) as [post Hpost].
    rewrite Hpost, replace_match, contains_unfold, Hdiff, str_app_cons by done.
    apply contains_app_clean; [done|].
    apply (IH (String.length post)); [|done].
    rewrite Hpost, str_length_app. simpl. lia.
  - pose proof (replace_no_old_prefix (String c s)) as Hp.
    rewrite replace_keep in Hp by done.
    rewrite replace_keep, contains_unfold, Hp by done.
    apply (IH (String.length s)); [simpl; lia|done].
Qed.
End replace_clean.

Lemma replace_leaves_no_old_ref c :
  Py.contains (Py.replace c Renamer.old_ref Renamer.new_ref) Renamer.old_ref
  = false.
Proof.
  apply (replace_leaves_no_old "f" (Py.slice_from 1 Renamer.old_ref)
           (Py.slice_from 1 Renamer.new_ref)); [done|done|].
  intros r. reflexivity.
Qed.

(** ** Text that is read, changed and written *)

Section text.
Implicit Types (s u : string) (q : Py.utf8_state).

Lemma replace_changes s :
  s ≠ Py.replace s Renamer.old_ref Renamer.new_ref
  ↔ Py.contains s Renamer.old_ref = true.
Proof.
  destruct (replace_pieces Renamer.old_ref Renamer.new_ref s)
    as (_ & _ & _ & _ & _ & _ & Hlt); [done|simpl; lia|].
  destruct (Py.contains s Renamer.old_ref) eqn:Hc.
  - split; [done|]. intros _ Heq. specialize (Hlt eq_refl).
    rewrite <-Heq in Hlt. lia.
  - split; [|done]. intros Hne. by rewrite replace_absent in Hne.
Qed.

(** A text without a carriage return is read as it is. *)
Lemma newlines_id s :
  Py.contains s (String "013" "") = false → Py.universal_newlines s = s.
Proof.
  induction s as [|c s IH]; [done|]. intros Hs.
  apply contains_head_inv in Hs as [Hc Hs]. cbn [Py.universal_newlines].
  destruct (Ascii.eqb_spec c "013") as [->|_]; [done|]. by rewrite IH.
Qed.

(** Where a text without line ends begins is not changed by reading. *)
Lemma prefix_newlines u s :
  Py.contains u (String "013" "") = false →
  Py.contains u (String "010" "") = false →
  String.prefix u (Py.universal_newlines s) = String.prefix u s.
Proof.
  revert s. induction u as [|b u IH]; intros s Hcr Hlf.
  { by destruct s, (Py.universal_newlines _). }
  apply contains_head_inv in Hcr as [Hbcr Hcr].
  apply contains_head_inv in Hlf as [Hblf Hlf].
  destruct s as [|c s]; [done|]. cbn [Py.universal_newlines].
  destruct (Ascii.eqb_spec c "013") as [->|Hc].
  - rewrite !prefix_cons.
    by destruct (ascii_dec b "010"), (ascii_dec b "013").
  - rewrite !prefix_cons. destruct (ascii_dec b c); [by apply IH|done].
Qed.

(** Reading neither brings nor takes an occurrence of the old import
    reference. *)
Lemma contains_newlines s :
  Py.contains (Py.universal_newlines s) Renamer.old_ref
  = Py.contains s Renamer.old_ref.
Proof.
  remember (String.length s) as k eqn:Hk. revert s Hk.
  induction k as [k IH] using lt_wf_ind. intros s ->.
  destruct s as [|c s]; [done|].
  rewrite (contains_unfold (String c s)), (contains_unfold (Py.universal_newlines _)).
  rewrite prefix_newlines by done.
  destruct (String.prefix Renamer.old_ref (String c s)); [done|].
  cbn [Py.universal_newlines].
  destruct (Ascii.eqb_spec c "013") as [->|Hc].
  - destruct s as [|c' s]; [done|].
    destruct (Ascii.eqb_spec c' "010") as [->|Hc'].
    + rewrite (contains_unfold (String "010" s)).
      change (String.prefix Renamer.old_ref (String "010" s)) with false.
      apply (IH (String.length s)); [simpl; lia|done].
    + apply (IH (String.length (String c' s))); [simpl; lia|done].
  - apply (IH (String.length s)); [simpl; lia|done].
Qed.

(** A line end stands between two characters, and one is as good as the
    other there. *)
Lemma utf8_run_newlines q s :
  Py.utf8_run q (Py.universal_newlines s) = Py.utf8_run q s.
Proof.
  remember (String.length s) as k eqn:Hk. revert q s Hk.
  induction k as [k IH] using lt_wf_ind. intros q s ->.
  destruct s as [|c s]; [done|]. cbn [Py.universal_newlines].
  destruct (Ascii.eqb_spec c "013") as [->|Hc].
  - destruct s as [|c' s]; [by destruct q|].
    destruct (Ascii.eqb_spec c' "010") as [->|Hc'].
    + destruct q; try done.
      change (Py.utf8_run Py.U0 (Py.universal_newlines s)
              = Py.utf8_run Py.U0 s).
      apply (IH (String.length s)); [simpl; lia|done].
    + destruct q; try done.
      change (Py.utf8_run Py.U0 (Py.universal_newlines (String c' s))
              = Py.utf8_run Py.U0 (String c' s)).
      apply (IH (String.length (String c' s))); [simpl; lia|done].
  - cbn [Py.utf8_run]. destruct (Py.utf8_step q c) as [q'|]; [|done].
    apply (IH (String.length s)); [simpl; lia|done].
Qed.

(** The two import references are plain characters of the same kind. *)
Lemma utf8_run_old_ref q s :
  Py.utf8_run q (Renamer.old_ref +:+ s)
  = match q with Py.U0 => Py.utf8_run Py.U0 s | _ => None end.
Proof. by destruct q. Qed.

Lemma utf8_run_new_ref q s :
  Py.utf8_run q (Renamer.new_ref +:+ s)
  = match q with Py.U0 => Py.utf8_run Py.U0 s | _ => None end.
Proof. by destruct q. Qed.

Lemma utf8_run_replace q s :
  Py.utf8_run q (Py.replace s Renamer.old_ref Renamer.new_ref)
  = Py.utf8_run q s.
Proof.
  remember (String.length s) as k eqn:Hk. revert q s Hk.
  induction k as [k IH] using lt_wf_ind. intros q s ->.
  destruct s as [|c s]; [done|].
  destruct (String.prefix Renamer.old_ref (String c s)) eqn:Hm.
  - destruct (prefix_inv _ _ Hm) as [post Hpost].
    rewrite Hpost, replace_match, utf8_run_old_ref, utf8_run_new_ref by done.
    destruct q; try done.
    apply (IH (String.length post)); [|done].
    rewrite Hpost, str_length_app. simpl. lia.
  - rewrite replace_keep by done. cbn [Py.utf8_run].
    destruct (Py.utf8_step q c) as [q'|]; [|done].
    apply (IH (String.length s)); [simpl; lia|done].
Qed.

(** What a round leaves in the file: the text with the new reference where
    it held the old one, and else the bytes it held. *)
Lemma updated_cases c :
  let text := Py.universal_newlines c in
  let c' := Py.replace text Renamer.old_ref Renamer.new_ref in
  (text ≠ c' ∧ Py.contains c Renamer.old_ref = true ∧ updated c = c')
  ∨ (text = c' ∧ Py.contains c Renamer.old_ref = false ∧ updated c = c).
Proof.
  cbn zeta. unfold updated.
  destruct (Py.contains c Renamer.old_ref) eqn:Hc.
  - left. split; [|done]. apply replace_changes. by rewrite contains_newlines.
  - right. split; [|done]. symmetry. apply replace_absent.
    by rewrite contains_newlines.
Qed.

(** What the renamer makes of a text that it could read can be written. *)
Lemma updated_text_valid c :
  Py.utf8_valid c = true →
  Py.utf8_valid (Py.replace (Py.universal_newlines c)
                            Renamer.old_ref Renamer.new_ref) = true.
Proof.
  unfold Py.utf8_valid. by rewrite utf8_run_replace, utf8_run_newlines.
Qed.
End text.

(** ** The steps of the renamer *)

Section renamer_steps.
Implicit Types (t n : node) (p q d src dst : path) (w : Renamer.world).

Lemma stat_isdir t p : Fs.isdir t p = bool_decide (stat t p = Some None).
Proof.
  unfold Fs.isdir, stat. by destruct (Fs.lookup t p) as [[c|es]|].
Qed.

(** [os.rename] either changes nothing, or moves the entry. *)
Lemma os_rename_cases src dst w :
  (src = dst ∧ Renamer.os_rename src dst w = (Ok (), w))
  ∨ (∃ e, Renamer.os_rename src dst w = (Raise e, w)
          ∧ ¬ can_rename_file (Renamer.fs w) src dst)
  ∨ (∃ n, Fs.lookup (Renamer.fs w) src = Some n
          ∧ src ≠ dst ∧ dst ≠ []
          ∧ stat (Renamer.fs w) (Fs.dirname dst) = Some None
          ∧ (is_dir n = false → Fs.isdir (Renamer.fs w) dst = false)
          ∧ Renamer.os_rename src dst w
            = (Ok (), Renamer.World
                        (Fs.put dst n (Fs.remove src (Renamer.fs w)))
                        (Renamer.trace w ++ [Renamer.Renamed src dst]))).
Proof.
  unfold Renamer.os_rename, can_rename_file, stat.
  destruct (Fs.lookup (Renamer.fs w) src) as [n|] eqn:Hsrc.
  2:{ right. left. eexists. split; [done|]. by intros ([c ?] & _). }
  case_bool_decide as Heq; [by eauto|].
  destruct (Fs.lookup (Renamer.fs w) (Fs.dirname dst)) as [[c|es]|] eqn:Hd;
    destruct (last dst) as [x|] eqn:Hx;
    try (right; left; eexists; split; [done|]; intros (_ & ? & ? & _);
         by (done || apply last_None in Hx)).
  assert (dst ≠ []) by (by intros ->).
  unfold Fs.isdir.
  destruct n as [c|es'], (Fs.lookup (Renamer.fs w) dst) as [[c'|[|e es'']]|];
    try (right; left; eexists; split; [done|];
         by intros ([? ?] & _ & _ & ? & _));
    (case_bool_decide;
     [right; left; eexists; split; [done|]; by intros (_ & _ & _ & _ & ?)|]);
    right; right; by eexists.
Qed.

Lemma shutil_move_unfold src dst w :
  Renamer.shutil_move src dst w
  = if Fs.isdir (Renamer.fs w) dst then
      if bool_decide (src = dst) then Renamer.os_rename src dst w
      else match last src with
           | Some name =>
               if Fs.exists_ (Renamer.fs w) (dst ++ [name])
               then (Raise ShutilError, w)
               else Renamer.os_rename src (dst ++ [name]) w
           | None => (Raise OSError, w)
           end
    else Renamer.os_rename src dst w.
Proof.
  unfold Renamer.shutil_move, mbind, Prog_bind, get.
  destruct (Fs.isdir _ dst); [|done]. case_bool_decide; [done|].
  destruct (last src); [|done]. by destruct (Fs.exists_ _ _).
Qed.

Lemma exists_stat t p : Fs.exists_ t p = false ↔ stat t p = None.
Proof.
  unfold Fs.exists_, stat. destruct (Fs.lookup t p) as [[c|es]|].
  - rewrite bool_decide_eq_false. split; [intros []; by eexists|done].
  - rewrite bool_decide_eq_false. split; [intros []; by eexists|done].
  - rewrite bool_decide_eq_false. split; [done|]. intros _ [? ?]. done.
Qed.

Lemma snoc_not_prefix d (a b : string) k : a ≠ b → ¬ (d ++ [a]) `prefix_of` (d ++ b :: k).
Proof.
  intros Hab [k' Hk]. rewrite <-app_assoc in Hk.
  apply app_inv_head in Hk. by simplify_eq/=.
Qed.

Lemma longer_not_prefix (p q : path) : length q < length p → ¬ p `prefix_of` q.
Proof. intros Hlen Hp%prefix_length. lia. Qed.

Lemma dirname_snoc d (x : string) : Fs.dirname (d ++ [x]) = d.
Proof. apply removelast_last. Qed.

Lemma process_unfold src w :
  Renamer.process src w
  = match Renamer.shutil_move src (dst_of src)
            (Renamer.World (Renamer.fs w)
                           (Renamer.trace w ++ [renaming_line src])) with
    | (Ok _, w1) =>
        match Renamer.read_text (dst_of src) w1 with
        | (Ok c, w2) =>
            let c' := Py.replace c Renamer.old_ref Renamer.new_ref in
            if bool_decide (c ≠ c') then
              match Renamer.write_text (dst_of src) c' w2 with
              | (Ok _, w3) =>
                  (Ok (), Renamer.World (Renamer.fs w3)
                            (Renamer.trace w3
                               ++ [Renamer.Printed "Updated imports."]))
              | (Raise e, w3) => (Raise e, w3)
              end
            else (Ok (), w2)
        | (Raise e, w2) => (Raise e, w2)
        end
    | (Raise e, w1) => (Raise e, w1)
    end.
Proof.
  unfold Renamer.process. fold (dst_of src).
  unfold mbind at 1. unfold Prog_bind at 1. unfold Renamer.print at 1.
  unfold Renamer.emit at 1. unfold modify at 1. fold (renaming_line src).
  unfold mbind at 1. unfold Prog_bind at 1.
  destruct (Renamer.shutil_move _ _ _) as [[[]|e] w1]; [|done].
  unfold mbind at 1. unfold Prog_bind at 1.
  destruct (Renamer.read_text _ w1) as [[c|e] w2]; [|done].
  cbn zeta. case_bool_decide; [|done].
  unfold mbind, Prog_bind.
  by destruct (Renamer.write_text _ _ w2) as [[[]|e] w3].
Qed.

(** What one round of the loop does to the match [src]: it fails before it
    changed anything; or it moves [src] into a directory that has the name
    of the destination, and fails; or [src] is a directory, which it moves,
    and fails; or it renames the file and then, where the file is text,
    brings its content up to date, and where it is not, fails. *)
Lemma process_cases src w :
  last src = Some "_index.tsx" →
  let dst := dst_of src in
  let real_dst := dst ++ ["_index.tsx"] in
  let t := Renamer.fs w in
  let tr := Renamer.trace w ++ [renaming_line src] in
  ((∃ e, Renamer.process src w = (Raise e, Renamer.World t tr))
   ∧ (Fs.isdir t dst = true ∨ ¬ can_rename_file t src dst))
  ∨ (∃ n, Fs.isdir t dst = true ∧ stat t real_dst = None
          ∧ Fs.lookup t src = Some n
          ∧ Renamer.process src w
            = (Raise IsADirectoryError,
               Renamer.World (Fs.put real_dst n (Fs.remove src t))
                             (tr ++ [Renamer.Renamed src real_dst])))
  ∨ (∃ es, Fs.isdir t dst = false ∧ Fs.lookup t src = Some (Dir es)
           ∧ Renamer.process src w
             = (Raise IsADirectoryError,
                Renamer.World (Fs.put dst (Dir es) (Fs.remove src t))
                              (tr ++ [Renamer.Renamed src dst])))
  ∨ (∃ c, Fs.isdir t dst = false ∧ stat t src = Some (Some c)
          ∧ stat t (Fs.dirname src) = Some None
          ∧ let text := Py.universal_newlines c in
            let c' := Py.replace text Renamer.old_ref Renamer.new_ref in
            let t' := Fs.put dst (File c) (Fs.remove src t) in
            Renamer.process src w
            = if Py.utf8_valid c then
                (Ok (),
                 if bool_decide (text ≠ c')
                 then Renamer.World (Fs.put dst (File c') t')
                        (tr ++ [Renamer.Renamed src dst; Renamer.Read dst;
                                Renamer.Written dst c';
                                Renamer.Printed "Updated imports."])
                 else Renamer.World t'
                        (tr ++ [Renamer.Renamed src dst; Renamer.Read dst]))
              else
                (Raise UnicodeDecodeError,
                 Renamer.World t'
                   (tr ++ [Renamer.Renamed src dst; Renamer.Read dst]))).
Proof.
  intros Hl. pose proof (path_split _ _ Hl) as Hlast.
  set (d := Fs.dirname src) in *. intros dst real_dst t tr.
  assert (dst = d ++ ["index.tsx"]) as Hdst by done.
  assert (Fs.dirname dst = d) as Hdd by (rewrite Hdst; apply dirname_snoc).
  assert (¬ src `prefix_of` dst) as Hsd.
  { rewrite Hlast, Hdst. by apply snoc_not_prefix. }
  assert (¬ dst `prefix_of` src) as Hds.
  { rewrite Hlast, Hdst. by apply snoc_not_prefix. }
  assert (¬ src `prefix_of` d) as Hsrcd.
  { apply longer_not_prefix. rewrite Hlast, length_app. simpl. lia. }
  assert (¬ dst `prefix_of` d) as Hdstd.
  { apply longer_not_prefix. rewrite Hdst, length_app. simpl. lia. }
  assert (¬ real_dst `prefix_of` dst) as Hrd.
  { apply longer_not_prefix. unfold real_dst. rewrite length_app. simpl. lia. }
  assert (src ≠ dst) as Hne.
  { intros Heq. apply Hsd. by rewrite Heq. }
  rewrite process_unfold, shutil_move_unfold. fold dst t tr.
  cbn [Renamer.fs]. destruct (Fs.isdir t dst) eqn:Hisdir.
  - (* the destination is a directory *)
    rewrite bool_decide_eq_false_2 by done. rewrite Hl. fold real_dst.
    destruct (Fs.exists_ t real_dst) eqn:Hex;
      [left; split; [by eexists|by left]|].
    apply exists_stat in Hex.
    destruct (os_rename_cases src real_dst (Renamer.World t tr))
      as [[Heq _]|[(e & -> & _)|(n & Hn & _ & _ & _ & _ & ->)]].
    + exfalso. apply (f_equal length) in Heq. unfold real_dst in Heq.
      rewrite Hlast, Hdst, !length_app in Heq. simpl in Heq. lia.
    + left. split; [by eexists|by left].
    + right. left. exists n. split_and!; [done..|].
      unfold Renamer.read_text. cbn [Renamer.fs Renamer.trace].
      assert (stat (Fs.put real_dst n (Fs.remove src t)) dst = Some None) as Hst.
      { rewrite stat_put_off, stat_remove_off by done.
        rewrite stat_isdir in Hisdir. by apply bool_decide_eq_true in Hisdir. }
      unfold stat in Hst.
      by destruct (Fs.lookup (Fs.put real_dst n (Fs.remove src t)) dst)
        as [[c|es]|].
  - (* the destination is free, or a plain file *)
    destruct (os_rename_cases src dst (Renamer.World t tr))
      as [[Heq _]|[(e & -> & Hno)|(n & Hn & _ & Hdne & Hpar & _ & ->)]];
      [done| |].
    { left. split; [by eexists|by right]. }
    cbn [Renamer.fs Renamer.trace] in *. rewrite Hdd in Hpar.
    assert (stat (Fs.remove src t) (Fs.dirname dst) = Some None) as Hpar'.
    { by rewrite Hdd, stat_remove_off. }
    assert (Fs.lookup (Fs.put dst n (Fs.remove src t)) dst = Some n) as Hput.
    { rewrite <-(app_nil_r dst) at 2. by rewrite lookup_put_under. }
    unfold Renamer.read_text.
    cbn [Renamer.fs Renamer.trace]. rewrite Hput.
    destruct n as [c|es].
    + right. right. right. exists c. unfold stat. rewrite Hn.
      split_and!; [done..|]. cbn zeta.
      destruct (Py.utf8_valid c) eqn:Hvalid; [|by rewrite <-app_assoc].
      case_bool_decide as Hc; [|by rewrite <-app_assoc].
      unfold Renamer.write_text.
      cbn [Renamer.fs Renamer.trace]. rewrite Hput.
      rewrite (updated_text_valid c Hvalid).
      assert (stat (Fs.put dst (File c) (Fs.remove src t)) (Fs.dirname dst)
              = Some None) as Hpar''.
      { by rewrite stat_put_off by (by rewrite Hdd). }
      unfold stat in Hpar''.
      destruct (Fs.lookup (Fs.put dst (File c) (Fs.remove src t))
                          (Fs.dirname dst)) as [[c0|es0]|]; try done.
      rewrite Hdst at 1. rewrite last_snoc. cbn [Renamer.fs Renamer.trace].
      by rewrite <-!app_assoc.
    + right. right. left. by exists es.
Qed.

(** A round on a match that is not a directory leaves the tree as it was,
    or it takes the file from [src] to a target, which is the destination or,
    when that is a directory, the reserved name inside it; nothing else
    changes. *)
Lemma process_effect src w r w' :
  last src = Some "_index.tsx" →
  stat (Renamer.fs w) src ≠ Some None →
  Renamer.process src w = (r, w') →
  let dst := dst_of src in
  let t := Renamer.fs w in
  (r ≠ Ok () ∧ Renamer.fs w' = t)
  ∨ ∃ tgt c0 c1,
      ((tgt = dst ∧ Fs.isdir t dst = false
        ∧ (r = Ok () ∨ r = Raise UnicodeDecodeError))
       ∨ (tgt = dst ++ ["_index.tsx"] ∧ stat t tgt = None ∧ r ≠ Ok ()))
      ∧ stat t src = Some (Some c0)
      ∧ stat (Renamer.fs w') tgt = Some (Some c1)
      ∧ stat (Renamer.fs w') src = None
      ∧ (∀ q, ¬ tgt `prefix_of` q → ¬ src `prefix_of` q →
              stat (Renamer.fs w') q = stat t q).
Proof.
  intros Hl Hnd Hrun. cbn zeta.
  pose proof (process_cases src w Hl) as Hcases. cbn zeta in Hcases.
  pose proof (path_split _ _ Hl) as Hlast.
  set (dst := dst_of src) in *. set (t := Renamer.fs w) in *.
  set (d := Fs.dirname src) in *.
  assert (dst = d ++ ["index.tsx"]) as Hdst by done.
  assert (Fs.dirname dst = d) as Hdd by (rewrite Hdst; apply dirname_snoc).
  assert (¬ dst `prefix_of` src) as Hds.
  { rewrite Hlast, Hdst. by apply snoc_not_prefix. }
  assert (¬ src `prefix_of` d) as Hsrcd.
  { apply longer_not_prefix. rewrite Hlast, length_app. simpl. lia. }
  assert (¬ dst `prefix_of` d) as Hdstd.
  { apply longer_not_prefix. rewrite Hdst, length_app. simpl. lia. }
  assert (src ≠ []) as Hsne by (by intros ->).
  assert (dst ≠ []) as Hdne by (rewrite Hdst; by destruct d).
  assert (∀ rest, stat (Fs.remove src t) (src ++ rest) = None) as Hgone.
  { intros rest. unfold stat. by rewrite lookup_remove_under. }
  destruct Hcases
    as [[[e He] _]|[(n & Hisdir & Hfree & Hn & He)
       |[(es & _ & Hn & _)|(c & Hisdir & Hc & Hpar & He)]]].
  - left. rewrite He in Hrun. by injection Hrun as <- <-.
  - (* moved into the directory that has the name of the destination *)
    right. rewrite He in Hrun. injection Hrun as <- <-. cbn [Renamer.fs].
    destruct n as [c|es]; [|exfalso; apply Hnd; unfold stat; by rewrite Hn].
    set (tgt := dst ++ ["_index.tsx"]) in *.
    assert (¬ tgt `prefix_of` src) as Hts.
    { apply longer_not_prefix. unfold tgt.
      rewrite Hlast, Hdst, !length_app. simpl. lia. }
    assert (¬ src `prefix_of` dst) as Hsd.
    { rewrite Hlast, Hdst. by apply snoc_not_prefix. }
    exists tgt, c, c. split_and!.
    + right. by split_and!.
    + unfold stat. by rewrite Hn.
    + unfold stat. rewrite <-(app_nil_r tgt) at 2.
      rewrite lookup_put_under; [done|by destruct dst|].
      unfold tgt. rewrite dirname_snoc, stat_remove_off by done.
      rewrite stat_isdir in Hisdir. by apply bool_decide_eq_true in Hisdir.
    + rewrite stat_put_off by done. rewrite <-(app_nil_r src) at 2. apply Hgone.
    + intros q Hq1 Hq2. by rewrite stat_put_off, stat_remove_off.
  - exfalso. apply Hnd. unfold stat. by rewrite Hn.
  - (* renamed *)
    right. rewrite He in Hrun.
    set (c' := Py.replace (Py.universal_newlines c)
                          Renamer.old_ref Renamer.new_ref) in *.
    set (t1 := Fs.put dst (File c) (Fs.remove src t)) in *.
    assert (stat (Fs.remove src t) (Fs.dirname dst) = Some None) as Hpar1.
    { by rewrite Hdd, stat_remove_off. }
    assert (stat t1 (Fs.dirname dst) = Some None) as Hpar2.
    { unfold t1. rewrite stat_put_off; [done|by rewrite Hdd]. }
    assert (stat t1 dst = Some (Some c)) as Ht1.
    { unfold stat, t1. rewrite <-(app_nil_r dst) at 2.
      by rewrite lookup_put_under. }
    assert (stat t1 src = None) as Ht1src.
    { unfold t1. rewrite stat_put_off by done.
      rewrite <-(app_nil_r src) at 2. apply Hgone. }
    assert (∀ q, ¬ dst `prefix_of` q → ¬ src `prefix_of` q → stat t1 q = stat t q)
      as Ht1off.
    { intros q ??. unfold t1. by rewrite stat_put_off, stat_remove_off. }
    destruct (Py.utf8_valid c);
      [case_bool_decide|]; injection Hrun as <- <-; cbn [Renamer.fs].
    + exists dst, c, c'. split_and!; [left; by split_and!; [..|left]|done| | |].
      * unfold stat. rewrite <-(app_nil_r dst) at 2.
        by rewrite lookup_put_under.
      * by rewrite stat_put_off.
      * intros q Hq1 Hq2. rewrite stat_put_off by done. by apply Ht1off.
    + exists dst, c, c. by split_and!; [left; split_and!; [..|left]|..].
    + exists dst, c, c. by split_and!; [left; split_and!; [..|right]|..].
Qed.

Lemma stat_under_nondir t p rest :
  stat t p ≠ Some None → rest ≠ [] → stat t (p ++ rest) = None.
Proof.
  intros Hp Hrest. destruct (stat t p) as [[c|]|] eqn:Hst; [|done|].
  - by eapply stat_under_file.
  - by apply stat_under_missing.
Qed.

(** A round makes no directory. *)
Lemma process_dirs src w r w' q :
  last src = Some "_index.tsx" →
  stat (Renamer.fs w) src ≠ Some None →
  Renamer.process src w = (r, w') →
  stat (Renamer.fs w') q = Some None → stat (Renamer.fs w) q = Some None.
Proof.
  intros Hl Hnd Hrun Hq.
  destruct (process_effect _ _ _ _ Hl Hnd Hrun)
    as [[_ Heq]|(tgt & c0 & c1 & _ & _ & Htgt & Hsrc & Hoff)];
    [by rewrite Heq in Hq|].
  destruct (decide (tgt `prefix_of` q)) as [[rest ->]|Hq1].
  { destruct rest as [|x rest]; [rewrite app_nil_r in Hq; congruence|].
    by rewrite (stat_under_file _ _ c1) in Hq. }
  destruct (decide (src `prefix_of` q)) as [[rest ->]|Hq2].
  { by rewrite stat_under_missing in Hq. }
  by rewrite <-Hoff.
Qed.

(** A round leaves every other file as it is. *)
Lemma process_frame src w r w' p c :
  last src = Some "_index.tsx" →
  stat (Renamer.fs w) src ≠ Some None →
  Renamer.process src w = (r, w') →
  stat (Renamer.fs w) p = Some (Some c) →
  last p ≠ Some "_index.tsx" → p ≠ dst_of src →
  stat (Renamer.fs w') p = Some (Some c).
Proof.
  intros Hl Hnd Hrun Hp Hlp Hpd.
  destruct (process_effect _ _ _ _ Hl Hnd Hrun)
    as [[_ ->]|(tgt & c0 & c1 & Hcase & Hsrc0 & Htgt & Hsrc & Hoff)]; [done|].
  rewrite Hoff; [done| |].
  - intros [rest ->].
    destruct Hcase as [(-> & Hisdir & _)|(-> & Hfree & _)].
    + destruct rest as [|x rest]; [by rewrite app_nil_r in Hpd|].
      rewrite stat_under_nondir in Hp; [done| |done].
      rewrite stat_isdir in Hisdir. by apply bool_decide_eq_false in Hisdir.
    + by rewrite stat_under_missing in Hp.
  - intros [rest ->]. destruct rest as [|x rest].
    + by rewrite app_nil_r in Hlp.
    + by rewrite (stat_under_file _ _ c0) in Hp.
Qed.

(** A round that succeeds takes its match away and brings no file with the
    reserved name. *)
Lemma process_reserved src w w' q c :
  last src = Some "_index.tsx" →
  Renamer.process src w = (Ok (), w') →
  stat (Renamer.fs w') q = Some (Some c) → last q = Some "_index.tsx" →
  stat (Renamer.fs w) q = Some (Some c) ∧ q ≠ src.
Proof.
  intros Hl Hrun Hq Hlq.
  assert (stat (Renamer.fs w) src ≠ Some None) as Hnd.
  { intros Hdir. destruct (process_cases src w Hl)
      as [[[e He] _]|[(n & _ & _ & _ & He)
         |[(es & _ & _ & He)|(c' & _ & Hc & _)]]];
      congruence. }
  destruct (process_effect _ _ _ _ Hl Hnd Hrun)
    as [[? _]|(tgt & c0 & c1 & Hcase & Hsrc0 & Htgt & Hsrc & Hoff)]; [done|].
  destruct Hcase as [(-> & _ & _)|(_ & _ & ?)]; [|done].
  destruct (decide (dst_of src `prefix_of` q)) as [[rest ->]|Hq1].
  { destruct rest as [|x rest].
    - rewrite app_nil_r in Hlq. unfold dst_of in Hlq.
      rewrite last_snoc in Hlq. by simplify_eq.
    - by rewrite (stat_under_file _ _ c1) in Hq. }
  destruct (decide (src `prefix_of` q)) as [[rest ->]|Hq2].
  { by rewrite stat_under_missing in Hq. }
  rewrite <-Hoff by done. split; [done|]. intros ->. by apply Hq2.
Qed.

(** A round is about its match, the destination, and the reserved name
    inside the destination, and about nothing else. *)
Lemma process_trace src w r w' :
  last src = Some "_index.tsx" →
  Renamer.process src w = (r, w') →
  ∃ evs, Renamer.trace w' = Renamer.trace w ++ evs
         ∧ ∀ e p, e ∈ evs → p ∈ event_paths e →
                  p ∈ [src; dst_of src; dst_of src ++ ["_index.tsx"]].
Proof.
  intros Hl Hrun.
  destruct (process_cases src w Hl)
    as [[[e He] _]|[(n & _ & _ & _ & He)
       |[(es & _ & _ & He)|(c' & _ & _ & _ & He)]]];
    cbn zeta in He; rewrite He in Hrun; clear He;
    [| | |destruct (Py.utf8_valid c'); [case_bool_decide|]];
    injection Hrun as <- <-; cbn [Renamer.trace];
    rewrite <-?app_assoc; eexists; (split; [done|]);
    intros ev p Hev Hp; repeat (apply elem_of_cons in Hev as [->|Hev]);
    try (by apply elem_of_nil in Hev); simpl in Hp;
    repeat (apply elem_of_cons in Hp as [->|Hp]);
    try (by apply elem_of_nil in Hp);
    rewrite !elem_of_cons; auto.
Qed.
End renamer_steps.

(** ** The matches of the renamer *)

Section matches.
Implicit Types (t n : node) (p q d : path) (x f : string)
  (es : list (string * node)).

Lemma find_files_inner root files acc :
  fold_left (λ matches file,
               if String.eqb file "_index.tsx" then matches ++ [snoc root file]
               else matches) files acc
  = acc ++ (snoc root <$> filter (λ file, file = "_index.tsx") files).
Proof.
  revert acc. induction files as [|file files IH]; intros acc; simpl.
  - by rewrite app_nil_r.
  - rewrite IH. destruct (String.eqb_spec file "_index.tsx") as [->|Hne].
    + rewrite filter_cons_True by done. by rewrite <-app_assoc.
    + by rewrite filter_cons_False by done.
Qed.

Lemma find_files_outer (items : list (path * list string * list string)) acc :
  fold_left
    (λ matches '(root, dirs, files),
       fold_left
         (λ matches file,
            if String.eqb file "_index.tsx" then matches ++ [snoc root file]
            else matches)
         files matches) items acc
  = acc ++ ((λ df, snoc df.1 df.2)
              <$> filter (λ df, df.2 = "_index.tsx") (items_files items)).
Proof.
  revert acc. unfold items_files.
  induction items as [|[[root dirs] files] items IH]; intros acc; simpl.
  - by rewrite app_nil_r.
  - rewrite find_files_inner, IH, filter_app, fmap_app, <-app_assoc.
    do 2 f_equal. clear. induction files as [|file files IH]; [done|].
    rewrite fmap_cons. destruct (decide (file = "_index.tsx")) as [->|Hne].
    + rewrite !filter_cons_True by done. by rewrite !fmap_cons, IH.
    + by rewrite !filter_cons_False by done.
Qed.

(** The matches are the files of the walk that have the reserved name. *)
Lemma find_files_walk t :
  Renamer.find_files t
  = (λ df, snoc df.1 df.2)
      <$> filter (λ df, df.2 = "_index.tsx") (walk_files [] t).
Proof. unfold Renamer.find_files. by rewrite find_files_outer. Qed.

Lemma assoc_elem x n es : Fs.assoc x es = Some n → (x, n) ∈ es.
Proof.
  induction es as [|[y m] es IH]; [done|]. simpl.
  destruct (String.eqb_spec y x) as [->|_].
  - intros [= ->]. apply list_elem_of_here.
  - intros H. by apply list_elem_of_further, IH.
Qed.

Lemma assoc_unique x n es : NoDup es.*1 → (x, n) ∈ es → Fs.assoc x es = Some n.
Proof.
  induction es as [|[y m] es IH]; intros Hnd Hin; [by apply elem_of_nil in Hin|].
  rewrite fmap_cons in Hnd. apply NoDup_cons in Hnd as [Hy Hnd]. simpl in *.
  apply elem_of_cons in Hin as [[= -> ->]|Hin].
  - by rewrite String.eqb_refl.
  - destruct (String.eqb_spec y x) as [->|_]; [|by apply IH].
    destruct Hy. by apply (list_elem_of_fmap_2 fst _ (x, n)).
Qed.

Lemma assoc_None x es : Fs.assoc x es = None → x ∉ es.*1.
Proof.
  induction es as [|[y m] es IH]; [intros _; apply not_elem_of_nil|]. simpl.
  destruct (String.eqb_spec y x) as [->|Hne]; [done|].
  intros H. rewrite not_elem_of_cons. split; [done|by apply IH].
Qed.

(** Every file that a lookup finds is among the files below the tree. *)
Lemma lookup_files_under t d f c :
  Fs.lookup t (d ++ [f]) = Some (File c) → (d, f) ∈ files_under t.
Proof.
  revert d. induction t as [c'|es IH] using node_ind'; intros d Hlook.
  { by destruct d. }
  rewrite files_under_Dir. apply list_elem_of_bind.
  destruct d as [|x d]; simpl in Hlook.
  - destruct (Fs.assoc f es) as [n|] eqn:Hf; [|done].
    simpl in Hlook. injection Hlook as ->. apply assoc_elem in Hf.
    exists (f, File c). split; [|done]. apply list_elem_of_here.
  - destruct (Fs.assoc x es) as [n|] eqn:Hx; [|done]. simpl in Hlook.
    apply assoc_elem in Hx. exists (x, n). split; [|done].
    destruct n as [c'|es']; [by destruct d|]. simpl.
    rewrite Forall_forall in IH. specialize (IH _ Hx d Hlook).
    by apply (list_elem_of_fmap_2 (λ df, (x :: df.1, df.2)) _ (d, f)).
Qed.

(** In a tree that lists no name twice, a lookup finds every file that is
    below the tree. *)
Lemma files_under_lookup t d f :
  names_unique t → (d, f) ∈ files_under t →
  ∃ c, Fs.lookup t (d ++ [f]) = Some (File c).
Proof.
  revert d. induction t as [c'|es IH] using node_ind'; intros d Hu Hin.
  { by apply elem_of_nil in Hin. }
  apply names_unique_Dir in Hu as [Hnd Hu].
  rewrite files_under_Dir in Hin. apply list_elem_of_bind in Hin as ([x n] & Hin & He).
  rewrite Forall_forall in IH, Hu. simpl in Hin.
  pose proof (assoc_unique _ _ _ Hnd He) as Hx.
  destruct n as [c|es'].
  - apply list_elem_of_singleton in Hin as [= -> ->]. exists c. simpl.
    by rewrite Hx.
  - apply list_elem_of_fmap in Hin as ([d' f'] & [= -> ->] & Hin). simpl.
    rewrite Hx. simpl. apply (IH _ He); [by apply (Hu _ He)|done].
Qed.

Lemma find_files_elem t m :
  m ∈ Renamer.find_files t
  ↔ ∃ d, m = d ++ ["_index.tsx"] ∧ (d, "_index.tsx") ∈ files_under t.
Proof.
  rewrite find_files_walk, list_elem_of_fmap. split.
  - intros ([d f] & -> & Hin). apply list_elem_of_filter in Hin as [Hf Hin].
    simpl in *. subst f. exists d. split; [done|].
    rewrite walk_files_under in Hin.
    apply list_elem_of_fmap in Hin as ([d' f'] & [= -> ->] & Hin). done.
  - intros (d & -> & Hin). exists (d, "_index.tsx"). split; [done|].
    apply list_elem_of_filter. split; [done|]. rewrite walk_files_under.
    by apply (list_elem_of_fmap_2 (λ df, ([] ++ df.1, df.2)) _ (d, "_index.tsx")).
Qed.

(** No match is missed. *)
Lemma find_files_complete t m c :
  stat t m = Some (Some c) → last m = Some "_index.tsx" →
  m ∈ Renamer.find_files t.
Proof.
  intros Hst Hl. apply find_files_elem. exists (Fs.dirname m).
  split; [by apply path_split|]. apply (lookup_files_under _ _ _ c).
  rewrite <-(path_split _ _ Hl). unfold stat in Hst.
  by destruct (Fs.lookup t m) as [[c'|es]|]; simplify_eq.
Qed.

(** Every match is a file with the reserved name. *)
Lemma find_files_sound t m :
  names_unique t → m ∈ Renamer.find_files t →
  last m = Some "_index.tsx" ∧ ∃ c, stat t m = Some (Some c).
Proof.
  intros Hu (d & -> & Hin)%find_files_elem. split; [apply last_snoc|].
  destruct (files_under_lookup _ _ _ Hu Hin) as [c Hc]. exists c.
  unfold stat. by rewrite Hc.
Qed.
End matches.

(** ** Trees that list no name twice *)

Section unique.
Implicit Types (t n : node) (p q d : path) (x : string)
  (es : list (string * node)).

Lemma fst_map_alter y (g : node → node) es :
  (map (λ e, if String.eqb e.1 y then (e.1, g e.2) else e) es).*1 = es.*1.
Proof.
  induction es as [|[z n] es IH]; [done|].
  cbn [map]. rewrite !fmap_cons, IH. simpl. by destruct (String.eqb z y).
Qed.

Lemma fst_map_link x n es :
  (map (λ e, if String.eqb e.1 x then (x, n) else e) es).*1 = es.*1.
Proof.
  induction es as [|[z k] es IH]; [done|].
  cbn [map]. rewrite !fmap_cons, IH. simpl.
  by destruct (String.eqb_spec z x) as [->|].
Qed.

Lemma names_unique_alter_dir f d t :
  (∀ es, unique_entries es → unique_entries (f es)) →
  names_unique t → names_unique (Fs.alter_dir f d t).
Proof.
  intros Hf. revert t. induction d as [|y d IH]; intros [c|es] Ht; try done.
  - apply names_unique_Dir, Hf. by apply names_unique_Dir.
  - apply names_unique_Dir in Ht as [Hnd Hu]. cbn [Fs.alter_dir].
    apply names_unique_Dir. split.
    + by rewrite fst_map_alter.
    + clear Hnd. induction Hu as [|[z n] es Hn _ IHes]; [constructor|].
      simpl. constructor; [|done]. destruct (String.eqb z y); [|done].
      by apply IH.
Qed.

Lemma unique_unlink x es : unique_entries es → unique_entries (Fs.unlink x es).
Proof.
  intros [Hnd Hu]. unfold Fs.unlink. split.
  - eapply sublist_NoDup; [done|]. apply fmap_sublist, sublist_filter.
  - rewrite Forall_forall in Hu |- *.
    intros e [_ He]%list_elem_of_filter. by apply Hu.
Qed.

Lemma unique_link x n es :
  names_unique n → unique_entries es → unique_entries (Fs.link x n es).
Proof.
  intros Hn [Hnd Hu]. unfold Fs.link.
  destruct (Fs.assoc x es) as [m|] eqn:Hx.
  - split.
    + by rewrite fst_map_link.
    + clear Hnd Hx. induction Hu as [|[z k] es Hk _ IHes]; [constructor|].
      simpl. constructor; [|done]. by destruct (String.eqb z x).
  - split.
    + rewrite fmap_app. apply NoDup_app. split_and!; [done| |apply NoDup_singleton].
      intros y Hy ->%list_elem_of_singleton. by apply assoc_None in Hx.
    + apply Forall_app. split; [done|]. by constructor.
Qed.

Lemma names_unique_remove p t : names_unique t → names_unique (Fs.remove p t).
Proof.
  intros Ht. unfold Fs.remove. destruct (last p); [|done].
  apply names_unique_alter_dir; [|done]. apply unique_unlink.
Qed.

Lemma names_unique_put p n t :
  names_unique n → names_unique t → names_unique (Fs.put p n t).
Proof.
  intros Hn Ht. unfold Fs.put. destruct (last p); [|done].
  apply names_unique_alter_dir; [|done]. intros es. by apply unique_link.
Qed.

(** A round that succeeds keeps the names of every directory distinct. *)
Lemma process_unique src w w' :
  last src = Some "_index.tsx" →
  Renamer.process src w = (Ok (), w') →
  names_unique (Renamer.fs w) → names_unique (Renamer.fs w').
Proof.
  intros Hl Hrun Hu.
  destruct (process_cases src w Hl)
    as [[[e He] _]|[(n & _ & _ & _ & He)
       |[(es & _ & _ & He)|(c & _ & _ & _ & He)]]];
    rewrite He in Hrun; try done.
  cbn zeta in Hrun. destruct (Py.utf8_valid c); [|done].
  case_bool_decide; injection Hrun as <-; cbn [Renamer.fs];
    repeat first [apply names_unique_put|apply names_unique_remove]; done.
Qed.
End unique.

(** ** The loop of the renamer *)

Section renamer_loop.
Implicit Types (t : node) (p q : path) (w : Renamer.world) (ms : list path).

Lemma stat_parent t p (x : string) v :
  stat t (p ++ [x]) = Some v → stat t p = Some None.
Proof.
  unfold stat. rewrite lookup_app.
  destruct (Fs.lookup t p) as [[c|es]|]; simpl; try done.
Qed.

Lemma last_dst_of src : last (dst_of src) = Some "index.tsx".
Proof. apply last_snoc. Qed.

(** The loop leaves alone every file that has not the reserved name and
    is not the destination of a match. *)
Lemma for_each_process_frame t0 ms w r w' p c :
  (∀ m, m ∈ ms → last m = Some "_index.tsx" ∧ stat t0 m ≠ Some None) →
  (∀ q, stat (Renamer.fs w) q = Some None → stat t0 q = Some None) →
  stat (Renamer.fs w) p = Some (Some c) →
  last p ≠ Some "_index.tsx" →
  (∀ m, m ∈ ms → p ≠ dst_of m) →
  for_each ms Renamer.process w = (r, w') →
  stat (Renamer.fs w') p = Some (Some c)
  ∧ ∃ evs, Renamer.trace w' = Renamer.trace w ++ evs
           ∧ ∀ e, e ∈ evs → p ∉ event_paths e.
Proof.
  revert w. induction ms as [|m ms IH]; intros w Hms Hdirs Hp Hlp Hpd Hrun.
  { injection Hrun as <- <-. split; [done|]. exists []. rewrite app_nil_r.
    split; [done|]. by intros e ?%elem_of_nil. }
  simpl in Hrun. unfold mbind, Prog_bind in Hrun.
  destruct (Renamer.process m w) as [r1 w1] eqn:Hstep.
  destruct (Hms m) as [Hlm Hm0]; [apply list_elem_of_here|].
  assert (stat (Renamer.fs w) m ≠ Some None) as Hm by (intros ?; by apply Hm0, Hdirs).
  assert (p ≠ dst_of m) as Hpm by (apply Hpd, list_elem_of_here).
  pose proof (process_frame _ _ _ _ _ _ Hlm Hm Hstep Hp Hlp Hpm) as Hp1.
  destruct (process_trace _ _ _ _ Hlm Hstep) as (evs1 & Htr1 & Hevs1).
  assert (∀ e, e ∈ evs1 → p ∉ event_paths e) as Hevs1'.
  { intros e He Hin. specialize (Hevs1 e p He Hin).
    rewrite !elem_of_cons, elem_of_nil in Hevs1.
    destruct Hevs1 as [->|[->|[->|[]]]]; [done|done|].
    by rewrite last_snoc in Hlp. }
  destruct r1 as [[]|e].
  - destruct (IH w1) as (Hp' & evs & Htr & Hevs); try done.
    + intros m' Hm'. apply Hms. by apply list_elem_of_further.
    + intros q Hq. apply Hdirs. by eapply process_dirs.
    + intros m' Hm'. apply Hpd. by apply list_elem_of_further.
    + split; [done|]. exists (evs1 ++ evs). rewrite Htr, Htr1, app_assoc.
      split; [done|]. intros e [?|?]%elem_of_app; auto.
  - injection Hrun as <- <-. split; [done|]. by exists evs1.
Qed.

(** A loop that succeeds leaves no file with the reserved name. *)
Lemma for_each_process_clears ms w w' :
  (∀ m, m ∈ ms → last m = Some "_index.tsx") →
  names_unique (Renamer.fs w) →
  (∀ q c, stat (Renamer.fs w) q = Some (Some c) →
          last q = Some "_index.tsx" → q ∈ ms) →
  for_each ms Renamer.process w = (Ok (), w') →
  names_unique (Renamer.fs w')
  ∧ ∀ q c, stat (Renamer.fs w') q = Some (Some c) →
           last q ≠ Some "_index.tsx".
Proof.
  revert w. induction ms as [|m ms IH]; intros w Hms Hu Hres Hrun.
  { injection Hrun as <-. split; [done|]. intros q c Hq Hlq.
    by apply (elem_of_nil q), (Hres q c). }
  simpl in Hrun. unfold mbind, Prog_bind in Hrun.
  destruct (Renamer.process m w) as [[[]|e] w1] eqn:Hstep; [|done].
  assert (last m = Some "_index.tsx") as Hlm by apply Hms, list_elem_of_here.
  apply (IH w1); [| |
    |done].
  - intros m' Hm'. apply Hms. by apply list_elem_of_further.
  - by eapply process_unique.
  - intros q c Hq Hlq.
    destruct (process_reserved _ _ _ _ _ Hlm Hstep Hq Hlq) as [Hq0 Hne].
    specialize (Hres q c Hq0 Hlq). by apply elem_of_cons in Hres as [->|?].
Qed.

Lemma script_unfold_renamer t :
  Renamer.main t
  = let '(r, w) :=
      for_each (Renamer.find_files t) Renamer.process
        (Renamer.World t
           [Renamer.Printed
              ("Found " +:+ pretty (length (Renamer.find_files t))
                 +:+ " _index.tsx files.")]) in
    (r, w).
Proof.
  unfold Renamer.main, Renamer.script, mbind, Prog_bind, get. simpl.
  by destruct (for_each _ _ _) as [[[]|e] w].
Qed.
End renamer_loop.

(** ** The properties of the renamer *)

(** C6, as the code has it: the file is read as text, so every line end is
    read as a line feed.  When the text holds the old import reference, each
    occurrence is replaced by the new reference, the text between the
    occurrences is kept, and the result is written back, with its line ends
    as line feeds; a file without a carriage return thus keeps everything
    else byte for byte.  When the text does not hold the reference, the file
    is renamed and read, nothing is written, and it keeps its bytes. *)
Theorem import_reference_replaced src w c :
  last src = Some "_index.tsx" →
  stat (Renamer.fs w) src = Some (Some c) →
  Fs.isdir (Renamer.fs w) (dst_of src) = false →
  Py.utf8_valid c = true →
  let dst := dst_of src in
  let text := Py.universal_newlines c in
  ∃ pieces w',
    Renamer.process src w = (Ok (), w')
    ∧ text = Py.join Renamer.old_ref pieces
    ∧ Forall (λ piece, Py.contains piece Renamer.old_ref = false) pieces
    ∧ (Py.contains c (String "013" "") = false → text = c)
    ∧ stat (Renamer.fs w') src = None
    ∧ if Py.contains c Renamer.old_ref
      then stat (Renamer.fs w') dst
           = Some (Some (Py.join Renamer.new_ref pieces))
           ∧ Renamer.trace w'
             = Renamer.trace w
                 ++ [renaming_line src; Renamer.Renamed src dst;
                     Renamer.Read dst;
                     Renamer.Written dst (Py.join Renamer.new_ref pieces);
                     Renamer.Printed "Updated imports."]
      else stat (Renamer.fs w') dst = Some (Some c)
           ∧ Renamer.trace w'
             = Renamer.trace w
                 ++ [renaming_line src; Renamer.Renamed src dst;
                     Renamer.Read dst].
Proof.
  intros Hl Hc Hisdir Hvalid dst text.
  destruct (replace_pieces Renamer.old_ref Renamer.new_ref text)
    as (pieces & _ & Hjoin & Hrep & Hall & _ & _); [done|simpl; lia|].
  pose proof (path_split _ _ Hl) as Hsrc.
  assert (can_rename_file (Renamer.fs w) src dst) as Hcan.
  { split_and!.
    - by exists c.
    - unfold dst, dst_of. by destruct (Fs.dirname src).
    - unfold dst, dst_of. rewrite dirname_snoc.
      rewrite Hsrc in Hc. by apply stat_parent in Hc.
    - rewrite stat_isdir in Hisdir. by apply bool_decide_eq_false in Hisdir.
    - unfold dst, dst_of. rewrite Hsrc at 1. by apply snoc_not_prefix. }
  destruct (process_cases src w Hl)
    as [[_ [?|?]]|[(n & ? & _)|[(es & _ & Hn & _)|(c' & _ & Hc' & _ & He)]]];
    [congruence|done|congruence| |].
  { unfold stat in Hc. by rewrite Hn in Hc. }
  rewrite Hc in Hc'. injection Hc' as <-. cbn zeta in He. fold dst text in He.
  rewrite Hvalid in He.
  pose proof (process_effect src w (Ok ()) _ Hl ltac:(congruence) He)
    as [[? _]|(tgt & c0 & c1 & Hcase & _ & _ & Hgone & _)]; [done|].
  destruct Hcan as (_ & Hdne & Hpar & _ & _).
  assert (¬ src `prefix_of` Fs.dirname dst) as Hsd.
  { apply longer_not_prefix. unfold dst, dst_of. rewrite dirname_snoc.
    rewrite Hsrc at 2. rewrite length_app. simpl. lia. }
  assert (¬ dst `prefix_of` Fs.dirname dst) as Hdd.
  { apply longer_not_prefix. unfold dst, dst_of.
    rewrite dirname_snoc, length_app. simpl. lia. }
  exists pieces. rewrite <-Hrep.
  destruct (updated_cases c) as [(Hne & -> & _)|(Heq & -> & _)];
    fold text in Hne || fold text in Heq.
  - rewrite bool_decide_eq_true_2 in He, Hgone by done.
    eexists. split; [exact He|]. cbn [Renamer.fs Renamer.trace] in *.
    split_and!; [done|done|apply newlines_id|done| |by rewrite <-app_assoc].
    apply stat_put_file; [done|].
    by rewrite stat_put_off, stat_remove_off.
  - rewrite bool_decide_eq_false_2 in He, Hgone by (by intros ?).
    eexists. split; [exact He|]. cbn [Renamer.fs Renamer.trace] in *.
    split_and!; [done|done|apply newlines_id|done| |by rewrite <-app_assoc].
    apply stat_put_file; [done|]. by rewrite stat_remove_off.
Qed.

Example sample_page_replaced :
  Py.replace sample_page Renamer.old_ref Renamer.new_ref = sample_page_updated.
Proof. reflexivity. Qed.

Lemma import_reference_replaced_witness :
  ∃ pieces w',
    Renamer.process ["_index.tsx"] (Renamer.World sample_crlf [])
    = (Ok (), w')
    ∧ Py.universal_newlines sample_page_crlf
      = Py.join Renamer.old_ref pieces
    ∧ Forall (λ piece, Py.contains piece Renamer.old_ref = false) pieces
    ∧ stat (Renamer.fs w') ["_index.tsx"] = None
    ∧ stat (Renamer.fs w') ["index.tsx"]
      = Some (Some (Py.join Renamer.new_ref pieces))
    ∧ Renamer.trace w'
      = [renaming_line ["_index.tsx"];
         Renamer.Renamed ["_index.tsx"] ["index.tsx"];
         Renamer.Read ["index.tsx"];
         Renamer.Written ["index.tsx"] (Py.join Renamer.new_ref pieces);
         Renamer.Printed "Updated imports."].
Proof.
  destruct (import_reference_replaced ["_index.tsx"]
              (Renamer.World sample_crlf []) sample_page_crlf)
    as (pieces & w' & Hrun & Hjoin & Hall & _ & Hgone & Hdst & Htrace);
    [reflexivity..|].
  exists pieces, w'.
  split_and!; [exact Hrun|exact Hjoin|exact Hall|exact Hgone|exact Hdst
              |exact Htrace].
Defined.

(** C6, as it is stated, fails: a file that ends its lines with a carriage
    return and a line feed, and holds the old import reference, is written
    back with a line feed alone at every line end, so that more than the
    reference has changed. *)
Lemma import_reference_replaced_counterexample :
  Py.contains sample_page_crlf Renamer.old_ref = true
  ∧ Renamer.main sample_crlf
    = (Ok (),
       Renamer.World (Dir [("index.tsx", File sample_page_crlf_updated)])
         [Renamer.Printed "Found 1 _index.tsx files.";
          renaming_line ["_index.tsx"];
          Renamer.Renamed ["_index.tsx"] ["index.tsx"];
          Renamer.Read ["index.tsx"];
          Renamer.Written ["index.tsx"] sample_page_crlf_updated;
          Renamer.Printed "Updated imports."])
  ∧ sample_page_crlf_updated
    ≠ Py.replace sample_page_crlf Renamer.old_ref Renamer.new_ref
  ∧ ¬ (∀ t c w,
         stat t ["_index.tsx"] = Some (Some c) →
         Py.contains c Renamer.old_ref = true →
         Renamer.main t = (Ok (), w) →
         stat (Renamer.fs w) ["index.tsx"]
         = Some (Some (Py.replace c Renamer.old_ref Renamer.new_ref))).
Proof.
  split_and!; [reflexivity|reflexivity|discriminate|].
  intros H.
  specialize (H sample_crlf sample_page_crlf _ eq_refl eq_refl eq_refl).
  discriminate H.
Qed.

(** C8: after a run that succeeded, no file has the reserved name, so a
    second run over the tree finds no match, renames nothing and writes
    nothing: it only prints that it found no file. *)
Theorem second_run_finds_nothing t w :
  names_unique t →
  Renamer.main t = (Ok (), w) →
  Renamer.find_files (Renamer.fs w) = []
  ∧ Renamer.main (Renamer.fs w)
    = (Ok (), Renamer.World (Renamer.fs w)
                [Renamer.Printed "Found 0 _index.tsx files."]).
Proof.
  intros Hu Hrun. rewrite script_unfold_renamer in Hrun.
  destruct (for_each _ _ _) as [r w1] eqn:Hloop. injection Hrun as -> ->.
  apply for_each_process_clears in Hloop as [Hu' Hnone]; cbn [Renamer.fs].
  - assert (Renamer.find_files (Renamer.fs w) = []) as Hnil.
    { apply elem_of_nil_inv. intros m Hm.
      destruct (find_files_sound _ _ Hu' Hm) as [Hl [c Hc]].
      by apply (Hnone m c). }
    split; [done|]. by rewrite script_unfold_renamer, Hnil.
  - intros m Hm. by apply (find_files_sound t).
  - done.
  - intros q c Hq Hl. by eapply find_files_complete.
Qed.

Lemma second_run_finds_nothing_witness :
  let w := (Renamer.main sample_routes).2 in
  Renamer.find_files (Renamer.fs w) = []
  ∧ Renamer.main (Renamer.fs w)
    = (Ok (), Renamer.World (Renamer.fs w)
                [Renamer.Printed "Found 0 _index.tsx files."]).
Proof.
  apply (second_run_finds_nothing sample_routes); [exact I|].
  vm_compute. reflexivity.
Defined.

(** C10, as the code has it: a run, whether it succeeds or fails, leaves
    untouched every file that has not the reserved name and is not an
    [index.tsx] beside a file with the reserved name: the file keeps its
    content, and no rename, read or write is about it. *)
Theorem other_files_untouched t p c :
  names_unique t →
  stat t p = Some (Some c) →
  last p ≠ Some "_index.tsx" →
  (last p = Some "index.tsx" →
   ∀ c', stat t (Fs.dirname p ++ ["_index.tsx"]) ≠ Some (Some c')) →
  let w := (Renamer.main t).2 in
  stat (Renamer.fs w) p = Some (Some c)
  ∧ ∀ e, e ∈ Renamer.trace w → p ∉ event_paths e.
Proof.
  intros Hu Hp Hlp Hbeside. cbn zeta. rewrite script_unfold_renamer.
  destruct (for_each _ _ _) as [r w] eqn:Hloop. cbn [snd].
  eapply (for_each_process_frame t) in Hloop
    as (Hp' & evs & Htr & Hevs); cbn [Renamer.fs Renamer.trace] in *.
  - split; [done|]. rewrite Htr. intros e [He|He]%elem_of_cons; [|by auto].
    subst e. apply not_elem_of_nil.
  - intros m Hm. destruct (find_files_sound _ _ Hu Hm) as [Hl [c' Hc']].
    split; [done|congruence].
  - done.
  - done.
  - done.
  - intros m Hm ->. destruct (find_files_sound _ _ Hu Hm) as [Hl [c' Hc']].
    apply (Hbeside (last_dst_of m) c').
    unfold dst_of. rewrite dirname_snoc. by rewrite <-(path_split _ _ Hl).
Qed.

Lemma other_files_untouched_witness :
  let w := (Renamer.main sample_routes).2 in
  stat (Renamer.fs w) ["events"; "$id.tsx"] = Some (Some "event")
  ∧ ∀ e, e ∈ Renamer.trace w → ["events"; "$id.tsx"] ∉ event_paths e.
Proof.
  apply (other_files_untouched sample_routes ["events"; "$id.tsx"] "event");
    [exact I|reflexivity|discriminate|discriminate].
Defined.

(** C10, as it is stated, fails: the rename replaces an [index.tsx] that
    stands beside a file with the reserved name, though that file has not
    the reserved name. *)
Lemma other_files_untouched_counterexample :
  names_unique sample_clash
  ∧ stat sample_clash ["index.tsx"] = Some (Some "old page")
  ∧ last ["index.tsx"] ≠ Some "_index.tsx"
  ∧ stat (Renamer.fs (Renamer.main sample_clash).2) ["index.tsx"]
    = Some (Some "new page")
  ∧ Renamer.Renamed ["_index.tsx"] ["index.tsx"]
    ∈ Renamer.trace (Renamer.main sample_clash).2
  ∧ ¬ (∀ t p c,
         names_unique t → stat t p = Some (Some c) →
         last p ≠ Some "_index.tsx" →
         stat (Renamer.fs (Renamer.main t).2) p = Some (Some c)).
Proof.
  split_and!; [exact I|reflexivity|discriminate|reflexivity| |].
  - vm_compute. apply list_elem_of_further, list_elem_of_further, list_elem_of_here.
  - intros H.
    specialize (H sample_clash ["index.tsx"] "old page" I eq_refl).
    by specialize (H ltac:(discriminate)).
Qed.

(** * Further properties of the generator *)

Section generator_total.
Implicit Types (cwd root file : string) (w : Generator.world)
  (it : walk_iter string).

Lemma route_segments_ok path_rel :
  ∃ segments, Generator.route_segments path_rel = Ok segments.
Proof.
  unfold Generator.route_segments, Generator.last_item.
  set (segs := if Py.contains path_rel "/" then _ else _).
  assert (segs ≠ []) as Hne.
  { subst segs. destruct (Py.contains path_rel "/"); [apply split_not_nil|done]. }
  destruct (last segs) as [filename|] eqn:Hlast; [|by apply last_None in Hlast].
  unfold mbind, result_bind, mret, result_ret.
  destruct (_ || _); [by eexists|]. destruct (Py.endswith _ _); by eexists.
Qed.

Lemma url_path_of_ok cwd root file :
  ∃ url_path, Generator.url_path_of cwd root file = Ok url_path.
Proof.
  unfold Generator.url_path_of.
  destruct (route_segments_ok
              (posixpath.relpath cwd (posixpath.join root file)
                 Generator.base_dir)) as [segs ->].
  by eexists.
Qed.

Lemma visit_ok cwd root file w :
  ∃ ls, Generator.visit cwd root file w = (Ok (), add_routes ls w)
        ∧ length ls = length (filter Spec.qualifies [file]).
Proof.
  unfold Generator.visit, Spec.qualifies.
  destruct (Py.endswith file ".tsx") eqn:He; simpl.
  - destruct (url_path_of_ok cwd root file) as [u ->].
    unfold mbind, Prog_bind, lift.
    rewrite filter_cons_True by (by rewrite He).
    destruct (String.eqb u ""); by eexists [_].
  - exists []. rewrite add_routes_nil.
    by rewrite filter_cons_False by (rewrite He; simpl; tauto).
Qed.

Lemma for_each_visit_ok cwd root files w :
  ∃ ls, for_each files (Generator.visit cwd root) w = (Ok (), add_routes ls w)
        ∧ length ls = length (filter Spec.qualifies files).
Proof.
  revert w. induction files as [|file files IH]; intros w.
  { exists []. by rewrite add_routes_nil. }
  destruct (visit_ok cwd root file w) as (l1 & Hv & Hl1).
  destruct (IH (add_routes l1 w)) as (l2 & Hf & Hl2).
  exists (l1 ++ l2). simpl. erewrite bind_ok by done.
  rewrite Hf, add_routes_app. split; [done|].
  change (file :: files) with ([file] ++ files).
  rewrite filter_app, !length_app. lia.
Qed.

Lemma loops_ok cwd it w :
  walk_fails it = false →
  ∃ ls, Generator.loops cwd it w = (Ok (), add_routes ls w)
        ∧ length ls = length (filter Spec.qualifies (iter_files it)).
Proof.
  unfold Generator.loops. revert w.
  induction it as [|[[root dirs] files] rest IH|e]; intros w Hf; [|simpl in *|done].
  { exists []. by rewrite add_routes_nil. }
  destruct (for_each_visit_ok cwd root files w) as (l1 & Hv & Hl1).
  destruct (IH (add_routes l1 w) Hf) as (l2 & Hr & Hl2).
  exists (l1 ++ l2). erewrite bind_ok by done.
  rewrite Hr, add_routes_app. split; [done|].
  rewrite filter_app, !length_app. lia.
Qed.
End generator_total.

(** X1: whatever the names of the files and the working directory are, the
    two loops raise no exception of their own: when the walk comes to its
    end they return, having appended one line for each file name that ends
    in [.tsx], and nothing else. *)
Theorem loops_fail_only_with_the_walk cwd it w :
  walk_fails it = false →
  ∃ ls, Generator.loops cwd it w
        = (Ok (), Generator.World (Generator.routes w ++ ls)
                    (Generator.out w) (Generator.stdout w))
        ∧ length ls
          = length (filter (λ file, Py.endswith file ".tsx") (iter_files it)).
Proof. apply loops_ok. Qed.

Lemma loops_fail_only_with_the_walk_witness :
  ∃ ls, Generator.loops "relative//cwd"
          (WYield ("/elsewhere", [], ["a.tsx"; "b.md"; ".tsx"]) WStop)
          (Generator.initial None)
        = (Ok (), Generator.World ls None [])
        ∧ length ls = 2.
Proof.
  apply (loops_fail_only_with_the_walk "relative//cwd"
           (WYield ("/elsewhere", [], ["a.tsx"; "b.md"; ".tsx"]) WStop)
           (Generator.initial None)).
  reflexivity.
Defined.

(** X2: a run whose walk comes to its end succeeds exactly when the output
    file can be opened and the text can be encoded; the line it then prints
    gives the number of lines in the written file, which is the number of
    file names that end in [.tsx]; a run that fails prints nothing. *)
Theorem printed_count_is_number_of_tsx_files open_err cwd it prior :
  walk_fails it = false →
  let n := length (filter (λ file, Py.endswith file ".tsx") (iter_files it)) in
  let run := Generator.script open_err cwd it (Generator.initial prior) in
  let content := Generator.content_of (Generator.routes run.2) in
  length (Generator.routes run.2) = n
  ∧ (run.1 = Ok () ↔ open_err = None ∧ Py.utf8_valid content = true)
  ∧ (run.1 = Ok () →
     Generator.out run.2 = Some content
     ∧ Generator.stdout run.2 = [generated_line n])
  ∧ (run.1 ≠ Ok () → Generator.stdout run.2 = []).
Proof.
  intros Hf n. cbn zeta. rewrite script_unfold.
  destruct (loops_ok cwd it (Generator.initial prior) Hf) as (ls & -> & Hls).
  destruct (finish_cases open_err
              (Generator.World ls prior []))
    as (Hroutes & Hok & Hout & _ & Hquiet).
  assert (length (merge_sort String.le ls) = n) as Hn.
  { by rewrite merge_sort_Permutation. }
  change (add_routes ls (Generator.initial prior))
    with (Generator.World ls prior []).
  cbn [Generator.routes Generator.stdout] in *. rewrite Hroutes.
  split_and!; [done|done| |done].
  intros Hrun. destruct (Hout Hrun) as [-> ->]. by rewrite Hn.
Qed.

Lemma printed_count_is_number_of_tsx_files_witness :
  let run :=
    Generator.script None (root_path sample_cwd)
      (iter_of_list (walk posixpath.join Generator.base_dir sample_tree))
      (Generator.initial None) in
  length (Generator.routes run.2) = 4
  ∧ run.1 = Ok ()
  ∧ Generator.out run.2
    = Some (Generator.content_of (Generator.routes run.2))
  ∧ Generator.stdout run.2 = ["Generated app/routes.ts with 4 routes."].
Proof.
  destruct (printed_count_is_number_of_tsx_files None (root_path sample_cwd)
              (iter_of_list
                 (walk posixpath.join Generator.base_dir sample_tree))
              None)
    as (Hn & Hok & Hout & _); [reflexivity|].
  cbn zeta.
  assert ((Generator.script None (root_path sample_cwd)
             (iter_of_list
                (walk posixpath.join Generator.base_dir sample_tree))
             (Generator.initial None)).1 = Ok ()) as Hrun.
  { apply Hok. split; [reflexivity|vm_compute; reflexivity]. }
  destruct (Hout Hrun) as [Hfile Hline].
  split_and!; [exact Hn|exact Hrun|exact Hfile|exact Hline].
Defined.

(** X3: a walk that meets no file name ending in [.tsx], as the walk of a
    root directory that is empty, or is no directory, makes the run write
    the header and the footer around an empty line and report no route,
    where the output file can be opened; where it cannot, the run raises
    what [open] raises, and has written and printed nothing. *)
Theorem no_tsx_file_gives_empty_manifest open_err cwd it prior :
  walk_fails it = false →
  filter (λ file, Py.endswith file ".tsx") (iter_files it) = [] →
  Generator.script open_err cwd it (Generator.initial prior)
  = match open_err with
    | None =>
        (Ok (), Generator.World []
                  (Some (Generator.header +:+ Generator.footer))
                  ["Generated app/routes.ts with 0 routes."])
    | Some e => (Raise e, Generator.World [] prior [])
    end.
Proof.
  intros Hf Hnone. rewrite script_unfold.
  destruct (loops_ok cwd it (Generator.initial prior) Hf) as (ls & -> & Hls).
  unfold Spec.qualifies in Hls. rewrite Hnone in Hls.
  apply nil_length_inv in Hls as ->. by destruct open_err.
Qed.

Lemma no_tsx_file_gives_empty_manifest_witness :
  Generator.main None (root_path sample_cwd) (File "not a directory")
                 (Some "old")
  = (Ok (), Generator.World []
              (Some (Generator.header +:+ Generator.footer))
              ["Generated app/routes.ts with 0 routes."]).
Proof.
  apply (no_tsx_file_gives_empty_manifest None (root_path sample_cwd)
           (iter_of_list (walk posixpath.join Generator.base_dir
                               (File "not a directory"))) (Some "old"));
    reflexivity.
Defined.

(** X15: how a run ends whose walk has come to its end.  Where the output
    file cannot be opened the run raises what [open] raises, and the file is
    as it was; where the text cannot be encoded, as with a file name that is
    no UTF-8, the run raises an encoding error and leaves the file empty:
    what it held is lost; else the run succeeds and the file holds the
    text. *)
Theorem output_after_the_walk open_err cwd it prior :
  walk_fails it = false →
  let run := Generator.script open_err cwd it (Generator.initial prior) in
  let content := Generator.content_of (Generator.routes run.2) in
  match open_err with
  | Some e => run.1 = Raise e ∧ Generator.out run.2 = prior
  | None =>
      if Py.utf8_valid content
      then run.1 = Ok () ∧ Generator.out run.2 = Some content
      else run.1 = Raise UnicodeEncodeError ∧ Generator.out run.2 = Some ""
  end.
Proof.
  intros Hf. cbn zeta. rewrite script_unfold.
  destruct (loops_ok cwd it (Generator.initial prior) Hf) as (ls & -> & _).
  change (add_routes ls (Generator.initial prior))
    with (Generator.World ls prior []).
  unfold finish. cbn [Generator.routes Generator.out Generator.stdout].
  destruct open_err as [e|]; [done|].
  destruct (Py.utf8_valid (Generator.content_of (merge_sort String.le ls)))
    eqn:Hvalid; cbn [fst snd Generator.routes Generator.out];
    by rewrite Hvalid.
Qed.

Lemma output_after_the_walk_witness :
  let run :=
    Generator.main None (root_path sample_cwd) sample_bad_name
                   (Some "previous manifest") in
  run.1 = Raise UnicodeEncodeError ∧ Generator.out run.2 = Some "".
Proof.
  apply (output_after_the_walk None (root_path sample_cwd)
           (iter_of_list
              (walk posixpath.join Generator.base_dir sample_bad_name))
           (Some "previous manifest")).
  reflexivity.
Defined.

Section segments.
Implicit Types (s x : string) (sep : ascii) (l : list string).

Lemma join_cons_String (j : string) c x l :
  Py.join j (String c x :: l) = String c (Py.join j (x :: l)).
Proof. by destruct l. Qed.

Lemma join_split s sep : Py.join (String sep "") (Py.split s sep) = s.
Proof.
  induction s as [|c s IH]; [done|]. simpl.
  pose proof (split_not_nil s sep) as Hne.
  destruct (Ascii.eqb_spec c sep) as [->|_].
  - destruct (Py.split s sep) as [|x l] eqn:Hs; [done|].
    rewrite join_cons_cons, IH. done.
  - destruct (Py.split s sep) as [|x l] eqn:Hs; [done|].
    by rewrite join_cons_String, IH.
Qed.

Lemma split_sep_free_all s sep : Forall (sep_free sep) (Py.split s sep).
Proof.
  induction s as [|c s IH]; [by repeat constructor|]. simpl.
  pose proof (split_not_nil s sep) as Hne.
  destruct (Ascii.eqb_spec c sep) as [->|Hc]; [by constructor|].
  destruct (Py.split s sep) as [|x l]; [done|].
  inversion_clear IH. constructor; [|done]. by apply sep_free_cons.
Qed.

Lemma join_cons_head (j : string) x l : ∃ u, Py.join j (x :: l) = x +:+ u.
Proof.
  destruct l as [|y l]; [exists ""; by rewrite str_app_nil_r|].
  rewrite join_cons_cons. by eexists.
Qed.

Lemma str_app_eq_nil s u : s +:+ u = "" → s = "".
Proof. by destruct s. Qed.

Lemma param_nonempty x : x ≠ "" → Spec.param x ≠ "".
Proof.
  destruct x as [|c x]; [done|]. intros _. simpl.
  destruct c as [[] [] [] [] [] [] [] []]; done.
Qed.
End segments.

(** X4: whatever [path_rel] is, the segments the generator splits it into
    are never empty (so taking the last one never fails), hold no slash, and
    give [path_rel] back when joined with slashes; the test for a slash
    before the split changes nothing. *)
Theorem segments_join_back path_rel :
  let segments :=
    if Py.contains path_rel "/" then Py.split path_rel "/" else [path_rel] in
  segments = Py.split path_rel "/"
  ∧ segments ≠ []
  ∧ Forall (λ seg, Py.contains seg "/" = false) segments
  ∧ Py.join "/" segments = path_rel
  ∧ ∃ filename, Generator.last_item segments = Ok filename.
Proof.
  cbn zeta.
  assert ((if Py.contains path_rel "/" then Py.split path_rel "/"
           else [path_rel]) = Py.split path_rel "/") as ->.
  { destruct (Py.contains path_rel "/") eqn:Hc; [done|].
    by rewrite (split_sep_free "/"). }
  pose proof (split_not_nil path_rel "/") as Hne.
  split_and!; [done|done|apply split_sep_free_all|apply (join_split _ "/")|].
  unfold Generator.last_item.
  destruct (last (Py.split path_rel "/")) eqn:Hl; [by eexists|].
  by apply last_None in Hl.
Qed.

(** X5: for a qualifying file, the URL path is empty, and so the [index]
    form is written, exactly when the file lies in the root directory and
    either has one of the three index-like names or is named [.tsx]. *)
Theorem index_form_only_in_root cs dirs file w :
  Forall valid cs → Forall valid dirs → valid file →
  Py.endswith file ".tsx" = true →
  (Generator.url_path_of (root_path cs) (root_str dirs) file = Ok ""
   ↔ dirs = []
     ∧ (file ∈ ["_index.tsx"; "index.tsx"; "route.tsx"] ∨ file = ".tsx"))
  ∧ (Generator.url_path_of (root_path cs) (root_str dirs) file = Ok "" →
     Generator.visit (root_path cs) (root_str dirs) file w
     = (Ok (), add_routes
                 [Generator.index_line (Py.join "/" ("routes" :: dirs ++ [file]))]
                 w)).
Proof.
  intros Hcs Hd Hf He.
  rewrite visit_clean, url_path_of_clean by done.
  unfold Spec.qualifies. rewrite He. split.
  - unfold Spec.url_path, Spec.segments, Spec.index_like.
    destruct (endswith_stem _ _ He) as (stem & Hfile & Hstem).
    change (String.length ".tsx") with 4 in Hstem. rewrite Hstem.
    destruct dirs as [|d dirs].
    + case_bool_decide as Hin; simpl.
      * split; [by auto|done].
      * split.
        -- intros [= Hp]. split; [done|]. right.
           destruct stem as [|c stem]; [by rewrite Hfile|].
           by apply param_nonempty in Hp.
        -- intros [_ [?|Hdot]]; [done|]. rewrite Hfile in Hdot.
           assert (stem = "") as ->; [|done].
           apply (f_equal String.length) in Hdot.
           rewrite str_length_app in Hdot. destruct stem; [done|].
           simpl in Hdot. lia.
    + split; [|by intros [? _]]. intros [= Hp]. exfalso.
      apply Forall_cons in Hd as [Hvd _].
      apply valid_name_spec in Hvd as (Hdne & _).
      apply (param_nonempty d Hdne).
      case_bool_decide;
        try change ((d :: dirs) ++ [stem]) with (d :: (dirs ++ [stem])) in Hp;
        rewrite fmap_cons in Hp;
        match type of Hp with
        | Py.join _ (_ :: ?l) = _ =>
            destruct (join_cons_head "/" (Spec.param d) l) as [u Hu]
        end;
        rewrite Hu in Hp; by apply str_app_eq_nil in Hp.
  - unfold Spec.line, Spec.import_path. by intros [= ->].
Qed.

Lemma index_form_only_in_root_witness :
  Generator.visit (root_path sample_cwd) (root_str []) ".tsx"
                  (Generator.initial None)
  = (Ok (), Generator.World [Generator.index_line "routes/.tsx"] None []).
Proof.
  apply (index_form_only_in_root sample_cwd [] ".tsx" (Generator.initial None));
    [by_decide|by_decide|exact I|reflexivity|].
  apply (index_form_only_in_root sample_cwd [] ".tsx" (Generator.initial None));
    [by_decide|by_decide|exact I|reflexivity|].
  split; [done|by right].
Defined.

(** X6: the written text, split at its line ends, is the import line, an
    empty line, the opening line, then the registration lines one by one (a
    single empty line when there is none), then the closing line; this holds
    as long as no registration line holds a line end. *)
Theorem manifest_lines_read_back routes :
  Forall (λ line, Py.contains line Generator.nl = false) routes →
  Py.split (Generator.content_of routes) "010"
  = [import_line; ""; "export default ["]
      ++ (if routes is [] then [""] else routes)
      ++ ["] satisfies RouteConfig;"; ""].
Proof.
  intros Hroutes. unfold Generator.content_of.
  change (Generator.header +:+ ?x)
    with (import_line +:+ String "010"
            ("" +:+ String "010" ("export default [" +:+ String "010" x))).
  change Generator.footer
    with (String "010" ("] satisfies RouteConfig;" +:+ String "010" "")).
  rewrite !split_app_sep.
  assert (Py.split (Py.join Generator.nl routes) "010"
          = if routes is [] then [""] else routes) as ->.
  { destruct routes as [|r routes]; [done|]. by apply (split_join "010"). }
  by rewrite !(split_sep_free "010") by done.
Qed.

Lemma manifest_lines_read_back_witness :
  Py.split (Generator.content_of
              (Generator.routes
                 (Generator.main None (root_path sample_cwd) sample_tree None).2))
           "010"
  = [import_line; ""; "export default ["]
      ++ Generator.routes
           (Generator.main None (root_path sample_cwd) sample_tree None).2
      ++ ["] satisfies RouteConfig;"; ""].
Proof.
  apply (manifest_lines_read_back
           (Generator.routes
              (Generator.main None (root_path sample_cwd) sample_tree None).2)).
  by_decide.
Defined.

(** * Further properties of the renamer *)

Section matches_once.
Implicit Types (t n : node) (d : path) (f x : string)
  (es : list (string * node)).

Lemma entry_unique es x n1 n2 :
  NoDup es.*1 → (x, n1) ∈ es → (x, n2) ∈ es → n1 = n2.
Proof.
  intros Hnd H1 H2. apply (assoc_unique _ _ _ Hnd) in H1, H2. congruence.
Qed.

(** In a tree that lists no name twice, no file is listed twice. *)
Lemma files_under_NoDup t : names_unique t → NoDup (files_under t).
Proof.
  induction t as [c|es IH] using node_ind'; intros Hu; [constructor|].
  apply names_unique_Dir in Hu as [Hnd Hu].
  rewrite files_under_Dir. rewrite Forall_forall in IH, Hu.
  apply NoDup_bind.
  - intros [x1 n1] [x2 n2] [d f] H1 H2 Hy1 Hy2. simpl in *.
    assert (x1 = x2) as ->.
    { destruct n1 as [c1|es1], n2 as [c2|es2];
        repeat match goal with
        | H : _ ∈ [_] |- _ => apply list_elem_of_singleton in H
        | H : _ ∈ _ <$> _ |- _ =>
            apply list_elem_of_fmap in H as ([? ?] & ? & _)
        end; simplify_eq/=; done. }
    f_equal. by eapply entry_unique.
  - intros [x n] Hin. simpl. destruct n as [c|es']; [apply NoDup_singleton|].
    apply NoDup_fmap_2_strong; [|by apply (IH _ Hin), (Hu _ Hin)].
    intros [d1 f1] [d2 f2] _ _. simpl. by intros [= -> ->].
  - by apply NoDup_fmap_1 in Hnd.
Qed.

Lemma find_files_NoDup t : names_unique t → NoDup (Renamer.find_files t).
Proof.
  intros Hu. rewrite find_files_walk.
  apply NoDup_fmap_2_strong.
  - intros [d1 f1] [d2 f2] _ _. unfold snoc. simpl.
    intros [-> ->]%app_inj_tail. done.
  - apply NoDup_filter. rewrite walk_files_under.
    apply NoDup_fmap_2_strong; [|by apply files_under_NoDup].
    intros [d1 f1] [d2 f2] _ _. simpl. by intros [= -> ->].
Qed.
End matches_once.

(** X7: in a tree that lists no name twice, the matches are exactly the
    paths of the plain files named [_index.tsx], each once; a directory with
    that name is no match. *)
Theorem find_files_exact t :
  names_unique t →
  NoDup (Renamer.find_files t)
  ∧ ∀ m, m ∈ Renamer.find_files t
         ↔ last m = Some "_index.tsx"
           ∧ ∃ content, Fs.lookup t m = Some (File content).
Proof.
  intros Hu. split; [by apply find_files_NoDup|]. intros m. split.
  - intros Hm. destruct (find_files_sound _ _ Hu Hm) as [Hl [c Hc]].
    split; [done|]. exists c. unfold stat in Hc.
    by destruct (Fs.lookup t m) as [[c'|es]|]; simplify_eq.
  - intros [Hl [c Hc]]. apply (find_files_complete _ _ c); [|done].
    unfold stat. by rewrite Hc.
Qed.

Lemma find_files_exact_witness :
  NoDup (Renamer.find_files sample_routes)
  ∧ ∀ m, m ∈ Renamer.find_files sample_routes
         ↔ last m = Some "_index.tsx"
           ∧ ∃ content, Fs.lookup sample_routes m = Some (File content).
Proof. apply (find_files_exact sample_routes). exact I. Defined.

Section renamer_rounds.
Implicit Types (t : node) (p q src dst : path) (w : Renamer.world).

Lemma can_rename_to_dst src t c :
  last src = Some "_index.tsx" →
  stat t src = Some (Some c) → Fs.isdir t (dst_of src) = false →
  can_rename_file t src (dst_of src).
Proof.
  intros Hl Hc Hisdir. pose proof (path_split _ _ Hl) as Hsrc.
  unfold dst_of. split_and!.
  - by exists c.
  - by destruct (Fs.dirname src).
  - rewrite dirname_snoc. rewrite Hsrc in Hc. by apply stat_parent in Hc.
  - rewrite stat_isdir in Hisdir. by apply bool_decide_eq_false in Hisdir.
  - rewrite Hsrc at 1. by apply snoc_not_prefix.
Qed.

(** A round on a plain file whose destination is no directory succeeds
    where the file is text, and stops at the reading where it is not. *)
Lemma process_file src w c :
  last src = Some "_index.tsx" →
  stat (Renamer.fs w) src = Some (Some c) →
  Fs.isdir (Renamer.fs w) (dst_of src) = false →
  ∃ w', Renamer.process src w
        = (if Py.utf8_valid c then Ok () else Raise UnicodeDecodeError, w').
Proof.
  intros Hl Hc Hisdir.
  pose proof (can_rename_to_dst _ _ _ Hl Hc Hisdir) as Hcan.
  destruct (process_cases src w Hl)
    as [[_ [?|?]]|[(n & ? & _)|[(es & _ & Hn & _)|(c' & _ & Hc' & _ & He)]]];
    [congruence|done|congruence| |].
  { unfold stat in Hc. by rewrite Hn in Hc. }
  assert (c' = c) as -> by congruence. cbn zeta in He. rewrite He.
  destruct (Py.utf8_valid c); by eexists.
Qed.

Lemma process_ok src w c :
  last src = Some "_index.tsx" →
  stat (Renamer.fs w) src = Some (Some c) →
  Fs.isdir (Renamer.fs w) (dst_of src) = false →
  Py.utf8_valid c = true →
  ∃ w', Renamer.process src w = (Ok (), w').
Proof.
  intros Hl Hc Hisdir Hvalid.
  destruct (process_file _ _ _ Hl Hc Hisdir) as [w' Hrun].
  rewrite Hvalid in Hrun. by exists w'.
Qed.

(** A round that succeeds has renamed a plain file that is text, and left
    at the destination the content with the import reference replaced. *)
Lemma process_ok_inv src w w' :
  last src = Some "_index.tsx" →
  Renamer.process src w = (Ok (), w') →
  ∃ c, stat (Renamer.fs w) src = Some (Some c)
       ∧ Fs.isdir (Renamer.fs w) (dst_of src) = false
       ∧ Py.utf8_valid c = true
       ∧ stat (Renamer.fs w') (dst_of src) = Some (Some (updated c))
       ∧ stat (Renamer.fs w') src = None
       ∧ (∀ q, ¬ dst_of src `prefix_of` q → ¬ src `prefix_of` q →
               stat (Renamer.fs w') q = stat (Renamer.fs w) q).
Proof.
  intros Hl Hrun. pose proof (path_split _ _ Hl) as Hsrc.
  destruct (process_cases src w Hl)
    as [[[e He] _]|[(n & _ & _ & _ & He)
       |[(es & _ & _ & He)|(c & Hisdir & Hc & Hpar & He)]]];
    try congruence.
  exists c.
  pose proof (process_effect src w (Ok ()) w' Hl ltac:(congruence) Hrun)
    as [[? _]|(tgt & c0 & c1 & Hcase & _ & _ & Hgone & Hoff)]; [done|].
  destruct Hcase as [(-> & _ & _)|(_ & _ & ?)]; [|done].
  cbn zeta in He. rewrite He in Hrun.
  destruct (Py.utf8_valid c) eqn:Hvalid; [|done].
  split_and!; [done..| |done|done].
  assert (dst_of src ≠ []) as Hdne by (unfold dst_of; by destruct (Fs.dirname src)).
  assert (¬ src `prefix_of` Fs.dirname (dst_of src)) as Hsd.
  { apply longer_not_prefix. unfold dst_of. rewrite dirname_snoc.
    rewrite Hsrc at 2. rewrite length_app. simpl. lia. }
  assert (¬ dst_of src `prefix_of` Fs.dirname (dst_of src)) as Hdd.
  { apply longer_not_prefix. unfold dst_of.
    rewrite dirname_snoc, length_app. simpl. lia. }
  assert (stat (Renamer.fs w) (Fs.dirname (dst_of src)) = Some None) as Hpar'.
  { unfold dst_of. by rewrite dirname_snoc. }
  destruct (updated_cases c) as [(Hne & _ & ->)|(Heq & _ & ->)].
  - rewrite bool_decide_eq_true_2 in Hrun by done.
    injection Hrun as <-; cbn [Renamer.fs].
    apply stat_put_file; [done|]. by rewrite stat_put_off, stat_remove_off.
  - rewrite bool_decide_eq_false_2 in Hrun by (by intros ?).
    injection Hrun as <-; cbn [Renamer.fs].
    apply stat_put_file; [done|]. by rewrite stat_remove_off.
Qed.

(** A round neither removes nor renames a directory. *)
Lemma process_dirs_kept src w r w' q :
  last src = Some "_index.tsx" →
  stat (Renamer.fs w) src ≠ Some None →
  Renamer.process src w = (r, w') →
  stat (Renamer.fs w) q = Some None → stat (Renamer.fs w') q = Some None.
Proof.
  intros Hl Hnd Hrun Hq.
  destruct (process_effect _ _ _ _ Hl Hnd Hrun)
    as [[_ ->]|(tgt & c0 & c1 & Hcase & Hsrc0 & _ & _ & Hoff)]; [done|].
  rewrite Hoff; [done| |].
  - intros [rest ->]. destruct Hcase as [(-> & Hisdir & _)|(-> & Hfree & _)].
    + rewrite stat_isdir in Hisdir. apply bool_decide_eq_false in Hisdir.
      destruct rest as [|x rest]; [by rewrite app_nil_r in Hq|].
      by rewrite stat_under_nondir in Hq.
    + by rewrite stat_under_missing in Hq.
  - intros [rest ->]. destruct rest as [|x rest].
    + rewrite app_nil_r in Hq. congruence.
    + by rewrite (stat_under_file _ _ c0) in Hq.
Qed.

(** A round that succeeds leaves the other files with the reserved name
    where they are. *)
Lemma process_ok_other_match src w w' m c :
  last src = Some "_index.tsx" → last m = Some "_index.tsx" →
  Renamer.process src w = (Ok (), w') →
  stat (Renamer.fs w) m = Some (Some c) → m ≠ src →
  stat (Renamer.fs w') m = Some (Some c).
Proof.
  intros Hl Hlm Hrun Hm Hne.
  destruct (process_ok_inv _ _ _ Hl Hrun)
    as (c0 & Hc0 & Hisdir & _ & _ & _ & Hoff).
  rewrite Hoff; [done| |].
  - intros [rest ->]. destruct rest as [|x rest].
    + rewrite app_nil_r, last_dst_of in Hlm. by simplify_eq.
    + rewrite stat_isdir in Hisdir. apply bool_decide_eq_false in Hisdir.
      by rewrite stat_under_nondir in Hm.
  - intros [rest ->]. destruct rest as [|x rest].
    + by rewrite app_nil_r in Hne.
    + by rewrite (stat_under_file _ _ c0) in Hm.
Qed.

Lemma for_each_cons_ok (m : path) ms w w' :
  for_each (m :: ms) Renamer.process w = (Ok (), w') →
  ∃ w1, Renamer.process m w = (Ok (), w1)
        ∧ for_each ms Renamer.process w1 = (Ok (), w').
Proof.
  simpl. unfold mbind, Prog_bind.
  destruct (Renamer.process m w) as [[[]|e] w1]; [by eexists|done].
Qed.

(** In a loop that succeeds every match is a plain file when the loop
    begins, and no match comes twice. *)
Lemma loop_matches_exist ms w w' :
  (∀ m, m ∈ ms → last m = Some "_index.tsx") →
  for_each ms Renamer.process w = (Ok (), w') →
  NoDup ms ∧ ∀ m, m ∈ ms → ∃ c, stat (Renamer.fs w) m = Some (Some c).
Proof.
  revert w. induction ms as [|m0 ms IH]; intros w Hms Hrun.
  { split; [constructor|]. by intros m ?%elem_of_nil. }
  destruct (for_each_cons_ok _ _ _ _ Hrun) as (w1 & Hstep & Hrest).
  assert (last m0 = Some "_index.tsx") as Hl0 by apply Hms, list_elem_of_here.
  destruct (IH w1) as [Hnd Hex]; [|done|].
  { intros m Hm. by apply Hms, list_elem_of_further. }
  destruct (process_ok_inv _ _ _ Hl0 Hstep)
    as (c0 & Hc0 & _ & _ & _ & Hgone & _).
  split.
  - constructor; [|done]. intros Hin. destruct (Hex _ Hin) as [c Hc]. congruence.
  - intros m [->|Hm]%elem_of_cons; [by exists c0|].
    destruct (Hex m Hm) as [c Hc]. exists c.
    eapply process_reserved; [exact Hl0|exact Hstep|exact Hc|].
    by apply Hms, list_elem_of_further.
Qed.

Lemma loop_reserved ms w w' q c :
  (∀ m, m ∈ ms → last m = Some "_index.tsx") →
  for_each ms Renamer.process w = (Ok (), w') →
  stat (Renamer.fs w') q = Some (Some c) → last q = Some "_index.tsx" →
  stat (Renamer.fs w) q = Some (Some c) ∧ q ∉ ms.
Proof.
  revert w. induction ms as [|m0 ms IH]; intros w Hms Hrun Hq Hlq.
  { injection Hrun as <-. split; [done|apply not_elem_of_nil]. }
  destruct (for_each_cons_ok _ _ _ _ Hrun) as (w1 & Hstep & Hrest).
  assert (last m0 = Some "_index.tsx") as Hl0 by apply Hms, list_elem_of_here.
  destruct (IH w1) as [Hq1 Hnin]; [|done..|].
  { intros m Hm. by apply Hms, list_elem_of_further. }
  destruct (process_reserved _ _ _ _ _ Hl0 Hstep Hq1 Hlq) as [Hq0 Hne].
  split; [done|]. by apply not_elem_of_cons.
Qed.

Lemma loop_dirs ms w w' q :
  (∀ m, m ∈ ms → last m = Some "_index.tsx") →
  for_each ms Renamer.process w = (Ok (), w') →
  stat (Renamer.fs w') q = Some None ↔ stat (Renamer.fs w) q = Some None.
Proof.
  revert w. induction ms as [|m0 ms IH]; intros w Hms Hrun.
  { by injection Hrun as <-. }
  destruct (for_each_cons_ok _ _ _ _ Hrun) as (w1 & Hstep & Hrest).
  assert (last m0 = Some "_index.tsx") as Hl0 by apply Hms, list_elem_of_here.
  destruct (process_ok_inv _ _ _ Hl0 Hstep) as (c0 & Hc0 & _).
  assert (stat (Renamer.fs w) m0 ≠ Some None) as Hnd by congruence.
  rewrite (IH w1); [|intros m Hm; by apply Hms, list_elem_of_further|done].
  split; [by eapply process_dirs|by eapply process_dirs_kept].
Qed.

(** A loop that succeeds leaves, for each match, the updated content at the
    destination and nothing at the match. *)
Lemma loop_effect ms w w' m c :
  (∀ m, m ∈ ms → last m = Some "_index.tsx") →
  for_each ms Renamer.process w = (Ok (), w') →
  m ∈ ms → stat (Renamer.fs w) m = Some (Some c) →
  Py.utf8_valid c = true
  ∧ stat (Renamer.fs w') (dst_of m) = Some (Some (updated c))
  ∧ stat (Renamer.fs w') m = None.
Proof.
  revert w. induction ms as [|m0 ms IH]; intros w Hms Hrun Hin Hm.
  { by apply elem_of_nil in Hin. }
  destruct (for_each_cons_ok _ _ _ _ Hrun) as (w1 & Hstep & Hrest).
  assert (last m0 = Some "_index.tsx") as Hl0 by apply Hms, list_elem_of_here.
  assert (∀ m, m ∈ ms → last m = Some "_index.tsx") as Hms'.
  { intros m' Hm'. by apply Hms, list_elem_of_further. }
  destruct (loop_matches_exist _ _ _ Hms Hrun) as [Hnd _].
  apply NoDup_cons in Hnd as [Hnin _].
  destruct (loop_matches_exist _ _ _ Hms' Hrest) as [_ Hex].
  destruct (process_ok_inv _ _ _ Hl0 Hstep)
    as (c0 & Hc0 & Hisdir & Hvalid & Hdst & Hgone & _).
  apply elem_of_cons in Hin as [->|Hin].
  - assert (c0 = c) as -> by congruence. split_and!.
    + done.
    + eapply (for_each_process_frame (Renamer.fs w1)) in Hrest
        as [Hkeep _]; [exact Hkeep| |done|exact Hdst| |].
      * intros m Hm'. split; [by apply Hms'|].
        destruct (Hex m Hm') as [c' Hc']. congruence.
      * by rewrite last_dst_of.
      * intros m Hm' Heq. apply Hnin. replace m0 with m; [done|].
        rewrite (path_split m "_index.tsx"), (path_split m0 "_index.tsx")
          by (done || by apply Hms').
        unfold dst_of in Heq. by apply app_inj_tail in Heq as [-> _].
    + destruct (stat (Renamer.fs w') m0) as [[c'|]|] eqn:Hend; [| |done].
      * destruct (loop_reserved _ _ _ _ _ Hms' Hrest Hend Hl0). congruence.
      * apply (loop_dirs _ _ _ _ Hms' Hrest) in Hend. congruence.
  - apply (IH w1); [done..|].
    apply (process_ok_other_match m0 w); [done|by apply Hms'|done..|].
    intros ->. done.
Qed.
End renamer_rounds.

Lemma stat_file t p c : stat t p = Some (Some c) ↔ Fs.lookup t p = Some (File c).
Proof.
  unfold stat. destruct (Fs.lookup t p) as [[c'|es]|]; split; congruence.
Qed.

Lemma stat_missing t p : stat t p = None ↔ Fs.lookup t p = None.
Proof. unfold stat. by destruct (Fs.lookup t p) as [[c'|es]|]. Qed.

Lemma main_ok_loop t w :
  Renamer.main t = (Ok (), w) →
  ∃ w0, Renamer.fs w0 = t
        ∧ for_each (Renamer.find_files t) Renamer.process w0 = (Ok (), w).
Proof.
  rewrite script_unfold_renamer.
  destruct (for_each _ _ _) as [r w1] eqn:Hloop. intros [= -> ->].
  by eexists (Renamer.World t _).
Qed.

(** X8: after a run that succeeded, every file that was named [_index.tsx]
    was text and is gone from its place, and [index.tsx] in the same
    directory holds what it held: where the old import reference occurred,
    the text as it was read, its line ends as line feeds, with every
    occurrence replaced; else the same bytes. *)
Theorem every_match_renamed_and_updated t w m content :
  names_unique t →
  Renamer.main t = (Ok (), w) →
  last m = Some "_index.tsx" →
  Fs.lookup t m = Some (File content) →
  Py.utf8_valid content = true
  ∧ Fs.lookup (Renamer.fs w) m = None
  ∧ Fs.lookup (Renamer.fs w) (Fs.dirname m ++ ["index.tsx"])
    = Some (File (if Py.contains content Renamer.old_ref
                  then Py.replace (Py.universal_newlines content)
                                  Renamer.old_ref Renamer.new_ref
                  else content)).
Proof.
  intros Hu Hrun Hl Hm. apply stat_file in Hm.
  destruct (main_ok_loop _ _ Hrun) as (w0 & <- & Hloop).
  destruct (loop_effect _ _ _ m content
              (λ m' Hm', proj1 (find_files_sound _ _ Hu Hm')) Hloop)
    as (Hvalid & Hdst & Hgone); [by eapply find_files_complete|done|].
  split_and!; [done|by apply stat_missing|by apply stat_file].
Qed.

Lemma every_match_renamed_and_updated_witness :
  Py.utf8_valid sample_page_crlf = true
  ∧ Fs.lookup (Renamer.fs (Renamer.main sample_crlf).2) ["_index.tsx"] = None
  ∧ Fs.lookup (Renamer.fs (Renamer.main sample_crlf).2) ["index.tsx"]
    = Some (File sample_page_crlf_updated).
Proof.
  apply (every_match_renamed_and_updated sample_crlf
           (Renamer.main sample_crlf).2 ["_index.tsx"] sample_page_crlf);
    [exact I|vm_compute; reflexivity|reflexivity|reflexivity].
Defined.

Section renamer_success.
Implicit Types (t : node) (p q : path) (w : Renamer.world) (ms : list path).

Lemma loop_succeeds ms w :
  NoDup ms →
  (∀ m, m ∈ ms →
        last m = Some "_index.tsx"
        ∧ (∃ c, stat (Renamer.fs w) m = Some (Some c)
                ∧ Py.utf8_valid c = true)
        ∧ Fs.isdir (Renamer.fs w) (dst_of m) = false) →
  ∃ w', for_each ms Renamer.process w = (Ok (), w').
Proof.
  intros Hnd. revert w. induction Hnd as [|m0 ms Hnin Hnd IH]; intros w Hms.
  { by eexists. }
  destruct (Hms m0) as (Hl0 & (c0 & Hc0 & Hv0) & Hd0); [apply list_elem_of_here|].
  destruct (process_ok _ _ _ Hl0 Hc0 Hd0 Hv0) as [w1 Hstep].
  destruct (IH w1) as [w' Hrest].
  - intros m Hm.
    destruct (Hms m) as (Hl & (c & Hc & Hv) & Hd);
      [by apply list_elem_of_further|].
    split_and!; [done| |].
    + exists c. split; [|done].
      apply (process_ok_other_match m0 w); [done..|]. by intros ->.
    + rewrite stat_isdir in Hd |- *. apply bool_decide_eq_false in Hd.
      apply bool_decide_eq_false. intros Hdir. apply Hd.
      eapply process_dirs; [exact Hl0| |exact Hstep|exact Hdir]. congruence.
  - exists w'. simpl. by erewrite bind_ok.
Qed.

Lemma loop_destinations_free ms w w' m :
  (∀ m, m ∈ ms → last m = Some "_index.tsx") →
  for_each ms Renamer.process w = (Ok (), w') →
  m ∈ ms → Fs.isdir (Renamer.fs w) (dst_of m) = false.
Proof.
  revert w. induction ms as [|m0 ms IH]; intros w Hms Hrun Hin.
  { by apply elem_of_nil in Hin. }
  destruct (for_each_cons_ok _ _ _ _ Hrun) as (w1 & Hstep & Hrest).
  assert (last m0 = Some "_index.tsx") as Hl0 by apply Hms, list_elem_of_here.
  destruct (process_ok_inv _ _ _ Hl0 Hstep) as (c0 & Hc0 & Hisdir & _).
  apply elem_of_cons in Hin as [->|Hin]; [done|].
  assert (Fs.isdir (Renamer.fs w1) (dst_of m) = false) as Hd1.
  { apply (IH w1); [|done..]. intros m' ?. by apply Hms, list_elem_of_further. }
  rewrite stat_isdir in Hd1 |- *. apply bool_decide_eq_false in Hd1.
  apply bool_decide_eq_false. intros Hdir. apply Hd1.
  eapply process_dirs_kept; [exact Hl0| |exact Hstep|exact Hdir]. congruence.
Qed.
End renamer_success.

(** X9: over a tree that lists no name twice the run succeeds exactly when
    every file named [_index.tsx] is text and has no directory named
    [index.tsx] beside it. *)
Theorem run_succeeds_iff_no_destination_is_a_directory t :
  names_unique t →
  (∃ w, Renamer.main t = (Ok (), w))
  ↔ ∀ d content,
      Fs.lookup t (d ++ ["_index.tsx"]) = Some (File content) →
      Fs.isdir t (d ++ ["index.tsx"]) = false
      ∧ Py.utf8_valid content = true.
Proof.
  intros Hu. split.
  - intros [w Hrun] d c Hc.
    destruct (main_ok_loop _ _ Hrun) as (w0 & <- & Hloop).
    assert (d ++ ["_index.tsx"] ∈ Renamer.find_files (Renamer.fs w0)) as Hin.
    { apply (find_files_complete _ _ c); [by apply stat_file|apply last_snoc]. }
    split.
    + pose proof (loop_destinations_free _ _ _ (d ++ ["_index.tsx"])
                    (λ m' Hm', proj1 (find_files_sound _ _ Hu Hm')) Hloop)
        as Hfree.
      unfold dst_of in Hfree. rewrite dirname_snoc in Hfree. by apply Hfree.
    + apply stat_file in Hc.
      by destruct (loop_effect _ _ _ _ c
                     (λ m' Hm', proj1 (find_files_sound _ _ Hu Hm'))
                     Hloop Hin Hc) as [? _].
  - intros Hfree.
    destruct (loop_succeeds (Renamer.find_files t)
                (Renamer.World t
                   [Renamer.Printed
                      ("Found " +:+ pretty (length (Renamer.find_files t))
                         +:+ " _index.tsx files.")])) as [w Hloop].
    + by apply find_files_NoDup.
    + intros m Hm. destruct (find_files_sound _ _ Hu Hm) as [Hl [c Hc]].
      destruct (Hfree (Fs.dirname m) c) as [Hd Hv].
      { rewrite <-(path_split _ _ Hl). by apply stat_file. }
      split_and!; [done|by exists c|done].
    + exists w. by rewrite script_unfold_renamer, Hloop.
Qed.

Lemma run_succeeds_iff_no_destination_is_a_directory_witness :
  (∃ w, Renamer.main sample_routes = (Ok (), w))
  ↔ ∀ d content,
      Fs.lookup sample_routes (d ++ ["_index.tsx"]) = Some (File content) →
      Fs.isdir sample_routes (d ++ ["index.tsx"]) = false
      ∧ Py.utf8_valid content = true.
Proof.
  apply (run_succeeds_iff_no_destination_is_a_directory sample_routes).
  exact I.
Defined.

Section renamer_directories.
Implicit Types (t : node) (p q : path) (w : Renamer.world) (ms : list path).

Lemma loop_dirs_any t0 ms w r w' :
  (∀ m, m ∈ ms → last m = Some "_index.tsx" ∧ stat t0 m ≠ Some None) →
  (∀ q, stat (Renamer.fs w) q = Some None ↔ stat t0 q = Some None) →
  for_each ms Renamer.process w = (r, w') →
  ∀ q, stat (Renamer.fs w') q = Some None ↔ stat t0 q = Some None.
Proof.
  revert w. induction ms as [|m0 ms IH]; intros w Hms Hinv Hrun q.
  { by injection Hrun as <- <-. }
  simpl in Hrun. unfold mbind, Prog_bind in Hrun.
  destruct (Renamer.process m0 w) as [r1 w1] eqn:Hstep.
  destruct (Hms m0) as [Hl0 Hm0]; [apply list_elem_of_here|].
  assert (stat (Renamer.fs w) m0 ≠ Some None) as Hnd.
  { intros Hdir. by apply Hm0, Hinv. }
  assert (∀ q, stat (Renamer.fs w1) q = Some None ↔ stat t0 q = Some None)
    as Hinv1.
  { intros q'. rewrite <-Hinv.
    split; [by eapply process_dirs|by eapply process_dirs_kept]. }
  destruct r1 as [[]|e]; [|by injection Hrun as <- <-].
  apply (IH w1); [|done..]. intros m Hm. by apply Hms, list_elem_of_further.
Qed.

Lemma os_rename_file_ok src dst w :
  can_rename_file (Renamer.fs w) src dst → src ≠ dst →
  ∃ c, stat (Renamer.fs w) src = Some (Some c)
       ∧ Renamer.os_rename src dst w
         = (Ok (), Renamer.World
                     (Fs.put dst (File c) (Fs.remove src (Renamer.fs w)))
                     (Renamer.trace w ++ [Renamer.Renamed src dst])).
Proof.
  intros Hcan Hne.
  destruct (os_rename_cases src dst w)
    as [[? _]|[(e & _ & ?)|(n & Hn & _ & _ & _ & _ & ->)]]; [done..|].
  destruct Hcan as ([c Hc] & _). exists c. split; [done|].
  apply stat_file in Hc. by simplify_eq.
Qed.
End renamer_directories.

(** X10: a run, whether it succeeds or fails, neither makes nor removes nor
    renames a directory: the same paths are directories before and after. *)
Theorem directories_unchanged t q :
  names_unique t →
  Fs.isdir (Renamer.fs (Renamer.main t).2) q = Fs.isdir t q.
Proof.
  intros Hu. rewrite script_unfold_renamer.
  destruct (for_each _ _ _) as [r w] eqn:Hloop. cbn [snd].
  rewrite !stat_isdir. apply bool_decide_ext.
  eapply (loop_dirs_any t). 3: exact Hloop.
  - intros m Hm. destruct (find_files_sound _ _ Hu Hm) as [Hl [c Hc]].
    split; [done|congruence].
  - intros q'. reflexivity.
Qed.

Lemma directories_unchanged_witness :
  Fs.isdir (Renamer.fs (Renamer.main sample_routes).2) ["events"]
  = Fs.isdir sample_routes ["events"].
Proof. apply (directories_unchanged sample_routes ["events"]). exact I. Defined.

(** X11: when the destination [index.tsx] is a directory, the round fails.
    If that directory already holds an entry [_index.tsx], nothing has
    been changed; otherwise the file has been moved into the directory,
    under its old name, before the failure. *)
Theorem destination_directory_takes_the_file src w content :
  last src = Some "_index.tsx" →
  Fs.lookup (Renamer.fs w) src = Some (File content) →
  Fs.isdir (Renamer.fs w) (dst_of src) = true →
  let inside := dst_of src ++ ["_index.tsx"] in
  match Fs.lookup (Renamer.fs w) inside with
  | Some _ =>
      Renamer.process src w
      = (Raise ShutilError,
         Renamer.World (Renamer.fs w) (Renamer.trace w ++ [renaming_line src]))
  | None =>
      ∃ w', Renamer.process src w = (Raise IsADirectoryError, w')
            ∧ Fs.lookup (Renamer.fs w') inside = Some (File content)
            ∧ Fs.lookup (Renamer.fs w') src = None
            ∧ Renamer.trace w'
              = Renamer.trace w
                  ++ [renaming_line src; Renamer.Renamed src inside]
  end.
Proof.
  intros Hl Hc Hisdir inside. pose proof (path_split _ _ Hl) as Hsrc.
  assert (src ≠ dst_of src) as Hne.
  { intros Heq. apply (f_equal last) in Heq.
    rewrite Hl, last_dst_of in Heq. by simplify_eq. }
  assert (length src = S (length (Fs.dirname src))) as Hlen.
  { rewrite Hsrc at 1. rewrite length_app. simpl. lia. }
  assert (length (dst_of src) = S (length (Fs.dirname src))) as Hlend.
  { unfold dst_of. rewrite length_app. simpl. lia. }
  assert (length inside = S (S (length (Fs.dirname src)))) as Hleni.
  { unfold inside. rewrite length_app, Hlend. simpl. lia. }
  rewrite process_unfold, shutil_move_unfold. cbn [Renamer.fs].
  rewrite Hisdir, bool_decide_eq_false_2, Hl by done. fold inside.
  unfold Fs.exists_.
  destruct (Fs.lookup (Renamer.fs w) inside) as [n|] eqn:Hin.
  { by rewrite bool_decide_eq_true_2 by by eexists. }
  rewrite bool_decide_eq_false_2 by (by intros [? ?]).
  assert (stat (Renamer.fs w) (dst_of src) = Some None) as Hdir.
  { rewrite stat_isdir in Hisdir. by apply bool_decide_eq_true in Hisdir. }
  set (w1 := Renamer.World (Renamer.fs w) (Renamer.trace w ++ [renaming_line src])).
  destruct (os_rename_file_ok src inside w1) as (c & Hc' & ->).
  { split_and!.
    - exists content. by apply stat_file.
    - unfold inside. by destruct (dst_of src).
    - unfold inside. by rewrite dirname_snoc.
    - apply stat_missing in Hin. cbn [Renamer.fs w1]. congruence.
    - unfold inside, dst_of. rewrite <-app_assoc. rewrite Hsrc at 1.
      by apply snoc_not_prefix. }
  { intros Heq. apply (f_equal length) in Heq. lia. }
  cbn [Renamer.fs w1] in Hc'. apply stat_file in Hc'.
  assert (c = content) as -> by congruence.
  assert (stat (Fs.remove src (Renamer.fs w)) (dst_of src) = Some None) as Hdir'.
  { rewrite stat_remove_off; [done|]. intros Hp. apply Hne.
    destruct Hp as [k Hk]. apply (f_equal length) in Hk as Hk'.
    rewrite length_app in Hk'. destruct k; [by rewrite app_nil_r in Hk|].
    simpl in Hk'. lia. }
  assert (inside ≠ []) as Hine by (unfold inside; by destruct (dst_of src)).
  unfold Renamer.read_text. cbn [Renamer.fs Renamer.trace w1].
  assert (stat (Fs.put inside (File content) (Fs.remove src (Renamer.fs w)))
               (dst_of src) = Some None) as Hst.
  { rewrite stat_put_off; [done|]. apply longer_not_prefix. lia. }
  unfold stat in Hst.
  destruct (Fs.lookup (Fs.put inside (File content) _) (dst_of src))
    as [[c'|es]|] eqn:Hlook; try done.
  eexists. split; [done|]. cbn [Renamer.fs Renamer.trace].
  split_and!.
  - apply stat_file, stat_put_file; [done|].
    unfold inside. by rewrite dirname_snoc.
  - apply stat_missing. rewrite stat_put_off by (apply longer_not_prefix; lia).
    unfold stat. rewrite <-(app_nil_r src) at 2.
    rewrite lookup_remove_under; [done|]. by intros ->.
  - by rewrite <-app_assoc.
Qed.

Lemma destination_directory_takes_the_file_witness :
  ∃ w', Renamer.process ["_index.tsx"]
          (Renamer.World (Dir [("index.tsx", Dir []); ("_index.tsx", File "page")]) [])
        = (Raise IsADirectoryError, w')
        ∧ Fs.lookup (Renamer.fs w') ["index.tsx"; "_index.tsx"]
          = Some (File "page")
        ∧ Fs.lookup (Renamer.fs w') ["_index.tsx"] = None
        ∧ Renamer.trace w'
          = [renaming_line ["_index.tsx"];
             Renamer.Renamed ["_index.tsx"] ["index.tsx"; "_index.tsx"]].
Proof.
  apply (destination_directory_takes_the_file ["_index.tsx"]
           (Renamer.World (Dir [("index.tsx", Dir []); ("_index.tsx", File "page")]) [])
           "page"); reflexivity.
Defined.

(** X16: a match that is no text, and whose destination is no directory,
    is renamed and read, and there the round fails with a decoding error:
    the file stands under its new name with the bytes it had, and nothing
    was written. *)
Theorem undecodable_match_is_renamed src w content :
  last src = Some "_index.tsx" →
  Fs.lookup (Renamer.fs w) src = Some (File content) →
  Fs.isdir (Renamer.fs w) (dst_of src) = false →
  Py.utf8_valid content = false →
  ∃ w', Renamer.process src w = (Raise UnicodeDecodeError, w')
        ∧ Fs.lookup (Renamer.fs w') src = None
        ∧ Fs.lookup (Renamer.fs w') (dst_of src) = Some (File content)
        ∧ Renamer.trace w'
          = Renamer.trace w
              ++ [renaming_line src; Renamer.Renamed src (dst_of src);
                  Renamer.Read (dst_of src)].
Proof.
  intros Hl Hc Hisdir Hvalid. apply stat_file in Hc.
  pose proof (can_rename_to_dst _ _ _ Hl Hc Hisdir) as Hcan.
  destruct (process_cases src w Hl)
    as [[_ [?|?]]|[(n & ? & _)|[(es & _ & Hn & _)|(c' & _ & Hc' & _ & He)]]];
    [congruence|done|congruence| |].
  { unfold stat in Hc. by rewrite Hn in Hc. }
  assert (c' = content) as -> by congruence.
  cbn zeta in He. rewrite Hvalid in He.
  destruct (process_effect src w _ _ Hl ltac:(congruence) He)
    as [[_ Hsame]|(tgt & c0 & c1 & Hcase & _ & _ & Hgone & _)].
  - cbn [Renamer.fs] in Hsame. exfalso.
    destruct Hcan as (_ & Hdne & Hpar & _ & _).
    assert (stat (Fs.put (dst_of src) (File content)
                         (Fs.remove src (Renamer.fs w))) src = None) as Hsrc.
    { rewrite stat_put_off.
      - unfold stat. rewrite <-(app_nil_r src) at 2.
        by rewrite lookup_remove_under by (by intros ->).
      - unfold dst_of. rewrite (path_split _ _ Hl) at 2.
        by apply snoc_not_prefix. }
    rewrite Hsame in Hsrc. congruence.
  - eexists. split; [exact He|]. cbn [Renamer.fs Renamer.trace] in *.
    destruct Hcan as (_ & Hdne & Hpar & _ & _).
    split_and!; [by apply stat_missing| |by rewrite <-app_assoc].
    apply stat_file, stat_put_file; [done|]. rewrite stat_remove_off; [done|].
    apply longer_not_prefix. unfold dst_of. rewrite dirname_snoc.
    rewrite (path_split _ _ Hl) at 2. rewrite length_app. simpl. lia.
Qed.

Lemma undecodable_match_is_renamed_witness :
  ∃ w', Renamer.process ["_index.tsx"] (Renamer.World sample_binary [])
        = (Raise UnicodeDecodeError, w')
        ∧ Fs.lookup (Renamer.fs w') ["_index.tsx"] = None
        ∧ Fs.lookup (Renamer.fs w') ["index.tsx"]
          = Some (File (String "255" (String "254" "")))
        ∧ Renamer.trace w'
          = [renaming_line ["_index.tsx"];
             Renamer.Renamed ["_index.tsx"] ["index.tsx"];
             Renamer.Read ["index.tsx"]].
Proof.
  apply (undecodable_match_is_renamed ["_index.tsx"]
           (Renamer.World sample_binary [])
           (String "255" (String "254" ""))); reflexivity.
Defined.

Section renamer_trace.
Implicit Types (t : node) (p q : path) (w : Renamer.world) (ms : list path).

Lemma process_ok_trace src w w' :
  last src = Some "_index.tsx" →
  Renamer.process src w = (Ok (), w') →
  Renamer.trace w' = Renamer.trace w ++ match_events (Renamer.fs w) src.
Proof.
  intros Hl Hrun.
  destruct (process_cases src w Hl)
    as [[[e He] _]|[(n & _ & _ & _ & He)
       |[(es & _ & _ & He)|(c & _ & Hc & _ & He)]]];
    try congruence.
  cbn zeta in He. rewrite He in Hrun. apply stat_file in Hc.
  unfold match_events, round_events. rewrite Hc. fold (dst_of src).
  destruct (Py.utf8_valid c); [|done].
  destruct (updated_cases c) as [(Hne & -> & ->)|(Heq & -> & _)].
  - rewrite bool_decide_eq_true_2 in Hrun by done.
    injection Hrun as <-; cbn [Renamer.trace]. by rewrite <-app_assoc.
  - rewrite bool_decide_eq_false_2 in Hrun by (by intros ?).
    injection Hrun as <-; cbn [Renamer.trace]. by rewrite <-app_assoc.
Qed.

Lemma loop_trace ms w w' :
  (∀ m, m ∈ ms → last m = Some "_index.tsx") →
  for_each ms Renamer.process w = (Ok (), w') →
  Renamer.trace w' = Renamer.trace w ++ (ms ≫= match_events (Renamer.fs w)).
Proof.
  revert w. induction ms as [|m0 ms IH]; intros w Hms Hrun.
  { injection Hrun as <-. by rewrite app_nil_r. }
  destruct (for_each_cons_ok _ _ _ _ Hrun) as (w1 & Hstep & Hrest).
  assert (last m0 = Some "_index.tsx") as Hl0 by apply Hms, list_elem_of_here.
  assert (∀ m, m ∈ ms → last m = Some "_index.tsx") as Hms'.
  { intros m' Hm'. by apply Hms, list_elem_of_further. }
  rewrite (IH w1), (process_ok_trace _ _ _ Hl0 Hstep), bind_cons, <-app_assoc
    by done.
  do 2 f_equal. apply Forall_bind_ext, Forall_forall. intros m Hm.
  destruct (loop_matches_exist _ _ _ Hms' Hrest) as [_ Hex].
  destruct (Hex m Hm) as [c Hc].
  destruct (process_reserved _ _ _ _ _ Hl0 Hstep Hc (Hms' m Hm)) as [Hc0 _].
  apply stat_file in Hc, Hc0. unfold match_events. by rewrite Hc, Hc0.
Qed.
End renamer_trace.

(** X12: a run that succeeds prints the number of matches and then, for
    each match in the order found, prints the renaming line, renames the
    match, reads the destination and, only if the content of the match held
    the old import reference, writes the destination, with the text that
    was read and the reference replaced, and prints that it did; it does
    nothing else. *)
Theorem successful_run_trace t w :
  names_unique t →
  Renamer.main t = (Ok (), w) →
  Renamer.trace w
  = Renamer.Printed
      ("Found " +:+ pretty (length (Renamer.find_files t))
         +:+ " _index.tsx files.")
      :: (Renamer.find_files t
            ≫= λ m, match Fs.lookup t m with
                    | Some (File c) =>
                        [renaming_line m; Renamer.Renamed m (dst_of m);
                         Renamer.Read (dst_of m)]
                        ++ (if Py.contains c Renamer.old_ref
                            then [Renamer.Written (dst_of m)
                                    (Py.replace (Py.universal_newlines c)
                                                Renamer.old_ref
                                                Renamer.new_ref);
                                  Renamer.Printed "Updated imports."]
                            else [])
                    | _ => []
                    end).
Proof.
  intros Hu Hrun. rewrite script_unfold_renamer in Hrun.
  destruct (for_each _ _ _) as [r w1] eqn:Hloop. injection Hrun as -> ->.
  rewrite (loop_trace _ _ _
             (λ m' Hm', proj1 (find_files_sound _ _ Hu Hm')) Hloop).
  cbn [Renamer.trace Renamer.fs app]. f_equal.
  apply Forall_bind_ext, Forall_forall. intros m _.
  unfold match_events, round_events, updated.
  destruct (Fs.lookup t m) as [[c|]|]; try done.
  by destruct (Py.contains c Renamer.old_ref).
Qed.

Lemma successful_run_trace_witness :
  Renamer.trace (Renamer.main sample_routes).2
  = [Renamer.Printed "Found 2 _index.tsx files.";
     renaming_line ["_index.tsx"];
     Renamer.Renamed ["_index.tsx"] ["index.tsx"];
     Renamer.Read ["index.tsx"];
     Renamer.Written ["index.tsx"] sample_page_updated;
     Renamer.Printed "Updated imports.";
     renaming_line ["events"; "_index.tsx"];
     Renamer.Renamed ["events"; "_index.tsx"] ["events"; "index.tsx"];
     Renamer.Read ["events"; "index.tsx"]].
Proof.
  apply (successful_run_trace sample_routes (Renamer.main sample_routes).2);
    [exact I|vm_compute; reflexivity].
Defined.

(** X13: after a run that succeeded, the file that took the place of a
    match holds no occurrence of the old import reference any more, so
    replacing once again would change nothing. *)
Theorem no_old_reference_left t w m content :
  names_unique t →
  Renamer.main t = (Ok (), w) →
  last m = Some "_index.tsx" →
  Fs.lookup t m = Some (File content) →
  ∃ updated,
    Fs.lookup (Renamer.fs w) (Fs.dirname m ++ ["index.tsx"])
    = Some (File updated)
    ∧ Py.contains updated Renamer.old_ref = false
    ∧ Py.replace updated Renamer.old_ref Renamer.new_ref = updated.
Proof.
  intros Hu Hrun Hl Hm. apply stat_file in Hm.
  destruct (main_ok_loop _ _ Hrun) as (w0 & <- & Hloop).
  destruct (loop_effect _ _ _ m content
              (λ m' Hm', proj1 (find_files_sound _ _ Hu Hm')) Hloop)
    as (_ & Hdst & _); [by eapply find_files_complete|done|].
  eexists. split; [by apply stat_file|].
  assert (Py.contains (updated content) Renamer.old_ref = false)
    as Hc.
  { destruct (updated_cases content) as [(_ & _ & ->)|(_ & Hno & ->)];
      [apply replace_leaves_no_old_ref|done]. }
  split; [done|by apply replace_absent].
Qed.

Lemma no_old_reference_left_witness :
  ∃ updated,
    Fs.lookup (Renamer.fs (Renamer.main sample_routes).2) ["index.tsx"]
    = Some (File updated)
    ∧ Py.contains updated Renamer.old_ref = false
    ∧ Py.replace updated Renamer.old_ref Renamer.new_ref = updated.
Proof.
  apply (no_old_reference_left sample_routes
           (Renamer.main sample_routes).2 ["_index.tsx"] sample_page);
    [exact I|vm_compute; reflexivity|reflexivity|reflexivity].
Defined.

(** * The two relative paths of a file *)

(** X14: for a file met by the walk, the path relative to [base_dir] splits
    at the slashes into the names of the directories walked into and the
    name of the file, the path relative to [app] is the same path behind
    [routes/], and neither depends on the working directory. *)
Theorem relative_paths_of_a_file cs dirs file :
  Forall valid cs → Forall valid dirs → valid file →
  let full_path := posixpath.join (root_str dirs) file in
  let rel_path := posixpath.relpath (root_path cs) full_path "app" in
  let path_rel :=
    posixpath.relpath (root_path cs) full_path Generator.base_dir in
  Py.split path_rel "/" = dirs ++ [file]
  ∧ rel_path = "routes/" +:+ path_rel.
Proof.
  intros Hcs Hd Hf. cbn zeta.
  rewrite rel_path_clean, path_rel_clean by done. split.
  - apply split_join; [by destruct dirs|].
    rewrite Forall_app, Forall_singleton.
    split; [|apply (valid_name_spec file Hf)].
    eapply Forall_impl; [exact Hd|]. intros x Hx.
    apply (valid_name_spec x Hx).
  - unfold Spec.import_path. by destruct dirs.
Qed.

Lemma relative_paths_of_a_file_witness :
  let full_path := posixpath.join (root_str ["events"]) "$id.tsx" in
  let rel_path := posixpath.relpath (root_path ["srv"; "portal"]) full_path "app" in
  let path_rel :=
    posixpath.relpath (root_path ["srv"; "portal"]) full_path
                      Generator.base_dir in
  Py.split path_rel "/" = ["events"] ++ ["$id.tsx"]
  ∧ rel_path = "routes/" +:+ path_rel.
Proof.
  apply (relative_paths_of_a_file ["srv"; "portal"] ["events"] "$id.tsx");
    by_decide.
Defined.
